(** * proc-OSC: the OSC bridge of pyprocgame ([osc.py], class [OSC_Mode])

    A shallow embedding of [osc.py] and the properties of its brightness
    encoder, session binding, inbound dispatch, category handlers and
    per-tick synchroniser.

    Modelling conventions.
    - A Python [float] is an IEEE 754 binary64 number: a finite one is kept
      as the rational it stands for, and every float addition and
      multiplication is the exact result rounded to the nearest binary64
      value (ties to even), with overflow to an infinity.  [int(x)] is
      truncation toward zero and raises on an infinity or a NaN.
    - A number in an OSC payload is a finite one, kept as a rational; the
      encoder itself is modelled on every float, infinities and NaN included.
    - An exception is a value of [PyExc]; a method of [OSC_Mode] is a
      function from the instance to an outcome and the instance as the
      method left it, so what was mutated before a [raise] stays mutated.
    - The collaborators outside [osc.py] (device registries, the P-ROC
      driver, the logger, the OSC client socket) are kept as data: registries
      are name-keyed lists, and every call into a driver, the logger or the
      socket is appended to a log in call order. *)

From Stdlib Require Import ZArith QArith Qround Qabs Qpower List String Ascii Bool
  Lia Lqa.
From Stdlib Require PrimFloat SpecFloat FloatOps.
Import ListNotations.

Set Implicit Arguments.

(** ** Python primitives *)

Module Py.

Inductive PyExc : Type :=
| IndexError
| KeyError
| TypeError
| ValueError
| AttributeError
| OverflowError.

Inductive outcome (A : Type) : Type :=
| Return (a : A)
| Raise (e : PyExc).

Arguments Return {A} a.
Arguments Raise {A} e.

(** [int(x)] on a number: truncation toward zero. *)
Definition int (x : Q) : Z := Z.quot (Qnum x) (Zpos (Qden x)).

(** [x > y] and [x >= y] on numbers. *)
Definition gt (x y : Q) : bool := negb (Qle_bool x y).
Definition ge (x y : Q) : bool := Qle_bool y x.

(** [l[i]]. *)
Definition index {A : Type} (l : list A) (i : nat) : outcome A :=
  match nth_error l i with
  | Some a => Return a
  | None => Raise IndexError
  end.

(** [for _ in range(n): st = body(st)]. *)
Fixpoint for_range {S : Type} (n : nat) (body : S -> S) (st : S) : S :=
  match n with
  | O => st
  | Datatypes.S n' => for_range n' body (body st)
  end.

(** [for _ in range(n): st = body(st)] with a body that may raise: the
    exception leaves the loop. *)
Fixpoint for_range_try {S : Type} (n : nat) (body : S -> outcome S) (st : S)
    : outcome S :=
  match n with
  | O => Return st
  | Datatypes.S n' =>
      match body st with
      | Return st' => for_range_try n' body st'
      | Raise e => Raise e
      end
  end.

(** [d[key]] on a dict with string keys. *)
Fixpoint getitem {A : Type} (d : list (string * A)) (key : string) : outcome A :=
  match d with
  | [] => Raise KeyError
  | (k, v) :: rest => if String.eqb k key then Return v else getitem rest key
  end.

(** [s.split(sep)] with a one-character separator. *)
Fixpoint split (sep : ascii) (s : string) : list string :=
  match s with
  | EmptyString => [EmptyString]
  | String c rest =>
      if Ascii.eqb c sep then EmptyString :: split sep rest
      else match split sep rest with
           | [] => [String c EmptyString]
           | w :: ws => String c w :: ws
           end
  end.

(** [s.startswith(c)] with a one-character prefix. *)
Definition startswith (c : ascii) (s : string) : bool :=
  match s with
  | EmptyString => false
  | String a _ => Ascii.eqb a c
  end.

Fixpoint lstrip (c : ascii) (s : string) : string :=
  match s with
  | EmptyString => EmptyString
  | String a rest => if Ascii.eqb a c then lstrip c rest else s
  end.

Fixpoint rstrip (c : ascii) (s : string) : string :=
  match s with
  | EmptyString => EmptyString
  | String a rest =>
      match rstrip c rest with
      | EmptyString => if Ascii.eqb a c then EmptyString else String a EmptyString
      | r => String a r
      end
  end.

(** [s.strip(c)] with a one-character set. *)
Definition strip (c : ascii) (s : string) : string := rstrip c (lstrip c s).

Definition is_space (a : ascii) : bool :=
  let n := nat_of_ascii a in
  (Nat.eqb n 32 || (Nat.leb 9 n && Nat.leb n 13))%bool.

Fixpoint lstrip_space (s : string) : string :=
  match s with
  | EmptyString => EmptyString
  | String a rest => if is_space a then lstrip_space rest else s
  end.

Fixpoint rstrip_space (s : string) : string :=
  match s with
  | EmptyString => EmptyString
  | String a rest =>
      match rstrip_space rest with
      | EmptyString => if is_space a then EmptyString else String a EmptyString
      | r => String a r
      end
  end.

Definition digit (a : ascii) : option Z :=
  let n := nat_of_ascii a in
  if (Nat.leb 48 n && Nat.leb n 57)%bool then Some (Z.of_nat (n - 48)) else None.

Fixpoint digits (acc : Z) (s : string) : option Z :=
  match s with
  | EmptyString => Some acc
  | String a rest =>
      match digit a with
      | Some d => digits (10 * acc + d) rest
      | None => None
      end
  end.

Definition unsigned_literal (s : string) : option Z :=
  match s with
  | EmptyString => None
  | _ => digits 0 s
  end.

(** [int(s)] on a string, base ten: surrounding white space, an optional
    sign, then one or more ASCII digits; anything else is a [ValueError]. *)
Definition int_of_string (s : string) : outcome Z :=
  let body := rstrip_space (lstrip_space s) in
  let r :=
    match body with
    | String "+"%char rest => unsigned_literal rest
    | String "-"%char rest => option_map Z.opp (unsigned_literal rest)
    | _ => unsigned_literal body
    end in
  match r with
  | Some z => Return z
  | None => Raise ValueError
  end.

(** Calling a function declared with [params] positional parameters on
    [args]: the arity is checked before the body runs. *)
Definition call {V A : Type} (params : nat) (body : list V -> outcome A)
    (args : list V) : outcome A :=
  if Nat.eqb (List.length args) params then body args else Raise TypeError.

End Py.

Import Py.

(** ** Python floats *)

(** The smallest exponent of a binary64 value: the least positive one is
    [2^emin]. *)
Definition emin : Z := -1074.

Definition pow2 (e : Z) : Q := 2 ^ e.

Definition last_place (y : Q) : Z :=
  let l := (Z.log2 (Qnum y) - Z.log2 (Zpos (Qden y)))%Z in
  let e0 := (l - 53)%Z in
  let e1 := if Qle_bool (pow2 53) (y / pow2 e0) then (e0 + 1)%Z else e0 in
  Z.max emin e1.

Definition round_half_even (t : Q) : Z :=
  let f := Qfloor t in
  match Qcompare (t - inject_Z f) (1 # 2) with
  | Lt => f
  | Gt => (f + 1)%Z
  | Eq => if Z.even f then f else (f + 1)%Z
  end.

Definition round_pos (y : Q) : Q :=
  let e := last_place y in
  inject_Z (round_half_even (y / pow2 e)) * pow2 e.

Inductive float : Type :=
| Finite (q : Q)
| Inf (negative : bool)
| NaN.

Definition round (q : Q) : float :=
  let r := Qred q in
  match Qnum r with
  | Z0 => Finite 0
  | Zpos _ =>
      let v := round_pos r in
      if Qle_bool (pow2 1024) v then Inf false else Finite (Qred v)
  | Zneg _ =>
      let v := round_pos (- r) in
      if Qle_bool (pow2 1024) v then Inf true else Finite (Qred (- v))
  end.

(** [x + y] on floats. *)
Definition fadd (x y : float) : float :=
  match x, y with
  | Finite a, Finite b => round (a + b)
  | NaN, _ => NaN
  | _, NaN => NaN
  | Inf s, Inf s' => if Bool.eqb s s' then Inf s else NaN
  | Inf s, Finite _ => Inf s
  | Finite _, Inf s => Inf s
  end.

(** [x * y] on floats. *)
Definition fmul (x y : float) : float :=
  match x, y with
  | Finite a, Finite b => round (a * b)
  | NaN, _ => NaN
  | _, NaN => NaN
  | Inf s, Inf s' => Inf (xorb s s')
  | Inf s, Finite b | Finite b, Inf s =>
      match Qnum b with
      | Z0 => NaN
      | Zpos _ => Inf s
      | Zneg _ => Inf (negb s)
      end
  end.

(** [int(x)] on a float: truncation toward zero; an infinity is an
    [OverflowError], a NaN a [ValueError]. *)
Definition int_float (x : float) : outcome Z :=
  match x with
  | Finite q => Return (int q)
  | Inf _ => Raise OverflowError
  | NaN => Raise ValueError
  end.

(** *** The machine's binary64 *)

(** Rocq's primitive floats are the binary64 numbers of the machine; they
    serve to test [round] on concrete operands. *)
Module Hardware.

(** The floats of the model, as opposed to the machine's. *)
Definition model : Type := float.

Import PrimFloat.

(** The rational a primitive float stands for; [None] for an infinity and
    for a NaN. *)
Definition to_Q (f : PrimFloat.float) : option Q :=
  match FloatOps.Prim2SF f with
  | SpecFloat.S754_zero _ => Some 0
  | SpecFloat.S754_finite s m e =>
      Some ((if s then -1 else 1) * inject_Z (Zpos m) * pow2 e)
  | _ => None
  end.

(** A result of the model and a result of the machine are the same
    number. *)
Definition same (x : model) (f : PrimFloat.float) : bool :=
  match x with
  | Finite v =>
      match to_Q f with
      | Some w => Qeq_bool v w
      | None => false
      end
  | Inf s => PrimFloat.eqb f (if s then neg_infinity else infinity)
  | NaN => negb (PrimFloat.eqb f f)
  end.

(** The sum and the product of two finite operands, in the model and on
    the machine. *)
Definition agree (f g : PrimFloat.float) : bool :=
  match to_Q f, to_Q g with
  | Some a, Some b =>
      (same (fadd (Finite a) (Finite b)) (f + g)
       && same (fmul (Finite a) (Finite b)) (f * g))%bool
  | _, _ => true
  end.

Definition samples : list PrimFloat.float :=
  [0x1.999999999999ap-4; 0x1.3333333333333p-2; 0x1.6666666666666p-1;
   0x1.010101010101p-8; 0x1p+0; 0x1.fep+7; 0x1.aaaaaaaa98577p+1;
   0x1.1c37937e08p+53; 0x1.fffffffffffffp+1023; 0x1p+1017;
   0x0.0000000000001p-1022; 0x0.730d67819e8d2p-1022;
   -0x1.999999999999ap-4; -0x1.8p+1; -0x1.fffffffffffffp+1023]%float.

End Hardware.

(** ** The brightness encoder *)

Record MaskLoop : Type := mkMaskLoop {
  whole_num : Z;
  schedule : Z;
  count : float
}.

(** One round of the loop: [count += number], then the test on
    [int(count)], which raises when [count] is no longer finite. *)
Definition convertToMask_body (number : float) (st : MaskLoop)
    : outcome MaskLoop :=
  let count' := fadd (count st) number in
  match int_float count' with
  | Raise e => Raise e
  | Return i =>
      if Z.gtb i (whole_num st) then
        Return {| whole_num := whole_num st + 1;
                  schedule := Z.shiftl (Z.lor (schedule st) 1) 1;
                  count := count' |}
      else
        Return {| whole_num := whole_num st;
                  schedule := Z.shiftl (schedule st) 1;
                  count := count' |}
  end.

Definition convertToMask_loop (number : float) (n : nat) : outcome MaskLoop :=
  for_range_try n (convertToMask_body number)
    {| whole_num := 0; schedule := 0; count := Finite 0 |}.

(** [def convertToMask(number)], as a plain function of its one parameter. *)
Definition convertToMask (number : float) : outcome Z :=
  match convertToMask_loop number 32 with
  | Return st => Return (schedule st)
  | Raise e => Raise e
  end.

Fixpoint popcount_pos (p : positive) : Z :=
  match p with
  | xH => 1
  | xO p' => popcount_pos p'
  | xI p' => 1 + popcount_pos p'
  end.

(** Number of set bits of a mask. *)
Definition popcount (z : Z) : Z :=
  match z with
  | Zpos p => popcount_pos p
  | _ => 0
  end.

(** The first [k] slots the loop wrote: the returned value holds slot [i]
    (counted from 1) at bit [33 - i], below them one cleared bit. *)
Definition prefix (k : nat) (mask : Z) : Z := Z.shiftr mask (33 - Z.of_nat k).


(** ** Data model *)

Open Scope string_scope.

(** A switch of [game.switches]. [last_changed] is [None] until the switch
    changes for the first time. *)
Record Switch : Type := mkSwitch {
  name : string;
  number : Z;
  state : bool;
  last_changed : option Q
}.

Inductive EventType : Type :=
| EventTypeSwitchClosedDebounced
| EventTypeSwitchOpenDebounced.

(** An entry of [game.desktop.key_events]: [{'type': t, 'value': n}]. *)
Record Event : Type := mkEvent {
  ev_type : EventType;
  ev_value : Z
}.

(** An [OSC.OSCMessage]: an address and the arguments appended to it. *)
Record OSCMessage : Type := mkOSCMessage {
  address : string;
  arguments : list Z
}.

(** What [osc.py] hands to [OSCMessage.append]: an int or a list of ints. *)
Inductive Payload : Type :=
| PInt (z : Z)
| PList (l : list Z).

(** Calls into the device layer, in the order they are made. *)
Inductive DriverCall : Type :=
| lamp_enable (lamp : string)
| lamp_disable (lamp : string)
| lamp_schedule (lamp : string) (sched : Z) (cycle_seconds : Z) (now : bool)
| led_color (led : string) (color : Payload)
| PRLED_color (board output brightness : Z)
| coil_pulse (coil : string).

Inductive LogRecord : Type :=
| log_info (msg : string)
| log_warning (fmt arg : string)
| log_debug (fmt : string) (m : OSCMessage).

(** A remote endpoint [(host, port)]. *)
Definition Endpoint : Type := (string * Z)%type.

(** The [game] object as [osc.py] uses it. The lamp, LED and coil
    registries matter by their names only. *)
Record Game : Type := mkGame {
  machine_type : Z;
  switches : list Switch;
  lamps : list string;
  leds : list string;
  coils : list string;
  key_events : list Event;
  driver : list DriverCall;
  logger : list LogRecord
}.

(** The [OSC_Mode] instance. Attributes that [__init__] does not create
    ([clientTuple], [OSC_client], [OSC_message]) are [None] until assigned.
    [network] is the list of datagrams handed to [OSCClient.send], each with
    the endpoint the sending client was connected to. *)
Record OSC_Mode : Type := mkOSC_Mode {
  game : Game;
  serverIP : string;
  serverPort : Z;
  clientPort : Z;
  closed_switches : list string;
  clientIP : option string;
  client_needs_sync : bool;
  do_we_have_a_client : bool;
  client_last_update_time : option Q;
  last_loop_time : Q;
  clientTuple : option Endpoint;
  OSC_client : option Endpoint;
  OSC_message : option OSCMessage;
  network : list (Endpoint * OSCMessage)
}.

(** *** Attribute assignment *)

Definition set_game (g : Game) (self : OSC_Mode) : OSC_Mode :=
  mkOSC_Mode g (serverIP self) (serverPort self) (clientPort self)
    (closed_switches self) (clientIP self) (client_needs_sync self)
    (do_we_have_a_client self) (client_last_update_time self)
    (last_loop_time self) (clientTuple self) (OSC_client self)
    (OSC_message self) (network self).

Definition set_clientIP (v : option string) (self : OSC_Mode) : OSC_Mode :=
  mkOSC_Mode (game self) (serverIP self) (serverPort self) (clientPort self)
    (closed_switches self) v (client_needs_sync self)
    (do_we_have_a_client self) (client_last_update_time self)
    (last_loop_time self) (clientTuple self) (OSC_client self)
    (OSC_message self) (network self).

Definition set_client_needs_sync (v : bool) (self : OSC_Mode) : OSC_Mode :=
  mkOSC_Mode (game self) (serverIP self) (serverPort self) (clientPort self)
    (closed_switches self) (clientIP self) v
    (do_we_have_a_client self) (client_last_update_time self)
    (last_loop_time self) (clientTuple self) (OSC_client self)
    (OSC_message self) (network self).

Definition set_do_we_have_a_client (v : bool) (self : OSC_Mode) : OSC_Mode :=
  mkOSC_Mode (game self) (serverIP self) (serverPort self) (clientPort self)
    (closed_switches self) (clientIP self) (client_needs_sync self)
    v (client_last_update_time self)
    (last_loop_time self) (clientTuple self) (OSC_client self)
    (OSC_message self) (network self).

Definition set_last_loop_time (v : Q) (self : OSC_Mode) : OSC_Mode :=
  mkOSC_Mode (game self) (serverIP self) (serverPort self) (clientPort self)
    (closed_switches self) (clientIP self) (client_needs_sync self)
    (do_we_have_a_client self) (client_last_update_time self)
    v (clientTuple self) (OSC_client self)
    (OSC_message self) (network self).

Definition set_clientTuple (v : option Endpoint) (self : OSC_Mode) : OSC_Mode :=
  mkOSC_Mode (game self) (serverIP self) (serverPort self) (clientPort self)
    (closed_switches self) (clientIP self) (client_needs_sync self)
    (do_we_have_a_client self) (client_last_update_time self)
    (last_loop_time self) v (OSC_client self)
    (OSC_message self) (network self).

Definition set_OSC_client (v : option Endpoint) (self : OSC_Mode) : OSC_Mode :=
  mkOSC_Mode (game self) (serverIP self) (serverPort self) (clientPort self)
    (closed_switches self) (clientIP self) (client_needs_sync self)
    (do_we_have_a_client self) (client_last_update_time self)
    (last_loop_time self) (clientTuple self) v
    (OSC_message self) (network self).

Definition set_OSC_message (v : option OSCMessage) (self : OSC_Mode) : OSC_Mode :=
  mkOSC_Mode (game self) (serverIP self) (serverPort self) (clientPort self)
    (closed_switches self) (clientIP self) (client_needs_sync self)
    (do_we_have_a_client self) (client_last_update_time self)
    (last_loop_time self) (clientTuple self) (OSC_client self)
    v (network self).

Definition set_network (v : list (Endpoint * OSCMessage)) (self : OSC_Mode)
    : OSC_Mode :=
  mkOSC_Mode (game self) (serverIP self) (serverPort self) (clientPort self)
    (closed_switches self) (clientIP self) (client_needs_sync self)
    (do_we_have_a_client self) (client_last_update_time self)
    (last_loop_time self) (clientTuple self) (OSC_client self)
    (OSC_message self) v.

(** [self.game.desktop.key_events.append(e)]. *)
Definition key_events_append (e : Event) (self : OSC_Mode) : OSC_Mode :=
  let g := game self in
  set_game (mkGame (machine_type g) (switches g) (lamps g) (leds g) (coils g)
              (key_events g ++ [e]) (driver g) (logger g)) self.

(** A call into the device layer. *)
Definition driver_append (c : DriverCall) (self : OSC_Mode) : OSC_Mode :=
  let g := game self in
  set_game (mkGame (machine_type g) (switches g) (lamps g) (leds g) (coils g)
              (key_events g) (driver g ++ [c]) (logger g)) self.

(** A call of [self.game.logger]. *)
Definition logger_append (r : LogRecord) (self : OSC_Mode) : OSC_Mode :=
  let g := game self in
  set_game (mkGame (machine_type g) (switches g) (lamps g) (leds g) (coils g)
              (key_events g) (driver g) (logger g ++ [r])) self.

(** *** Registries *)

(** [switchname in self.game.switches]. *)
Definition has_switch (switchname : string) (l : list Switch) : bool :=
  existsb (fun sw => String.eqb (name sw) switchname) l.

(** [self.game.switches[switchname]]. *)
Definition get_switch (switchname : string) (l : list Switch)
    : outcome Switch :=
  match find (fun sw => String.eqb (name sw) switchname) l with
  | Some sw => Return sw
  | None => Raise KeyError
  end.

(** [devicename in registry] for the lamp, LED and coil registries. *)
Definition has_device (devicename : string) (l : list string) : bool :=
  existsb (String.eqb devicename) l.

(** [registry[devicename]] for the lamp, LED and coil registries: the
    device is identified by its name. *)
Definition get_device (devicename : string) (l : list string)
    : outcome string :=
  if has_device devicename l then Return devicename else Raise KeyError.

(** Truth value of [self.clientIP]: [None] and the empty string are false. *)
Definition clientIP_set (ip : option string) : bool :=
  match ip with
  | Some (String _ _) => true
  | _ => false
  end.

(** Truth value of [switch.last_changed]: [None] and zero are false. *)
Definition last_changed_set (t : option Q) : bool :=
  match t with
  | Some q => negb (Qeq_bool q 0)
  | None => false
  end.

(** [OSCMessage.append]: a list is appended element by element. *)
Definition OSCMessage_append (m : OSCMessage) (data : Payload) : OSCMessage :=
  match data with
  | PInt z => mkOSCMessage (address m) (arguments m ++ [z])
  | PList l => mkOSCMessage (address m) (arguments m ++ l)
  end.

(** ** Methods as state transformers that may raise *)

Definition M (A : Type) : Type := OSC_Mode -> outcome A * OSC_Mode.

Definition ret {A : Type} (a : A) : M A := fun self => (Return a, self).

Definition bind {A B : Type} (m : M A) (k : A -> M B) : M B :=
  fun self =>
    match m self with
    | (Return a, self') => k a self'
    | (Raise e, self') => (Raise e, self')
    end.

Definition lift {A : Type} (o : outcome A) : M A := fun self => (o, self).

Definition get : M OSC_Mode := fun self => (Return self, self).

Definition modify (f : OSC_Mode -> OSC_Mode) : M unit :=
  fun self => (Return tt, f self).

Declare Scope py_scope.
Delimit Scope py_scope with py.

Notation "x <- m ;; k" := (bind m (fun x => k))
  (at level 100, m at next level, right associativity) : py_scope.
Notation "m ;; k" := (bind m (fun _ => k))
  (at level 100, right associativity) : py_scope.

Open Scope py_scope.

(** [for x in l: body(x)]. *)
Fixpoint for_each {A : Type} (l : list A) (body : A -> M unit) : M unit :=
  match l with
  | [] => ret tt
  | x :: xs => body x ;; for_each xs body
  end.

(** The state a method leaves and the outcome it ends with. *)
Definition exec {A : Type} (m : M A) (self : OSC_Mode) : OSC_Mode :=
  snd (m self).
Definition result {A : Type} (m : M A) (self : OSC_Mode) : outcome A :=
  fst (m self).

(** ** The methods of [OSC_Mode] *)

(** Arguments of a call to [convertToMask]. *)
Inductive PyVal : Type :=
| VInstance
| VNum (q : Q).

(** [convertToMask] as the class attribute the [def] creates: one declared
    parameter, [number]. *)
Definition convertToMask_params : nat := 1.

Definition convertToMask_def (args : list PyVal) : outcome Z :=
  match args with
  | [VNum number] => convertToMask (Finite number)
  | _ => Raise TypeError
  end.

(** [self.convertToMask(x)]: the bound-method call passes the instance as
    the first positional argument, then [x]. *)
Definition self_convertToMask (x : Q) : outcome Z :=
  call convertToMask_params convertToMask_def [VInstance; VNum x].

Section Methods.

(** [pinproc.decode(machine_type, name)], from the [pinproc] extension. *)
Variable pinproc_decode : Z -> string -> Z.

(** [OSC_Mode.__init__]; [hostname_ip] is what
    [socket.gethostbyname(socket.gethostname())] returns. *)
Definition init (hostname_ip : string) (g : Game) (serverIP_arg : option string)
    (serverPort_arg : Z) (clientIP_arg : option string) (clientPort_arg : Z)
    (closed_switches_arg : list string) : OSC_Mode :=
  {| game := g;
     serverIP := match serverIP_arg with
                 | Some (String a r) => String a r
                 | _ => hostname_ip
                 end;
     serverPort := serverPort_arg;
     clientPort := clientPort_arg;
     closed_switches := closed_switches_arg;
     clientIP := clientIP_arg;
     client_needs_sync := false;
     do_we_have_a_client := false;
     client_last_update_time := None;
     last_loop_time := 1;
     clientTuple := None;
     OSC_client := None;
     OSC_message := None;
     network := [] |}.

Definition setup_OSC_client (addr : Endpoint) : M unit :=
  modify (set_OSC_client (Some addr)) ;;
  modify (set_do_we_have_a_client true).

Definition client_send_OSC_message (category name_ : string) (data : Payload)
    : M unit :=
  let m := OSCMessage_append
             (mkOSCMessage ("/" ++ category ++ "/" ++ name_) []) data in
  modify (set_OSC_message (Some m)) ;;
  modify (logger_append (log_debug "OSC Message: %s" m)) ;;
  self <- get ;;
  match OSC_client self with
  | None => lift (Raise AttributeError)
  | Some peer => modify (set_network (network self ++ [(peer, m)]))
  end.

(** Name resolution shared by [process_switch] and
    [set_initial_closed_switches]. *)
Definition switch_number_of (switchname : string) : M Z :=
  self <- get ;;
  if has_switch switchname (switches (game self)) then
    sw <- lift (get_switch switchname (switches (game self))) ;;
    ret (number sw)
  else
    ret (pinproc_decode (machine_type (game self)) switchname).

Definition process_switch (switchname : string) (data : list Q) : M unit :=
  switch_number <- switch_number_of switchname ;;
  d <- lift (index data 0) ;;
  if Qeq_bool d 1 then
    modify (key_events_append
              (mkEvent EventTypeSwitchClosedDebounced switch_number))
  else
    d' <- lift (index data 0) ;;
    if Qeq_bool d' 0 then
      modify (key_events_append
                (mkEvent EventTypeSwitchOpenDebounced switch_number))
    else ret tt.

Definition process_lamp (lampname : string) (data : list Q) : M unit :=
  self <- get ;;
  if has_device lampname (lamps (game self)) then
    d <- lift (index data 0) ;;
    if ge d 1 then
      lamp <- lift (get_device lampname (lamps (game self))) ;;
      modify (driver_append (lamp_enable lamp))
    else
      d' <- lift (index data 0) ;;
      if Qeq_bool d' 0 then
        lamp <- lift (get_device lampname (lamps (game self))) ;;
        modify (driver_append (lamp_disable lamp))
      else
        lamp <- lift (get_device lampname (lamps (game self))) ;;
        d'' <- lift (index data 0) ;;
        mask <- lift (self_convertToMask d'') ;;
        modify (driver_append (lamp_schedule lamp mask 0 true))
  else
    modify (logger_append
              (log_warning
                 "Received OSC command for lamp %s, but that lamp was not found. Ignoring."
                 lampname)).

(** [int(x*255)] on a payload number: a float product, then truncation. *)
Definition int_times_255 (x : Q) : outcome Z :=
  int_float (fmul (Finite x) (Finite 255)).

Definition process_LED (LED : string) (data : list Q) : M unit :=
  d <- lift (index data 0) ;;
  b <- lift (int_times_255 d) ;;
  let brightness := PList [b] in
  brightness' <-
    (if startswith "+" LED then
       let LEDpart := split "-" (strip "+" LED) in
       d' <- lift (index data 0) ;;
       brightness <- lift (int_times_255 d') ;;
       p0 <- lift (index LEDpart 0) ;;
       board <- lift (int_of_string p0) ;;
       p1 <- lift (index LEDpart 1) ;;
       output <- lift (int_of_string p1) ;;
       modify (driver_append (PRLED_color board output brightness)) ;;
       ret (PInt brightness)
     else
       self <- get ;;
       led <- lift (get_device LED (leds (game self))) ;;
       modify (driver_append (led_color led brightness)) ;;
       ret brightness) ;;
  client_send_OSC_message "led-label" LED brightness'.

Definition process_coil (coilname : string) (data : list Q) : M unit :=
  self <- get ;;
  if has_device coilname (coils (game self)) then
    coil <- lift (get_device coilname (coils (game self))) ;;
    modify (driver_append (coil_pulse coil))
  else ret tt.

(** The binding step of [process_message]. *)
Definition bind_client (client_address : Endpoint) : M unit :=
  self <- get ;;
  if negb (do_we_have_a_client self) then
    let ip := if clientIP_set (clientIP self)
              then match clientIP self with
                   | Some s => s
                   | None => fst client_address
                   end
              else fst client_address in
    (if negb (clientIP_set (clientIP self))
     then modify (set_clientIP (Some (fst client_address)))
     else ret tt) ;;
    modify (set_clientTuple (Some (ip, clientPort self))) ;;
    setup_OSC_client (ip, clientPort self)
  else ret tt.

Definition process_message (addr tags : string) (data : list Q)
    (client_address : Endpoint) : M unit :=
  cat <- lift (index (split "/" addr) 1) ;;
  if String.eqb cat "refresh" then
    modify (set_client_needs_sync true)
  else
    name_ <- lift (index (split "/" addr) 2) ;;
    bind_client client_address ;;
    if String.eqb cat "sw" then process_switch name_ data
    else if String.eqb cat "lamp" then process_lamp name_ data
    else if (String.eqb cat "led" || String.eqb cat "LED")%bool
         then process_LED name_ data
    else if String.eqb cat "coil" then process_coil name_ data
    else ret tt.

(** The [0]/[1] a switch state is sent as. *)
Definition switch_data (sw : Switch) : Payload :=
  PInt (if state sw then 1 else 0).

Definition client_update_all_switches : M unit :=
  self <- get ;;
  for_each (switches (game self))
    (fun switch => client_send_OSC_message "sw" (name switch) (switch_data switch)).

Definition client_update_all : M unit :=
  client_update_all_switches ;;
  modify (set_client_needs_sync false).

(** [set_initial_closed_switches]; [config_values] is the dict
    [procgame.config.values], subscripted without a guard. *)
Definition set_initial_closed_switches (config_values : list (string * string))
    : M unit :=
  pinproc_class <- lift (getitem config_values "pinproc_class") ;;
  if String.eqb pinproc_class "procgame.fakepinproc.FakePinPROC" then
    self <- get ;;
    for_each (closed_switches self)
      (fun switchname =>
         switch_number <- switch_number_of switchname ;;
         modify (key_events_append
                   (mkEvent EventTypeSwitchClosedDebounced switch_number))) ;;
    modify (set_client_needs_sync true)
  else ret tt.

(** One pass of the change-detection loop of [mode_tick] over a switch. *)
Definition tick_switch (switch : Switch) : M unit :=
  if last_changed_set (last_changed switch) then
    self <- get ;;
    match last_changed switch with
    | Some t =>
        if gt t (last_loop_time self) then
          client_send_OSC_message "sw" (name switch) (switch_data switch)
        else ret tt
    | None => ret tt
    end
  else ret tt.

(** [mode_tick]; [time_now] is what [time.time()] returns when the last
    line runs. *)
Definition mode_tick (time_now : Q) : M unit :=
  self <- get ;;
  if do_we_have_a_client self then
    (if client_needs_sync self then client_update_all else ret tt) ;;
    self' <- get ;;
    for_each (switches (game self')) tick_switch ;;
    modify (set_last_loop_time time_now)
  else ret tt.

End Methods.

(** ** Vocabulary for the statements *)

(** The device number a switch name resolves to: the registry entry of that
    name when there is one, [pinproc.decode] of the name otherwise. *)
Definition resolved_number (decode : Z -> string -> Z) (self : OSC_Mode)
    (switchname : string) : Z :=
  match find (fun sw => String.eqb (name sw) switchname)
             (switches (game self)) with
  | Some sw => number sw
  | None => decode (machine_type (game self)) switchname
  end.

(** The message ["/sw/<name>"] carrying a switch state as 0 or 1. *)
Definition sw_message (sw : Switch) : OSCMessage :=
  {| address := "/sw/" ++ name sw;
     arguments := [if state sw then 1%Z else 0%Z] |}.

(** The reply ["/led-label/<LED>"] carrying a brightness. *)
Definition led_label (LED : string) (brightness : Z) : OSCMessage :=
  {| address := "/led-label/" ++ LED; arguments := [brightness] |}.

(** The instance after [m] went out to [peer]: the message is kept in
    [OSC_message], logged at debug level and handed to the socket. *)
Definition after_send (peer : Endpoint) (m : OSCMessage) (self : OSC_Mode)
    : OSC_Mode :=
  let s1 := logger_append (log_debug "OSC Message: %s" m)
              (set_OSC_message (Some m) self) in
  set_network (network s1 ++ [(peer, m)]) s1.

Definition after_sends (peer : Endpoint) (ms : list OSCMessage)
    (self : OSC_Mode) : OSC_Mode :=
  fold_left (fun s m => after_send peer m s) ms self.

(** A switch the change-detection loop reports against tick time [t]. *)
Definition changed_since (t : Q) (sw : Switch) : bool :=
  match last_changed sw with
  | Some c => (last_changed_set (Some c) && gt c t)%bool
  | None => false
  end.

(** The instance after the optional full resync of a tick. *)
Definition after_resync (peer : Endpoint) (self : OSC_Mode) : OSC_Mode :=
  if client_needs_sync self then
    set_client_needs_sync false
      (after_sends peer (map sw_message (switches (game self))) self)
  else self.

(** Where the session is bound. *)
Definition binding (self : OSC_Mode)
    : option string * option Endpoint * option Endpoint * bool :=
  (clientIP self, clientTuple self, OSC_client self, do_we_have_a_client self).

(** What no category handler touches: the binding, the sync flag and the
    tick time. *)
Definition session (self : OSC_Mode)
    : (option string * option Endpoint * option Endpoint * bool) * bool * Q :=
  (binding self, client_needs_sync self, last_loop_time self).

(** The handler a category selects. *)
Definition handler (decode : Z -> string -> Z) (cat name_ : string)
    (data : list Q) : M unit :=
  if String.eqb cat "sw" then process_switch decode name_ data
  else if String.eqb cat "lamp" then process_lamp name_ data
  else if (String.eqb cat "led" || String.eqb cat "LED")%bool
       then process_LED name_ data
  else if String.eqb cat "coil" then process_coil name_ data
  else ret tt.

(** The address the binding step picks: the configured one when there is
    one, the sender's otherwise. *)
Definition bound_host (self : OSC_Mode) (client_address : Endpoint) : string :=
  match clientIP self with
  | Some (String a r) => String a r
  | _ => fst client_address
  end.

(** A message whose category segment is [cat]. *)
Definition category_is (addr cat : string) : Prop :=
  index (split "/" addr) 1 = Return cat.

(** The loop of [convertToMask] with every addition carried out exactly,
    without rounding: the sequence the binary64 loop is compared with. *)
Record ExactLoop : Type := mkExactLoop {
  exact_whole_num : Z;
  exact_schedule : Z;
  exact_count : Q
}.

Definition exact_body (number : Q) (st : ExactLoop) : ExactLoop :=
  let count' := Qplus (exact_count st) number in
  if Z.gtb (int count') (exact_whole_num st) then
    {| exact_whole_num := exact_whole_num st + 1;
       exact_schedule := Z.shiftl (Z.lor (exact_schedule st) 1) 1;
       exact_count := count' |}
  else
    {| exact_whole_num := exact_whole_num st;
       exact_schedule := Z.shiftl (exact_schedule st) 1;
       exact_count := count' |}.

Definition exact_loop (number : Q) (n : nat) : ExactLoop :=
  for_range n (exact_body number)
    {| exact_whole_num := 0; exact_schedule := 0; exact_count := 0 |}.

Definition exact_mask (number : Q) : Z :=
  exact_schedule (exact_loop number 32).

(** What holds of the variables of the exact loop after [k] rounds. *)
Record mask_inv (d : Q) (k : nat) (st : ExactLoop) : Prop := {
  inv_count : exact_count st == inject_Z (Z.of_nat k) * d;
  inv_whole : exact_whole_num st = Qfloor (exact_count st);
  inv_even : exists p, (0 <= p)%Z /\ exact_schedule st = (2 * p)%Z;
  inv_pop : popcount (exact_schedule st) = exact_whole_num st
}.

(** A positive binary64 magnitude: an integer below [2^53] times a power of
    two not below the smallest one. *)
Definition magnitude (b : Q) (m a : Z) : Prop :=
  (0 < m < 2 ^ 53)%Z /\ (emin <= a)%Z /\ b == inject_Z m * pow2 a.

(** A finite binary64 value. *)
Definition double (b : Q) : Prop :=
  b == 0 \/
  (exists m a, magnitude b m a /\ b < pow2 1024) \/
  (exists m a, magnitude (- b) m a /\ - b < pow2 1024).

(** A non-negative number [m * 2^a] whose significand [m] fits [bits] bits,
    with [a] not below the smallest binary64 exponent.  A single-precision
    number, which is what an OSC float argument carries, has 24 such bits;
    a binary64 number in general has 53. *)
Definition significand_within (bits : Z) (d : Q) : Prop :=
  exists m a : Z,
    (0 <= m < 2 ^ bits)%Z /\ (emin <= a)%Z /\ d == inject_Z m * pow2 a.

(** The two attributes [setup_OSC_client] writes go together: a session
    that counts as bound has a connected client. *)
Definition consistent (self : OSC_Mode) : Prop :=
  do_we_have_a_client self = true -> exists peer, OSC_client self = Some peer.

(** ** A small machine used to run the methods on concrete input *)

Definition flipperL : Switch :=
  {| name := "flipperL"; number := 1; state := false; last_changed := None |}.

Definition trough1 : Switch :=
  {| name := "trough1"; number := 2; state := true; last_changed := Some 5 |}.

Definition demo_game : Game :=
  {| machine_type := 1;
     switches := [flipperL; trough1];
     lamps := ["startButton"];
     leds := ["topLeftInsert"];
     coils := ["flipperLMain"];
     key_events := [];
     driver := [];
     logger := [] |}.

(** A stand-in for [pinproc.decode]: the decimal value of the name, [0] when
    it has none. *)
Definition demo_decode (_ : Z) (s : string) : Z :=
  match int_of_string s with
  | Return z => z
  | Raise _ => 0
  end.

(** The instance as [__init__] leaves it, no client address configured. *)
Definition demo_unbound : OSC_Mode :=
  init "192.168.1.2" demo_game None 9000 None 8000 [].

(** The same instance bound to a first client, sync flag clear. *)
Definition demo_bound : OSC_Mode :=
  set_do_we_have_a_client true
    (set_OSC_client (Some ("10.0.0.5", 8000%Z))
       (set_clientTuple (Some ("10.0.0.5", 8000%Z))
          (set_clientIP (Some "10.0.0.5") demo_unbound))).

(** The endpoint [demo_bound] is bound to. *)
Definition first_client : Endpoint := ("10.0.0.5", 8000%Z).



(** The binary64 value nearest to [1/255]. *)
Definition one_255th : Q := 282578800148737 # 72057594037927936.

(** Bound, with a resync pending. *)
Definition demo_bound_pending : OSC_Mode :=
  set_client_needs_sync true demo_bound.

(** ** Vocabulary for the further properties *)

(** Slot [k] (counted from 1, in the order the loop writes them) of a
    returned mask. *)
Definition slot (k : nat) (mask : Z) : bool :=
  Z.testbit mask (33 - Z.of_nat k).

(** [c in s] for a character. *)
Fixpoint has_char (c : ascii) (s : string) : bool :=
  match s with
  | EmptyString => false
  | String a rest => (Ascii.eqb a c || has_char c rest)%bool
  end.

(** What is fixed when the mode is created: its ports, its addresses and
    the device registries of the game. *)
Definition configuration (self : OSC_Mode)
    : string * Z * Z * list string * Z
      * list Switch * list string * list string * list string :=
  (serverIP self, serverPort self, clientPort self, closed_switches self,
   machine_type (game self), switches (game self), lamps (game self),
   leds (game self), coils (game self)).

(** What reaches the mode from outside: a message handed over by the OSC
    server, or a tick of the game loop at clock reading [time_now]. *)
Inductive Stimulus : Type :=
| Message (addr tags : string) (data : list Q) (client_address : Endpoint)
| Tick (time_now : Q).

Definition deliver (decode : Z -> string -> Z) (e : Stimulus) : M unit :=
  match e with
  | Message addr tags data client_address =>
      process_message decode addr tags data client_address
  | Tick time_now => mode_tick time_now
  end.

(** Stimuli delivered one after the other, each method call running to its
    end (or to its exception) before the next begins. *)
Fixpoint run (decode : Z -> string -> Z) (es : list Stimulus)
    (self : OSC_Mode) : OSC_Mode :=
  match es with
  | [] => self
  | e :: es' => run decode es' (exec (deliver decode e) self)
  end.

(** A bound session: the client address, the tuple and the connected client
    agree, and the port is the configured client port. *)
Definition well_bound (self : OSC_Mode) : Prop :=
  do_we_have_a_client self = true ->
  exists ip,
    clientIP self = Some ip /\
    clientTuple self = Some (ip, clientPort self) /\
    OSC_client self = Some (ip, clientPort self).

(** The event [set_initial_closed_switches] queues for a switch name. *)
Definition closed_event (decode : Z -> string -> Z) (self : OSC_Mode)
    (switchname : string) : Event :=
  mkEvent EventTypeSwitchClosedDebounced (resolved_number decode self switchname).

(** A method keeps an observation [f] of the instance when [f] reads the
    same before and after it, whether it returns or raises. *)
Definition keeps {A B : Type} (f : OSC_Mode -> B) (m : M A) : Prop :=
  forall self, f (exec m self) = f self.

(** A switch whose last change, if any, is not later than [t]. *)
Definition settled_by (t : Q) (sw : Switch) : Prop :=
  forall c, last_changed sw = Some c -> c <= t.

(** ** Rounding to binary64 *)

(** *** Powers of two *)

Lemma pow2_pos (e : Z) : 0 < pow2 e.
Proof. apply Qpower_0_lt. reflexivity. Qed.

Lemma pow2_plus (a b : Z) : pow2 (a + b) == pow2 a * pow2 b.
Proof. apply Qpower_plus. discriminate. Qed.

Lemma pow2_inject (z : Z) : (0 <= z)%Z -> inject_Z (2 ^ z) == pow2 z.
Proof. intro H. unfold pow2. rewrite Zpower_Qpower by exact H. reflexivity. Qed.

Lemma pow2_le (a b : Z) : (a <= b)%Z -> pow2 a <= pow2 b.
Proof. intro H. apply Qpower_le_compat_l; [exact H | discriminate]. Qed.

Lemma pow2_lt (a b : Z) : (a < b)%Z -> pow2 a < pow2 b.
Proof. intro H. apply Qpower_lt_compat_l; [exact H | reflexivity]. Qed.

Lemma pow2_lt_inv (a b : Z) : pow2 a < pow2 b -> (a < b)%Z.
Proof. intro H. apply (Qpower_lt_compat_l_inv 2); [exact H | reflexivity]. Qed.

Lemma div_pow2 (y : Q) (a b : Z) :
  y / pow2 (a + b) == y / pow2 a / pow2 b.
Proof.
  rewrite pow2_plus. field.
  split; apply Qnot_eq_sym, Qlt_not_eq, pow2_pos.
Qed.

Lemma mul_pow2_div (m : Q) (a e : Z) :
  m * pow2 a / pow2 e == m * pow2 (a - e).
Proof.
  replace a with ((a - e) + e)%Z at 1 by lia.
  rewrite pow2_plus. field. apply Qnot_eq_sym, Qlt_not_eq, pow2_pos.
Qed.

(** A positive rational is at least two to the power of the difference of
    the binary logarithms of its numerator and denominator, less one. *)
Lemma log2_lower (y : Q) :
  0 < y ->
  pow2 (Z.log2 (Qnum y) - Z.log2 (Zpos (Qden y)) - 1) <= y.
Proof.
  destruct y as [n d]. unfold Qlt. cbn [Qnum Qden]. intro Hn.
  assert (Hn0 : (0 < n)%Z) by lia.
  pose proof (Z.log2_spec n Hn0) as [Hlo _].
  pose proof (Z.log2_spec (Zpos d) ltac:(lia)) as [_ Hhi].
  pose proof (Z.log2_nonneg n) as Hln.
  pose proof (Z.log2_nonneg (Zpos d)) as Hld.
  set (ln := Z.log2 n) in *. set (ld := Z.log2 (Zpos d)) in *.
  replace (ln - ld - 1)%Z with (ln + - (ld + 1))%Z by lia.
  rewrite pow2_plus. unfold pow2 at 2. rewrite Qpower_opp.
  fold (pow2 (ld + 1)).
  rewrite <- (pow2_inject Hln), <- (pow2_inject (z := ld + 1)) by lia.
  apply Qle_shift_div_r.
  - change 0 with (inject_Z 0). rewrite <- Zlt_Qlt.
    apply Z.pow_pos_nonneg; lia.
  - unfold Qle, Qmult, inject_Z. cbn [Qnum Qden].
    unfold Z.succ in Hhi.
    assert (0 < 2 ^ ln)%Z by (apply Z.pow_pos_nonneg; lia).
    rewrite !Z.mul_1_r, Pos.mul_1_r. nia.
Qed.

Lemma last_place_emin (y : Q) : (emin <= last_place y)%Z.
Proof. unfold last_place. apply Z.le_max_l. Qed.

(** Above the subnormal range, the scaled value has its leading bit at
    position 52. *)
Lemma last_place_normal (y : Q) :
  0 < y -> (emin < last_place y)%Z ->
  pow2 52 <= y / pow2 (last_place y).
Proof.
  intros Hy. unfold last_place.
  set (l := (Z.log2 (Qnum y) - Z.log2 (Zpos (Qden y)))%Z).
  destruct (Qle_bool (pow2 53) (y / pow2 (l - 53))) eqn:Htest; intro He.
  - rewrite Z.max_r by lia. apply Qle_bool_iff in Htest.
    rewrite div_pow2.
    apply Qle_shift_div_l; [apply pow2_pos|].
    rewrite <- pow2_plus. exact Htest.
  - rewrite Z.max_r by lia.
    apply Qle_shift_div_l; [apply pow2_pos|].
    rewrite <- pow2_plus.
    replace (52 + (l - 53))%Z with (l - 1)%Z by lia.
    apply log2_lower. exact Hy.
Qed.

(** *** Rounding to an integer *)

Lemma round_half_even_floor (t : Q) :
  (Qfloor t <= round_half_even t <= Qfloor t + 1)%Z.
Proof.
  unfold round_half_even. cbv zeta.
  destruct (Qcompare (t - inject_Z (Qfloor t)) (1 # 2)); [|lia|lia].
  destruct (Z.even (Qfloor t)); lia.
Qed.

Lemma round_half_even_inject (z : Z) : round_half_even (inject_Z z) = z.
Proof.
  unfold round_half_even. cbv zeta. rewrite Qfloor_Z.
  assert (E : Qcompare (inject_Z z - inject_Z z) (1 # 2) = Lt).
  { apply Qlt_alt. assert (E0 : inject_Z z - inject_Z z == 0) by ring.
    rewrite E0. reflexivity. }
  rewrite E. reflexivity.
Qed.

Lemma round_half_even_comp (x y : Q) :
  x == y -> round_half_even x = round_half_even y.
Proof.
  intro E. unfold round_half_even. cbv zeta.
  assert (Hf : Qfloor x = Qfloor y) by (rewrite E; reflexivity).
  assert (Hc : Qcompare (x - inject_Z (Qfloor x)) (1 # 2)
               = Qcompare (y - inject_Z (Qfloor y)) (1 # 2))
    by (rewrite Hf, E; reflexivity).
  rewrite Hc, Hf. reflexivity.
Qed.

Lemma round_half_even_le (t : Q) (n : Z) :
  t <= inject_Z n -> (round_half_even t <= n)%Z.
Proof.
  intro H. pose proof (round_half_even_floor t) as [_ Hup].
  pose proof (Qfloor_resp_le _ _ H) as Hf. rewrite Qfloor_Z in Hf.
  destruct (Z.eq_dec (Qfloor t) n) as [E|E]; [|lia].
  assert (Et : t == inject_Z n).
  { apply Qle_antisym; [exact H|]. rewrite <- E. apply Qfloor_le. }
  rewrite (round_half_even_comp Et), round_half_even_inject. lia.
Qed.

Lemma round_half_even_ge (t : Q) (n : Z) :
  inject_Z n <= t -> (n <= round_half_even t)%Z.
Proof.
  intro H. pose proof (round_half_even_floor t) as [Hlo _].
  pose proof (Qfloor_resp_le _ _ H) as Hf. rewrite Qfloor_Z in Hf. lia.
Qed.


(** *** Rounding against binary64 values *)


Lemma magnitude_pos (b : Q) (m a : Z) : magnitude b m a -> 0 < b.
Proof.
  intros (Hm & _ & Hb). rewrite Hb.
  apply Qmult_lt_0_compat; [|apply pow2_pos].
  change 0 with (inject_Z 0). rewrite <- Zlt_Qlt. lia.
Qed.

Lemma magnitude_scaled (b : Q) (m a e : Z) :
  magnitude b m a -> (e <= a)%Z ->
  b / pow2 e == inject_Z (m * 2 ^ (a - e)).
Proof.
  intros (_ & _ & Hb) He. rewrite Hb, mul_pow2_div.
  rewrite inject_Z_mult, pow2_inject by lia. reflexivity.
Qed.

Lemma magnitude_below (b : Q) (m a e : Z) :
  magnitude b m a -> (a < e)%Z -> b / pow2 e < pow2 52.
Proof.
  intros (Hm & _ & Hb) He. rewrite Hb, mul_pow2_div.
  apply Qle_lt_trans with (inject_Z m * pow2 (-1)).
  - apply Qmult_le_l.
    + change 0 with (inject_Z 0). rewrite <- Zlt_Qlt. lia.
    + apply pow2_le. lia.
  - assert (E : pow2 52 == inject_Z (2 ^ 53) * pow2 (-1)) by reflexivity.
    rewrite E. apply Qmult_lt_r; [apply pow2_pos|].
    rewrite <- Zlt_Qlt. lia.
Qed.

Lemma div_pow2_le (x y : Q) (e : Z) : x <= y -> x / pow2 e <= y / pow2 e.
Proof.
  intro H. apply Qmult_le_compat_r; [exact H|].
  apply Qlt_le_weak, Qinv_lt_0_compat, pow2_pos.
Qed.

Lemma back_pow2 (m a e : Z) (b : Q) :
  magnitude b m a -> (e <= a)%Z ->
  inject_Z (m * 2 ^ (a - e)) * pow2 e == b.
Proof.
  intros Hmag He. rewrite <- (magnitude_scaled Hmag He).
  field. apply Qnot_eq_sym, Qlt_not_eq, pow2_pos.
Qed.

Lemma round_pos_le (y b : Q) (m a : Z) :
  0 < y -> magnitude b m a -> y <= b -> round_pos y <= b.
Proof.
  intros Hy Hmag Hle. unfold round_pos.
  destruct (Z_le_gt_dec (last_place y) a) as [He|He].
  - rewrite <- (back_pow2 Hmag He).
    apply Qmult_le_compat_r; [|apply Qlt_le_weak, pow2_pos].
    rewrite <- Zle_Qle. apply round_half_even_le.
    rewrite <- (magnitude_scaled Hmag He). apply div_pow2_le. exact Hle.
  - exfalso.
    assert (Hn : (emin < last_place y)%Z) by (destruct Hmag as (_ & Ha & _); lia).
    pose proof (last_place_normal Hy Hn) as Hlo.
    pose proof (@magnitude_below b m a (last_place y) Hmag ltac:(lia)) as Hhi.
    pose proof (div_pow2_le (last_place y) Hle) as Hmid.
    apply (Qlt_irrefl (pow2 52)).
    eapply Qle_lt_trans; [exact Hlo|].
    eapply Qle_lt_trans; [exact Hmid | exact Hhi].
Qed.

Lemma round_pos_ge (y b : Q) (m a : Z) :
  0 < y -> magnitude b m a -> b <= y -> b <= round_pos y.
Proof.
  intros Hy Hmag Hle. unfold round_pos.
  destruct (Z_le_gt_dec (last_place y) a) as [He|He].
  - rewrite <- (back_pow2 Hmag He).
    apply Qmult_le_compat_r; [|apply Qlt_le_weak, pow2_pos].
    rewrite <- Zle_Qle. apply round_half_even_ge.
    rewrite <- (magnitude_scaled Hmag He). apply div_pow2_le. exact Hle.
  - assert (Hn : (emin < last_place y)%Z) by (destruct Hmag as (_ & Ha & _); lia).
    pose proof (last_place_normal Hy Hn) as Hlo.
    assert (Hr : (2 ^ 52 <= round_half_even (y / pow2 (last_place y)))%Z).
    { apply round_half_even_ge. rewrite pow2_inject by lia. exact Hlo. }
    destruct Hmag as (Hm & Ha & Hb). rewrite Hb.
    apply Qle_trans with (inject_Z (2 ^ 52) * pow2 (last_place y)).
    + apply Qle_trans with (inject_Z (2 ^ 53) * pow2 a).
      * apply Qmult_le_compat_r; [|apply Qlt_le_weak, pow2_pos].
        rewrite <- Zle_Qle. lia.
      * rewrite !pow2_inject, <- !pow2_plus by lia. apply pow2_le. lia.
    + apply Qmult_le_compat_r; [|apply Qlt_le_weak, pow2_pos].
      rewrite <- Zle_Qle. exact Hr.
Qed.

Lemma round_pos_nonneg (y : Q) : 0 < y -> 0 <= round_pos y.
Proof.
  intro Hy. unfold round_pos.
  apply Qmult_le_0_compat; [|apply Qlt_le_weak, pow2_pos].
  change 0 with (inject_Z 0). rewrite <- Zle_Qle.
  apply round_half_even_ge. change (inject_Z 0) with 0.
  apply Qlt_le_weak. apply Qlt_shift_div_l; [apply pow2_pos|].
  rewrite Qmult_0_l. exact Hy.
Qed.



Lemma Qnum_sign (r : Q) :
  match Qnum r with
  | Z0 => r == 0
  | Zpos _ => 0 < r
  | Zneg _ => r < 0
  end.
Proof.
  destruct r as [n d]. cbn [Qnum].
  destruct n; unfold Qeq, Qlt; cbn [Qnum Qden]; lia.
Qed.

Lemma double_cases (b : Q) :
  double b ->
  (b <= 0 \/ exists m a, magnitude b m a /\ b < pow2 1024) /\
  (0 <= b \/ exists m a, magnitude (- b) m a /\ - b < pow2 1024).
Proof.
  intros [H0 | [(m & a & Hm & Hb) | (m & a & Hm & Hb)]].
  - split; left; rewrite H0; apply Qle_refl.
  - split; [right; exists m, a; auto|].
    left. apply Qlt_le_weak. exact (magnitude_pos Hm).
  - split; [|right; exists m, a; auto].
    left. pose proof (magnitude_pos Hm). lra.
Qed.

(** Rounding never crosses a binary64 value, and a sum or product that
    lies between two finite ones does not overflow. *)
Lemma round_between (lo hi y : Q) :
  double lo -> double hi -> lo <= y -> y <= hi ->
  exists v, round y = Finite v /\ lo <= v /\ v <= hi.
Proof.
  intros Hlo Hhi Hly Hyh.
  destruct (double_cases Hlo) as [Hlo1 Hlo2].
  destruct (double_cases Hhi) as [Hhi1 Hhi2].
  unfold round. cbv zeta.
  pose proof (Qred_correct y) as Er. pose proof (Qnum_sign (Qred y)) as Hs.
  destruct (Qnum (Qred y)).
  - exists 0. split; [reflexivity|]. rewrite Er in Hs. lra.
  - assert (Hy : 0 < y) by (rewrite <- Er; exact Hs).
    destruct Hhi1 as [Hneg | (m & a & Hm & Hb)]; [lra|].
    assert (Hup : round_pos (Qred y) <= hi).
    { apply round_pos_le with (m := m) (a := a);
        [exact Hs | exact Hm | rewrite Er; exact Hyh]. }
    assert (Hov : Qle_bool (pow2 1024) (round_pos (Qred y)) = false).
    { destruct (Qle_bool (pow2 1024) (round_pos (Qred y))) eqn:E;
        [|reflexivity].
      apply Qle_bool_iff in E. lra. }
    rewrite Hov. exists (Qred (round_pos (Qred y))).
    split; [reflexivity|]. rewrite Qred_correct. split; [|exact Hup].
    destruct Hlo1 as [Hneg | (m' & a' & Hm' & _)].
    + pose proof (round_pos_nonneg Hs). lra.
    + apply round_pos_ge with (m := m') (a := a');
        [exact Hs | exact Hm' | rewrite Er; exact Hly].
  - assert (Hy : y < 0) by (rewrite <- Er; exact Hs).
    assert (Hs' : 0 < - Qred y) by lra.
    destruct Hlo2 as [Hpos | (m & a & Hm & Hb)]; [lra|].
    assert (Hup : round_pos (- Qred y) <= - lo).
    { apply round_pos_le with (m := m) (a := a);
        [exact Hs' | exact Hm | rewrite Er; lra]. }
    assert (Hov : Qle_bool (pow2 1024) (round_pos (- Qred y)) = false).
    { destruct (Qle_bool (pow2 1024) (round_pos (- Qred y))) eqn:E;
        [|reflexivity].
      apply Qle_bool_iff in E. lra. }
    rewrite Hov. exists (Qred (- round_pos (- Qred y))).
    split; [reflexivity|]. rewrite Qred_correct. split; [lra|].
    destruct Hhi2 as [Hpos | (m' & a' & Hm' & _)].
    + pose proof (round_pos_nonneg Hs'). lra.
    + assert (Hge : - hi <= round_pos (- Qred y)).
      { apply round_pos_ge with (m := m') (a := a');
          [exact Hs' | exact Hm' | rewrite Er; lra]. }
      lra.
Qed.

(** A binary64 value rounds to itself. *)
Lemma round_double (b : Q) :
  double b -> exists v, round b = Finite v /\ v == b.
Proof.
  intro Hb.
  destruct (@round_between b b b Hb Hb (Qle_refl b) (Qle_refl b))
    as (v & Hr & H1 & H2).
  exists v. split; [exact Hr | apply Qle_antisym; assumption].
Qed.

(** Integers up to [2^53] and their halvings are binary64 values. *)
Lemma double_scaled (m a : Z) :
  (Z.abs m < 2 ^ 53)%Z -> (emin <= a)%Z ->
  Qabs (inject_Z m * pow2 a) < pow2 1024 ->
  double (inject_Z m * pow2 a).
Proof.
  intros Hm Ha Hb. destruct (Z.lt_trichotomy m 0) as [Hneg | [H0 | Hpos]].
  - right. right. exists (- m)%Z, a.
    assert (E : - (inject_Z m * pow2 a) == inject_Z (- m) * pow2 a)
      by (rewrite inject_Z_opp; ring).
    assert (Hn : inject_Z m * pow2 a <= 0).
    { rewrite <- (Qmult_0_l (pow2 a)).
      apply Qmult_le_compat_r; [|apply Qlt_le_weak, pow2_pos].
      change 0 with (inject_Z 0). rewrite <- Zle_Qle. lia. }
    split.
    + unfold magnitude. split; [lia|]. split; [exact Ha | exact E].
    + rewrite Qabs_neg in Hb by exact Hn. exact Hb.
  - left. subst m. ring.
  - right. left. exists m, a.
    assert (Hn : 0 <= inject_Z m * pow2 a).
    { apply Qmult_le_0_compat; [|apply Qlt_le_weak, pow2_pos].
      change 0 with (inject_Z 0). rewrite <- Zle_Qle. lia. }
    split.
    + unfold magnitude. split; [lia|]. split; [exact Ha | reflexivity].
    + rewrite Qabs_pos in Hb by exact Hn. exact Hb.
Qed.

Lemma double_comp (x y : Q) : x == y -> double x -> double y.
Proof.
  intros E [H0 | [(m & a & (Hm & Ha & Hb) & Hlt) | (m & a & (Hm & Ha & Hb) & Hlt)]].
  - left. rewrite <- E. exact H0.
  - right. left. exists m, a. unfold magnitude.
    split; [split; [exact Hm|]; split; [exact Ha|] |]; rewrite <- E; assumption.
  - right. right. exists m, a. unfold magnitude.
    split; [split; [exact Hm|]; split; [exact Ha|] |]; rewrite <- E; assumption.
Qed.

Lemma double_inject (z : Z) : (Z.abs z < 2 ^ 53)%Z -> double (inject_Z z).
Proof.
  intro Hz. apply double_comp with (inject_Z z * pow2 0).
  - change (pow2 0) with 1. ring.
  - apply double_scaled; [exact Hz | discriminate |].
    change (pow2 0) with 1. rewrite Qmult_1_r.
    apply Qlt_trans with (inject_Z (2 ^ 53)).
    + change (Qabs (inject_Z z)) with (inject_Z (Z.abs z)).
      rewrite <- Zlt_Qlt. exact Hz.
    + reflexivity.
Qed.

(** On the sample operands, every sum and product of the model is the one
    the machine computes. *)
Lemma round_agrees_with_hardware :
  forallb (fun f => forallb (Hardware.agree f) Hardware.samples)
    Hardware.samples = true.
Proof. vm_compute. reflexivity. Qed.

(** A result of [2^1024] or more is an infinity. *)
Lemma round_overflow (y : Q) : pow2 1024 <= y -> round y = Inf false.
Proof.
  intro Hy.
  assert (Hpos : 0 < y).
  { apply Qlt_le_trans with (pow2 1024); [apply pow2_pos | exact Hy]. }
  unfold round. cbv zeta.
  pose proof (Qred_correct y) as Er. pose proof (Qnum_sign (Qred y)) as Hs.
  destruct (Qnum (Qred y)).
  - rewrite Er in Hs. lra.
  - assert (Hmag : magnitude (pow2 1024) 1 1024).
    { split; [split; [lia | reflexivity]|].
      split; [discriminate | ring]. }
    assert (Hge : pow2 1024 <= round_pos (Qred y)).
    { apply round_pos_ge with (m := 1%Z) (a := 1024%Z);
        [exact Hs | exact Hmag | rewrite Er; exact Hy]. }
    apply Qle_bool_iff in Hge. rewrite Hge. reflexivity.
  - rewrite Er in Hs. lra.
Qed.

(** Rounding does not fall below a binary64 value the sum has reached. *)
Lemma round_lower (lo y : Q) (m a : Z) :
  magnitude lo m a -> lo <= y ->
  round y = Inf false \/ exists v, round y = Finite v /\ lo <= v.
Proof.
  intros Hmag Hy.
  assert (Hpos : 0 < y).
  { apply Qlt_le_trans with lo; [exact (magnitude_pos Hmag) | exact Hy]. }
  unfold round. cbv zeta.
  pose proof (Qred_correct y) as Er. pose proof (Qnum_sign (Qred y)) as Hs.
  destruct (Qnum (Qred y)).
  - rewrite Er in Hs. lra.
  - destruct (Qle_bool (pow2 1024) (round_pos (Qred y))); [left; reflexivity|].
    right. exists (Qred (round_pos (Qred y))). split; [reflexivity|].
    rewrite Qred_correct.
    apply round_pos_ge with (m := m) (a := a);
      [exact Hs | exact Hmag | rewrite Er; exact Hy].
  - rewrite Er in Hs. lra.
Qed.

(** ** The brightness encoder: properties *)

Section ForRange.

Variable S : Type.
Variable body : S -> S.

Lemma for_range_succ_r (n : nat) (st : S) :
  for_range (Datatypes.S n) body st = body (for_range n body st).
Proof.
  revert st. induction n as [|n IH]; intro st.
  - reflexivity.
  - change (for_range (Datatypes.S (Datatypes.S n)) body st)
      with (for_range (Datatypes.S n) body (body st)).
    rewrite IH. reflexivity.
Qed.

Lemma for_range_add (a b : nat) (st : S) :
  for_range (a + b) body st = for_range b body (for_range a body st).
Proof.
  revert st. induction a as [|a IH]; intro st; simpl.
  - reflexivity.
  - apply IH.
Qed.

End ForRange.

Lemma int_nonneg_floor (q : Q) : 0 <= q -> int q = Qfloor q.
Proof.
  destruct q as [n d]. unfold Qle, int, Qfloor. simpl. intro H.
  apply Z.quot_div_nonneg; lia.
Qed.

Lemma Qfloor_lt_inject (x : Q) (z : Z) : x < inject_Z z -> (Qfloor x < z)%Z.
Proof.
  intro H. rewrite Zlt_Qlt.
  eapply Qle_lt_trans; [apply Qfloor_le | exact H].
Qed.

Lemma Qfloor_ge_inject (x : Q) (z : Z) : inject_Z z <= x -> (z <= Qfloor x)%Z.
Proof.
  intro H. rewrite <- (Qfloor_Z z). apply Qfloor_resp_le. exact H.
Qed.

(** Adding a duty cycle of at most one moves the floor by at most one. *)
Lemma Qfloor_step (c d : Q) :
  0 <= d -> d <= 1 ->
  (Qfloor c <= Qfloor (c + d) <= Qfloor c + 1)%Z.
Proof.
  intros H0 H1. split.
  - apply Qfloor_resp_le.
    rewrite <- (Qplus_0_r c) at 1. apply Qplus_le_r. exact H0.
  - assert (Hlt : (Qfloor (c + d) < Qfloor c + 1 + 1)%Z).
    { apply Qfloor_lt_inject.
      rewrite inject_Z_plus.
      apply Qle_lt_trans with (c + 1).
      - apply Qplus_le_r. exact H1.
      - apply Qplus_lt_le_compat; [apply Qlt_floor | apply Qle_refl]. }
    lia.
Qed.

Lemma popcount_pos_pos (p : positive) : (0 < popcount_pos p)%Z.
Proof. induction p; cbn [popcount_pos]; lia. Qed.

Lemma popcount_nonneg (z : Z) : (0 <= popcount z)%Z.
Proof. destruct z; cbn [popcount]; try lia. pose proof (popcount_pos_pos p). lia. Qed.

Lemma popcount_double (z : Z) : popcount (2 * z) = popcount z.
Proof. destruct z; reflexivity. Qed.

Lemma popcount_double_succ (z : Z) :
  (0 <= z)%Z -> popcount (2 * z + 1) = (popcount z + 1)%Z.
Proof.
  destruct z as [|p|p]; intros; [reflexivity | | lia].
  change (popcount (2 * Z.pos p + 1)) with (1 + popcount_pos p)%Z.
  cbn [popcount]. lia.
Qed.


Lemma lor_double_one (p : Z) : (0 <= p)%Z -> Z.lor (2 * p) 1 = (2 * p + 1)%Z.
Proof. destruct p; simpl; intros; try reflexivity; lia. Qed.

Lemma mask_inv_loop (d : Q) (k : nat) :
  0 <= d -> d <= 1 -> mask_inv d k (exact_loop d k).
Proof.
  intros H0 H1. induction k as [|k IH].
  - constructor; unfold exact_loop;
      cbn [for_range exact_count exact_whole_num exact_schedule Z.of_nat].
    + change (inject_Z 0) with 0. rewrite Qmult_0_l. reflexivity.
    + reflexivity.
    + exists 0%Z. split; [lia | reflexivity].
    + reflexivity.
  - unfold exact_loop in *. rewrite for_range_succ_r.
    set (st := for_range k (exact_body d) _) in *.
    destruct IH as [Hc Hw [p [Hp Hs]] Hpop].
    assert (Hcnt : exact_count st + d == inject_Z (Z.of_nat (Datatypes.S k)) * d).
    { rewrite Hc, Nat2Z.inj_succ. unfold Z.succ. rewrite inject_Z_plus. ring. }
    assert (Hnn : 0 <= exact_count st + d).
    { rewrite Hcnt. apply Qmult_le_0_compat; [|exact H0].
      change 0 with (inject_Z 0). rewrite <- Zle_Qle. lia. }
    pose proof (Qfloor_step (exact_count st) H0 H1) as Hstep.
    clearbody st. unfold exact_body.
    rewrite (int_nonneg_floor Hnn).
    destruct (Z.gtb_spec (Qfloor (exact_count st + d)) (exact_whole_num st)) as [Hgt|Hle];
      constructor; cbn [exact_count exact_whole_num exact_schedule]; try exact Hcnt.
    + lia.
    + exists (2 * p + 1)%Z. split; [lia|].
      rewrite Hs, lor_double_one, Z.shiftl_mul_pow2 by lia. lia.
    + rewrite Hs, lor_double_one, Z.shiftl_mul_pow2 by lia.
      change (2 ^ 1)%Z with 2%Z. rewrite Z.mul_comm, popcount_double.
      rewrite popcount_double_succ by lia.
      rewrite <- popcount_double, <- Hs, Hpop. reflexivity.
    + lia.
    + exists (2 * p)%Z. split; [lia|].
      rewrite Hs, Z.shiftl_mul_pow2 by lia. lia.
    + rewrite Z.shiftl_mul_pow2 by lia.
      change (2 ^ 1)%Z with 2%Z. rewrite Z.mul_comm, popcount_double.
      exact Hpop.
Qed.

(** Later rounds leave the slots already written where they are: [n] more
    rounds push the schedule [n] places up. *)
Lemma schedule_for_range_shiftr (d : Q) (n : nat) (st : ExactLoop) :
  Z.shiftr (exact_schedule (for_range n (exact_body d) st)) (Z.of_nat n + 1)
  = Z.shiftr (exact_schedule st) 1.
Proof.
  revert st. induction n as [|n IH]; intro st.
  - reflexivity.
  - cbn [for_range].
    replace (Z.of_nat (Datatypes.S n) + 1)%Z with ((Z.of_nat n + 1) + 1)%Z by lia.
    rewrite <- Z.shiftr_shiftr by lia. rewrite IH.
    unfold exact_body.
    destruct (Z.gtb (int (exact_count st + d)) (exact_whole_num st)); cbn [exact_schedule];
      rewrite Z.shiftr_shiftl_l by lia; change (1 - 1)%Z with 0%Z;
      rewrite Z.shiftl_0_r.
    + rewrite Z.shiftr_lor. change (Z.shiftr 1 1) with 0%Z.
      apply Z.lor_0_r.
    + reflexivity.
Qed.

Lemma prefix_exact_mask (d : Q) (k : nat) :
  (k <= 32)%nat ->
  prefix k (exact_mask d) = Z.shiftr (exact_schedule (exact_loop d k)) 1.
Proof.
  intro Hk. unfold prefix, exact_mask, exact_loop.
  replace 32%nat with (k + (32 - k))%nat at 1 by lia.
  rewrite for_range_add.
  replace (33 - Z.of_nat k)%Z with (Z.of_nat (32 - k) + 1)%Z by lia.
  apply schedule_for_range_shiftr.
Qed.




(** *** The loop on binary64 numbers *)

Lemma for_range_try_succ_r (S : Type) (body : S -> outcome S) (n : nat)
    (st : S) :
  for_range_try (Datatypes.S n) body st
  = match for_range_try n body st with
    | Return st' => body st'
    | Raise e => Raise e
    end.
Proof.
  revert st. induction n as [|n IH]; intro st.
  - cbn [for_range_try]. destruct (body st); reflexivity.
  - specialize (IH) . cbn [for_range_try] in *.
    destruct (body st) as [st'|e]; [exact (IH st') | reflexivity].
Qed.

Lemma for_range_try_step (S : Type) (body : S -> outcome S) (n : nat)
    (st st' : S) :
  body st = Return st' ->
  for_range_try (Datatypes.S n) body st = for_range_try n body st'.
Proof. intro H. cbn [for_range_try]. rewrite H. reflexivity. Qed.

Lemma for_range_try_raise (S : Type) (body : S -> outcome S) (n : nat)
    (st : S) (e : PyExc) :
  body st = Raise e ->
  for_range_try (Datatypes.S n) body st = Raise e.
Proof. intro H. cbn [for_range_try]. rewrite H. reflexivity. Qed.

(** A round whose sum rounds to a finite value. *)
Lemma convertToMask_body_finite (number c v : Q) (st : MaskLoop) :
  count st = Finite c -> round (c + number) = Finite v ->
  convertToMask_body (Finite number) st
  = Return (if Z.gtb (int v) (whole_num st)
            then {| whole_num := whole_num st + 1;
                    schedule := Z.shiftl (Z.lor (schedule st) 1) 1;
                    count := Finite v |}
            else {| whole_num := whole_num st;
                    schedule := Z.shiftl (schedule st) 1;
                    count := Finite v |}).
Proof.
  intros Hc Hr. unfold convertToMask_body. cbv zeta.
  rewrite Hc. cbn [fadd]. rewrite Hr. cbn [int_float].
  destruct (Z.gtb (int v) (whole_num st)); reflexivity.
Qed.

(** A round whose sum is no longer finite. *)
Lemma convertToMask_body_overflow (number c : Q) (s : bool) (st : MaskLoop) :
  count st = Finite c -> round (c + number) = Inf s ->
  convertToMask_body (Finite number) st = Raise OverflowError.
Proof.
  intros Hc Hr. unfold convertToMask_body. cbv zeta.
  rewrite Hc. cbn [fadd]. rewrite Hr. reflexivity.
Qed.

Lemma inject_Z_nonneg (z : Z) : (0 <= z)%Z -> 0 <= inject_Z z.
Proof. intro H. change 0 with (inject_Z 0). rewrite <- Zle_Qle. exact H. Qed.

Lemma scale_le_one (x d : Q) : 0 <= x -> d <= 1 -> x * d <= x.
Proof.
  intros Hx Hd. rewrite <- (Qmult_1_l x) at 2. rewrite (Qmult_comm x).
  apply Qmult_le_compat_r; assumption.
Qed.

(** The multiples the loop adds up are binary64 values when the
    significand of the duty cycle leaves five bits to spare. *)
Lemma significand_multiple (d : Q) (k : Z) :
  significand_within 48 d -> d <= 1 -> (0 <= k <= 32)%Z ->
  double (inject_Z k * d).
Proof.
  intros (m & a & Hm & Ha & Hd) H1 Hk.
  assert (E : inject_Z (k * m) * pow2 a == inject_Z k * d).
  { rewrite Hd, inject_Z_mult. ring. }
  apply double_comp with (inject_Z (k * m) * pow2 a); [exact E|].
  assert (P48 : (2 ^ 48 = 281474976710656)%Z) by reflexivity.
  assert (P53 : (2 ^ 53 = 9007199254740992)%Z) by reflexivity.
  apply double_scaled; [nia | exact Ha |].
  rewrite E.
  assert (Hk0 : 0 <= inject_Z k) by (apply inject_Z_nonneg; lia).
  assert (Hd0 : 0 <= d).
  { rewrite Hd. apply Qmult_le_0_compat;
      [apply inject_Z_nonneg; lia | apply Qlt_le_weak, pow2_pos]. }
  rewrite Qabs_pos by (apply Qmult_le_0_compat; assumption).
  apply Qle_lt_trans with (inject_Z 32).
  - apply Qle_trans with (inject_Z k); [apply scale_le_one; assumption|].
    rewrite <- Zle_Qle. lia.
  - reflexivity.
Qed.

(** On such a duty cycle no addition of the loop rounds: the binary64 loop
    goes through the states of the exact one. *)
Lemma convertToMask_loop_exact (d : Q) (k : nat) :
  significand_within 48 d -> 0 <= d -> d <= 1 -> (k <= 32)%nat ->
  exists c,
    convertToMask_loop (Finite d) k
    = Return {| whole_num := exact_whole_num (exact_loop d k);
                schedule := exact_schedule (exact_loop d k);
                count := Finite c |} /\
    c == exact_count (exact_loop d k).
Proof.
  intros Hs H0 H1. induction k as [|k IH]; intro Hk.
  - exists 0. split; reflexivity.
  - destruct (IH ltac:(lia)) as (c & Hl & Hc).
    destruct (mask_inv_loop k H0 H1) as [Hcnt Hw _ _].
    assert (Hsum : c + d == inject_Z (Z.of_nat (Datatypes.S k)) * d).
    { rewrite Hc, Hcnt, Nat2Z.inj_succ. unfold Z.succ.
      rewrite inject_Z_plus. ring. }
    assert (Hdbl : double (c + d)).
    { apply double_comp with (inject_Z (Z.of_nat (Datatypes.S k)) * d);
        [symmetry; exact Hsum|].
      apply significand_multiple; [exact Hs | exact H1 | lia]. }
    destruct (round_double Hdbl) as (v & Hr & Hv).
    exists v. unfold convertToMask_loop, exact_loop in *.
    rewrite for_range_try_succ_r, Hl, for_range_succ_r.
    set (st := for_range k (exact_body d) _) in *. clearbody st.
    rewrite (@convertToMask_body_finite d c v
               {| whole_num := exact_whole_num st;
                  schedule := exact_schedule st;
                  count := Finite c |} eq_refl Hr).
    cbn [whole_num schedule count]. unfold exact_body. cbv zeta.
    assert (Hnn : 0 <= exact_count st + d).
    { rewrite <- Hc, Hsum. apply Qmult_le_0_compat; [|exact H0].
      apply inject_Z_nonneg. lia. }
    assert (Hvnn : 0 <= v) by (rewrite Hv, Hc; exact Hnn).
    assert (Hint : int v = int (exact_count st + d)).
    { rewrite (int_nonneg_floor Hvnn), (int_nonneg_floor Hnn).
      rewrite Hv, Hc. reflexivity. }
    rewrite Hint.
    destruct (Z.gtb (int (exact_count st + d)) (exact_whole_num st));
      cbn [exact_whole_num exact_schedule exact_count];
      (split; [reflexivity | rewrite Hv, Hc; reflexivity]).
Qed.

Lemma convertToMask_exact (d : Q) :
  significand_within 48 d -> 0 <= d -> d <= 1 ->
  convertToMask (Finite d) = Return (exact_mask d).
Proof.
  intros Hs H0 H1.
  destruct (@convertToMask_loop_exact d 32 Hs H0 H1 (le_n 32)) as (c & Hl & _).
  unfold convertToMask, exact_mask. rewrite Hl. reflexivity.
Qed.



Lemma significand_within_half : significand_within 48 (1 # 2).
Proof.
  exists 1%Z, (-1)%Z. split; [split; [lia | reflexivity]|].
  split; [discriminate | reflexivity].
Qed.




(** ** Running the methods *)

Ltac run :=
  unfold bind, ret, lift, get, modify; cbn beta iota.

Lemma has_switch_find (switchname : string) (l : list Switch) :
  has_switch switchname l = true ->
  exists sw, find (fun sw => String.eqb (name sw) switchname) l = Some sw.
Proof.
  unfold has_switch. induction l as [|a l IH]; cbn [existsb find].
  - discriminate.
  - destruct (String.eqb (name a) switchname); cbn [orb].
    + intros _. exists a. reflexivity.
    + exact IH.
Qed.

Lemma has_switch_find_none (switchname : string) (l : list Switch) :
  has_switch switchname l = false ->
  find (fun sw => String.eqb (name sw) switchname) l = None.
Proof.
  unfold has_switch. induction l as [|a l IH]; cbn [existsb find].
  - reflexivity.
  - destruct (String.eqb (name a) switchname); cbn [orb].
    + discriminate.
    + exact IH.
Qed.

Section Properties.

Variable pinproc_decode : Z -> string -> Z.

Lemma switch_number_of_resolved (switchname : string) (self : OSC_Mode) :
  switch_number_of pinproc_decode switchname self
  = (Return (resolved_number pinproc_decode self switchname), self).
Proof.
  unfold switch_number_of, resolved_number, get_switch. run.
  destruct (has_switch switchname (switches (game self))) eqn:Hin.
  - destruct (has_switch_find _ _ Hin) as [sw Hsw]. rewrite Hsw. reflexivity.
  - rewrite (has_switch_find_none _ _ Hin). reflexivity.
Qed.

Lemma process_switch_cons (self : OSC_Mode) (switchname : string)
    (d : Q) (rest : list Q) :
  process_switch pinproc_decode switchname (d :: rest) self
  = let n := resolved_number pinproc_decode self switchname in
    if Qeq_bool d 1 then
      (Return tt,
       key_events_append (mkEvent EventTypeSwitchClosedDebounced n) self)
    else if Qeq_bool d 0 then
      (Return tt,
       key_events_append (mkEvent EventTypeSwitchOpenDebounced n) self)
    else (Return tt, self).
Proof.
  unfold process_switch.
  unfold bind at 1. rewrite switch_number_of_resolved.
  unfold index; cbn [nth_error]. run.
  destruct (Qeq_bool d 1); [reflexivity|].
  destruct (Qeq_bool d 0); reflexivity.
Qed.

(** C5. A switch message with [payload[0] == 1.0] appends exactly one
    closed-debounced event carrying the resolved device number (the registry
    entry of that name, else [pinproc.decode]): the event queue afterwards
    is the queue before followed by that one event, and nothing else of the
    instance changes; [payload[0] == 0.0] appends exactly one open-debounced
    event in the same way; any other first value leaves the queue and the
    instance as they were and raises nothing. *)
Theorem process_switch_events (self : OSC_Mode) (switchname : string)
    (d : Q) (rest : list Q) :
  let n := resolved_number pinproc_decode self switchname in
  let self' := exec (process_switch pinproc_decode switchname (d :: rest)) self in
  (d == 1 ->
   process_switch pinproc_decode switchname (d :: rest) self
   = (Return tt,
      key_events_append (mkEvent EventTypeSwitchClosedDebounced n) self) /\
   key_events (game self')
   = (key_events (game self)
      ++ [mkEvent EventTypeSwitchClosedDebounced n])%list) /\
  (d == 0 ->
   process_switch pinproc_decode switchname (d :: rest) self
   = (Return tt,
      key_events_append (mkEvent EventTypeSwitchOpenDebounced n) self) /\
   key_events (game self')
   = (key_events (game self)
      ++ [mkEvent EventTypeSwitchOpenDebounced n])%list) /\
  (~ d == 1 -> ~ d == 0 ->
   process_switch pinproc_decode switchname (d :: rest) self
   = (Return tt, self) /\
   key_events (game self') = key_events (game self)).
Proof.
  intros n self'. unfold self', exec.
  rewrite process_switch_cons. fold n.
  split; [|split].
  - intro Hd. apply Qeq_bool_iff in Hd. rewrite Hd. split; reflexivity.
  - intro Hd.
    assert (H1 : Qeq_bool d 1 = false).
    { destruct (Qeq_bool d 1) eqn:E; [|reflexivity].
      apply Qeq_bool_iff in E. rewrite Hd in E. discriminate E. }
    apply Qeq_bool_iff in Hd. rewrite H1, Hd. split; reflexivity.
  - intros Hn1 Hn0.
    destruct (Qeq_bool d 1) eqn:E1; [apply Qeq_bool_iff in E1; contradiction|].
    destruct (Qeq_bool d 0) eqn:E0; [apply Qeq_bool_iff in E0; contradiction|].
    split; reflexivity.
Qed.

(** *** Sending *)

Lemma client_send_OSC_message_bound (peer : Endpoint) (category name_ : string)
    (data : Payload) (self : OSC_Mode) :
  OSC_client self = Some peer ->
  client_send_OSC_message category name_ data self
  = (Return tt,
     after_send peer
       (OSCMessage_append (mkOSCMessage ("/" ++ category ++ "/" ++ name_) [])
          data) self).
Proof.
  intro Hc. unfold client_send_OSC_message, after_send. run.
  cbn [OSC_client logger_append set_game set_OSC_message network].
  rewrite Hc. reflexivity.
Qed.

Lemma after_send_frame (peer : Endpoint) (m : OSCMessage) (self : OSC_Mode) :
  binding (after_send peer m self) = binding self /\
  client_needs_sync (after_send peer m self) = client_needs_sync self /\
  last_loop_time (after_send peer m self) = last_loop_time self /\
  switches (game (after_send peer m self)) = switches (game self) /\
  key_events (game (after_send peer m self)) = key_events (game self) /\
  driver (game (after_send peer m self)) = driver (game self) /\
  network (after_send peer m self) = (network self ++ [(peer, m)])%list.
Proof. repeat split. Qed.

Lemma after_sends_frame (peer : Endpoint) (ms : list OSCMessage)
    (self : OSC_Mode) :
  binding (after_sends peer ms self) = binding self /\
  client_needs_sync (after_sends peer ms self) = client_needs_sync self /\
  last_loop_time (after_sends peer ms self) = last_loop_time self /\
  switches (game (after_sends peer ms self)) = switches (game self) /\
  key_events (game (after_sends peer ms self)) = key_events (game self) /\
  driver (game (after_sends peer ms self)) = driver (game self) /\
  network (after_sends peer ms self) = (network self ++ map (pair peer) ms)%list.
Proof.
  unfold after_sends. revert self.
  induction ms as [|m ms IH]; intro self; cbn [fold_left map].
  - rewrite app_nil_r. repeat split.
  - destruct (IH (after_send peer m self)) as (Hb & Hs & Ht & Hw & Hk & Hd & Hn).
    destruct (after_send_frame peer m self) as (Hb' & Hs' & Ht' & Hw' & Hk' & Hd' & Hn').
    rewrite Hb, Hs, Ht, Hw, Hk, Hd, Hn, Hb', Hs', Ht', Hw', Hk', Hd', Hn'.
    rewrite <- app_assoc. repeat split.
Qed.

Lemma after_sends_OSC_client (peer : Endpoint) (ms : list OSCMessage)
    (self : OSC_Mode) :
  OSC_client (after_sends peer ms self) = OSC_client self.
Proof.
  pose proof (proj1 (after_sends_frame peer ms self)) as H.
  unfold binding in H. congruence.
Qed.

(** The full-resync loop sends one message per switch, in registry order. *)
Lemma for_each_send_switches (peer : Endpoint) (l : list Switch)
    (self : OSC_Mode) :
  OSC_client self = Some peer ->
  for_each l
    (fun switch =>
       client_send_OSC_message "sw" (name switch) (switch_data switch)) self
  = (Return tt, after_sends peer (map sw_message l) self).
Proof.
  revert self. induction l as [|sw l IH]; intros self Hc.
  - reflexivity.
  - cbn [for_each map]. unfold bind.
    rewrite client_send_OSC_message_bound with (peer := peer) by exact Hc.
    rewrite IH by exact Hc. reflexivity.
Qed.

(** The change-detection loop sends one message per switch whose last
    change is later than the previous tick. *)
Lemma for_each_tick_switch (peer : Endpoint) (l : list Switch)
    (self : OSC_Mode) :
  OSC_client self = Some peer ->
  for_each l tick_switch self
  = (Return tt,
     after_sends peer
       (map sw_message (filter (changed_since (last_loop_time self)) l)) self).
Proof.
  revert self. induction l as [|sw l IH]; intros self Hc.
  - reflexivity.
  - cbn [for_each filter]. unfold bind.
    unfold tick_switch at 1, changed_since at 1.
    destruct (last_changed sw) as [c|] eqn:Hlc.
    + destruct (last_changed_set (Some c)); cbn [andb].
      * run. destruct (gt c (last_loop_time self)).
        -- rewrite client_send_OSC_message_bound with (peer := peer)
             by exact Hc.
           rewrite IH by exact Hc. reflexivity.
        -- rewrite IH by exact Hc. reflexivity.
      * run. rewrite IH by exact Hc. reflexivity.
    + cbn [last_changed_set]. run. rewrite IH by exact Hc. reflexivity.
Qed.

(** *** The synchroniser *)

Lemma client_update_all_bound (peer : Endpoint) (self : OSC_Mode) :
  OSC_client self = Some peer ->
  client_update_all self
  = (Return tt,
     set_client_needs_sync false
       (after_sends peer (map sw_message (switches (game self))) self)).
Proof.
  intro Hc. unfold client_update_all, client_update_all_switches. run.
  rewrite for_each_send_switches with (peer := peer) by exact Hc.
  reflexivity.
Qed.

Lemma after_resync_frame (peer : Endpoint) (self : OSC_Mode) :
  OSC_client (after_resync peer self) = OSC_client self /\
  last_loop_time (after_resync peer self) = last_loop_time self /\
  switches (game (after_resync peer self)) = switches (game self).
Proof.
  unfold after_resync. destruct (client_needs_sync self); [|repeat split].
  destruct (after_sends_frame peer (map sw_message (switches (game self))) self)
    as (Hb & _ & Ht & Hw & _).
  unfold binding in Hb.
  cbn [OSC_client last_loop_time game set_client_needs_sync].
  repeat split; congruence.
Qed.

Lemma mode_tick_bound (peer : Endpoint) (time_now : Q) (self : OSC_Mode) :
  do_we_have_a_client self = true ->
  OSC_client self = Some peer ->
  mode_tick time_now self
  = (Return tt,
     set_last_loop_time time_now
       (after_sends peer
          (map sw_message
             (filter (changed_since (last_loop_time self))
                (switches (game self))))
          (after_resync peer self))).
Proof.
  intros Hb Hc.
  destruct (after_resync_frame peer self) as (Hc' & Ht' & Hw').
  unfold mode_tick. unfold bind at 1, get at 1. cbn beta iota. rewrite Hb.
  assert (Hstep :
    (if client_needs_sync self then client_update_all else ret tt) self
    = (Return tt, after_resync peer self)).
  { unfold after_resync. destruct (client_needs_sync self).
    - apply client_update_all_bound. exact Hc.
    - reflexivity. }
  unfold bind at 1. rewrite Hstep.
  unfold bind at 1, get at 1. cbn beta iota.
  unfold bind at 1.
  rewrite for_each_tick_switch with (peer := peer) by congruence.
  rewrite Hw', Ht'. reflexivity.
Qed.

Lemma mode_tick_unbound (time_now : Q) (self : OSC_Mode) :
  do_we_have_a_client self = false ->
  mode_tick time_now self = (Return tt, self).
Proof. intro Hb. unfold mode_tick. run. rewrite Hb. reflexivity. Qed.

(** C3 (amended). For a bound session with a resync pending, the full
    resync step [client_update_all] sends exactly one ["sw"] message per
    known switch, in registry order, each carrying the switch's state as 0
    or 1, and clears the flag; one run of [mode_tick] sends that block and
    then one further update for every switch changed since the previous
    tick, and leaves the flag cleared. *)
Theorem mode_tick_resync (peer : Endpoint) (time_now : Q) (self : OSC_Mode) :
  do_we_have_a_client self = true ->
  OSC_client self = Some peer ->
  client_needs_sync self = true ->
  let full := map sw_message (switches (game self)) in
  let changed :=
    map sw_message
      (filter (changed_since (last_loop_time self)) (switches (game self))) in
  (result client_update_all self = Return tt /\
   network (exec client_update_all self)
   = (network self ++ map (pair peer) full)%list /\
   client_needs_sync (exec client_update_all self) = false) /\
  (result (mode_tick time_now) self = Return tt /\
   network (exec (mode_tick time_now) self)
   = (network self ++ map (pair peer) (full ++ changed))%list /\
   client_needs_sync (exec (mode_tick time_now) self) = false).
Proof.
  intros Hb Hc Hs full changed. unfold exec, result.
  rewrite client_update_all_bound with (peer := peer) by exact Hc.
  rewrite mode_tick_bound with (peer := peer) by assumption.
  unfold after_resync. rewrite Hs. cbn [fst snd].
  cbn [network client_needs_sync set_client_needs_sync set_last_loop_time].
  destruct (after_sends_frame peer full self) as (_ & _ & _ & _ & _ & _ & Hn).
  destruct (after_sends_frame peer changed
              (set_client_needs_sync false (after_sends peer full self)))
    as (_ & Hs2 & _ & _ & _ & _ & Hn2).
  fold full. fold changed.
  repeat split.
  - exact Hn.
  - rewrite Hn2. cbn [network set_client_needs_sync]. rewrite Hn.
    rewrite map_app, app_assoc. reflexivity.
  - rewrite Hs2. reflexivity.
Qed.

(** C4 (amended). A run of [mode_tick] on a bound session records the
    current time as [last_loop_time] at the end of the call; on an unbound
    session it sends nothing and changes nothing, [last_loop_time]
    included. *)
Theorem mode_tick_last_loop_time (peer : Endpoint) (time_now : Q)
    (self : OSC_Mode) :
  (do_we_have_a_client self = true -> OSC_client self = Some peer ->
   result (mode_tick time_now) self = Return tt /\
   last_loop_time (exec (mode_tick time_now) self) = time_now) /\
  (do_we_have_a_client self = false ->
   mode_tick time_now self = (Return tt, self)).
Proof.
  split.
  - intros Hb Hc. unfold exec, result.
    rewrite mode_tick_bound with (peer := peer) by assumption.
    split; reflexivity.
  - apply mode_tick_unbound.
Qed.

(** *** The dispatcher *)

Lemma process_message_refresh (addr tags : string) (data : list Q)
    (client_address : Endpoint) (self : OSC_Mode) :
  category_is addr "refresh" ->
  process_message pinproc_decode addr tags data client_address self
  = (Return tt, set_client_needs_sync true self).
Proof.
  unfold category_is. intro Hcat. unfold process_message.
  unfold bind at 1, lift at 1. rewrite Hcat.
  cbn [String.eqb Ascii.eqb Bool.eqb]. reflexivity.
Qed.

(** C8 (amended). Processing a refresh message twice before any tick
    leaves the session exactly as processing it once does, with
    [client_needs_sync] true; the next tick of a bound session then
    performs one full sync (one message per switch, followed by the change
    updates) and clears the flag, so the tick after it performs none; the
    next tick of a session that is not bound sends nothing and leaves the
    flag raised. *)
Theorem refresh_idempotent (peer : Endpoint) (addr tags : string)
    (data : list Q) (client_address : Endpoint) (t t' : Q) (self : OSC_Mode) :
  category_is addr "refresh" ->
  let once :=
    exec (process_message pinproc_decode addr tags data client_address) self in
  let twice :=
    exec (process_message pinproc_decode addr tags data client_address) once in
  twice = once /\
  client_needs_sync twice = true /\
  (do_we_have_a_client self = true -> OSC_client self = Some peer ->
   let full := map sw_message (switches (game self)) in
   let changed u :=
     map sw_message (filter (changed_since u) (switches (game self))) in
   let next := exec (mode_tick t) twice in
   network next
   = (network self
      ++ map (pair peer) (full ++ changed (last_loop_time self)))%list /\
   client_needs_sync next = false /\
   network (exec (mode_tick t') next)
   = (network next ++ map (pair peer) (changed t))%list) /\
  (do_we_have_a_client self = false ->
   let next := exec (mode_tick t) twice in
   network next = network self /\ client_needs_sync next = true).
Proof.
  intros Hcat once twice.
  assert (Ho : once = set_client_needs_sync true self).
  { unfold once, exec. rewrite process_message_refresh by exact Hcat.
    reflexivity. }
  assert (Ht : twice = set_client_needs_sync true self).
  { unfold twice, exec. rewrite process_message_refresh by exact Hcat.
    rewrite Ho. reflexivity. }
  clearbody once twice. subst once twice.
  split; [reflexivity|]. split; [reflexivity|].
  split;
    [|intros Hb next; unfold next, exec;
      rewrite mode_tick_unbound by exact Hb; split; reflexivity].
  intros Hb Hc full changed next. unfold next, exec.
  set (s1 := set_client_needs_sync true self).
  assert (Hb1 : do_we_have_a_client s1 = true) by exact Hb.
  assert (Hc1 : OSC_client s1 = Some peer) by exact Hc.
  rewrite mode_tick_bound with (peer := peer) (self := s1) by assumption.
  cbn [snd]. unfold after_resync at 1 2 3.
  change (client_needs_sync s1) with true. cbv iota.
  change (switches (game s1)) with (switches (game self)).
  change (last_loop_time s1) with (last_loop_time self).
  fold full. fold (changed (last_loop_time self)).
  set (s2 := set_client_needs_sync false (after_sends peer full s1)).
  set (s3 := after_sends peer (changed (last_loop_time self)) s2).
  destruct (after_sends_frame peer full s1) as (Hb2 & _ & _ & Hw2 & _ & _ & Hn2).
  destruct (after_sends_frame peer (changed (last_loop_time self)) s2)
    as (Hb3 & Hs3 & _ & Hw3 & _ & _ & Hn3).
  fold s3 in Hb3, Hs3, Hw3, Hn3.
  assert (Hnet : network s3
                 = (network self
                    ++ map (pair peer) (full ++ changed (last_loop_time self)))%list).
  { rewrite Hn3. unfold s2. cbn [network set_client_needs_sync].
    rewrite Hn2. unfold s1. cbn [network set_client_needs_sync].
    rewrite map_app, app_assoc. reflexivity. }
  split; [exact Hnet|].
  split; [cbn [client_needs_sync set_last_loop_time]; rewrite Hs3; reflexivity|].
  set (s4 := set_last_loop_time t s3).
  assert (Hb4 : do_we_have_a_client s4 = true).
  { unfold binding in Hb2, Hb3. unfold s4, s2 in *.
    cbn [do_we_have_a_client set_last_loop_time set_client_needs_sync] in *.
    congruence. }
  assert (Hc4 : OSC_client s4 = Some peer).
  { unfold binding in Hb2, Hb3. unfold s4, s2 in *.
    cbn [OSC_client set_last_loop_time set_client_needs_sync] in *.
    congruence. }
  rewrite mode_tick_bound with (peer := peer) (self := s4) by assumption.
  cbn [snd]. unfold after_resync.
  assert (Hs4 : client_needs_sync s4 = false).
  { unfold s4. cbn [client_needs_sync set_last_loop_time]. rewrite Hs3.
    reflexivity. }
  rewrite Hs4.
  assert (Hw4 : switches (game s4) = switches (game self)).
  { unfold s4. cbn [game set_last_loop_time]. rewrite Hw3. unfold s2.
    cbn [game set_client_needs_sync]. rewrite Hw2. reflexivity. }
  rewrite Hw4. change (last_loop_time s4) with t. fold (changed t).
  cbn [network set_last_loop_time].
  destruct (after_sends_frame peer (changed t) s4) as (_ & _ & _ & _ & _ & _ & Hn5).
  rewrite Hn5. reflexivity.
Qed.

Ltac frame :=
  unfold session, binding, exec; run;
  repeat (match goal with
          | |- context [match ?x with _ => _ end] =>
              lazymatch x with
              | context [match _ with _ => _ end] => fail
              | _ => destruct x
              end
          end; cbn beta iota);
  reflexivity.

Lemma process_switch_frame (switchname : string) (data : list Q)
    (self : OSC_Mode) :
  session (exec (process_switch pinproc_decode switchname data) self)
  = session self.
Proof. unfold process_switch, switch_number_of. frame. Qed.

Lemma process_lamp_frame (lampname : string) (data : list Q)
    (self : OSC_Mode) :
  session (exec (process_lamp lampname data) self) = session self.
Proof. unfold process_lamp. frame. Qed.

Lemma process_LED_frame (LED : string) (data : list Q) (self : OSC_Mode) :
  session (exec (process_LED LED data) self) = session self.
Proof. unfold process_LED, client_send_OSC_message. frame. Qed.

Lemma process_coil_frame (coilname : string) (data : list Q)
    (self : OSC_Mode) :
  session (exec (process_coil coilname data) self) = session self.
Proof. unfold process_coil. frame. Qed.

Lemma handler_frame (cat name_ : string) (data : list Q) (self : OSC_Mode) :
  session (exec (handler pinproc_decode cat name_ data) self) = session self.
Proof.
  unfold handler.
  destruct (String.eqb cat "sw"); [apply process_switch_frame|].
  destruct (String.eqb cat "lamp"); [apply process_lamp_frame|].
  destruct (String.eqb cat "led" || String.eqb cat "LED")%bool;
    [apply process_LED_frame|].
  destruct (String.eqb cat "coil"); [apply process_coil_frame|].
  reflexivity.
Qed.

Lemma bind_client_bound (client_address : Endpoint) (self : OSC_Mode) :
  do_we_have_a_client self = true ->
  bind_client client_address self = (Return tt, self).
Proof. intro Hb. unfold bind_client. run. rewrite Hb. reflexivity. Qed.

Lemma bind_client_unbound (client_address : Endpoint) (self : OSC_Mode) :
  do_we_have_a_client self = false ->
  exists self',
    bind_client client_address self = (Return tt, self') /\
    clientTuple self'
    = Some (bound_host self client_address, clientPort self) /\
    OSC_client self'
    = Some (bound_host self client_address, clientPort self) /\
    clientIP self' = Some (bound_host self client_address) /\
    do_we_have_a_client self' = true /\
    client_needs_sync self' = client_needs_sync self.
Proof.
  intro Hb. unfold bind_client, setup_OSC_client, bound_host. run. rewrite Hb.
  cbn [negb]. unfold clientIP_set.
  destruct (clientIP self) as [[|a r]|] eqn:Hip; cbn [negb];
    eexists; (split; [reflexivity|]);
    cbn [clientTuple OSC_client clientIP do_we_have_a_client client_needs_sync
         set_clientIP set_clientTuple set_OSC_client set_do_we_have_a_client
         clientPort];
    rewrite ?Hip; repeat split.
Qed.

Lemma process_message_unfold (addr tags : string) (data : list Q)
    (client_address : Endpoint) (cat name_ : string) (self : OSC_Mode) :
  index (split "/" addr) 1 = Return cat ->
  String.eqb cat "refresh" = false ->
  index (split "/" addr) 2 = Return name_ ->
  process_message pinproc_decode addr tags data client_address self
  = (bind_client client_address ;; handler pinproc_decode cat name_ data) self.
Proof.
  intros Hcat Hnr Hname. unfold process_message.
  unfold bind at 1, lift at 1. rewrite Hcat, Hnr.
  unfold bind at 1, lift at 1. rewrite Hname. reflexivity.
Qed.

(** Whatever the message, a bound session keeps its binding. *)
Lemma process_message_bound_binding (addr tags : string) (data : list Q)
    (client_address : Endpoint) (self : OSC_Mode) :
  do_we_have_a_client self = true ->
  binding (exec (process_message pinproc_decode addr tags data client_address)
             self)
  = binding self.
Proof.
  intro Hb. unfold exec, process_message.
  unfold bind at 1, lift at 1.
  destruct (index (split "/" addr) 1) as [cat|e]; [|reflexivity].
  destruct (String.eqb cat "refresh"); [reflexivity|].
  unfold bind at 1, lift at 1.
  destruct (index (split "/" addr) 2) as [name_|e]; [|reflexivity].
  unfold bind at 1. rewrite bind_client_bound by exact Hb.
  pose proof (handler_frame cat name_ data self) as Hf.
  unfold session, exec, handler in Hf. congruence.
Qed.

(** First contact: the binding step takes the configured address when
    there is one and the sender's otherwise, and the handlers that follow
    leave it alone; nothing on this path writes [client_needs_sync]. *)
Lemma process_message_first_contact (addr tags : string) (data : list Q)
    (client_address : Endpoint) (cat name_ : string) (self : OSC_Mode) :
  do_we_have_a_client self = false ->
  index (split "/" addr) 1 = Return cat ->
  String.eqb cat "refresh" = false ->
  index (split "/" addr) 2 = Return name_ ->
  let self' :=
    exec (process_message pinproc_decode addr tags data client_address) self in
  clientTuple self' = Some (bound_host self client_address, clientPort self) /\
  OSC_client self' = Some (bound_host self client_address, clientPort self) /\
  do_we_have_a_client self' = true /\
  client_needs_sync self' = client_needs_sync self.
Proof.
  intros Hb Hcat Hnr Hname self'. unfold self', exec.
  rewrite process_message_unfold with (cat := cat) (name_ := name_)
    by assumption.
  destruct (@bind_client_unbound client_address self Hb)
    as (s1 & Hrun & Ht & Hc & _ & Hd & Hs).
  unfold bind. rewrite Hrun.
  pose proof (handler_frame cat name_ data s1) as Hf.
  unfold session, binding, exec in Hf.
  injection Hf as H1 H2 H3 H4 H5 H6.
  repeat split; congruence.
Qed.

(** C7 (amended). While the session is bound, a message from any remote
    address, the bound one or another, leaves the bound address as it is:
    [clientIP], [clientTuple] and the connected client are unchanged and the
    session stays bound. *)
Theorem process_message_keeps_binding (addr tags : string) (data : list Q)
    (client_address : Endpoint) (self : OSC_Mode) :
  do_we_have_a_client self = true ->
  let self' :=
    exec (process_message pinproc_decode addr tags data client_address) self in
  clientIP self' = clientIP self /\
  clientTuple self' = clientTuple self /\
  OSC_client self' = OSC_client self /\
  do_we_have_a_client self' = true.
Proof.
  intros Hb self'.
  pose proof (@process_message_bound_binding addr tags data client_address
                self Hb) as H.
  fold self' in H. unfold binding in H.
  injection H as H1 H2 H3 H4. repeat split; congruence.
Qed.

(** *** The category handlers *)

Lemma int_scale_bounds (v : Q) :
  0 <= v -> v <= 255 -> (0 <= int v <= 255)%Z.
Proof.
  intros H0 H1. rewrite (int_nonneg_floor H0). split.
  - apply Qfloor_ge_inject. exact H0.
  - assert (Hlt : (Qfloor v < 256)%Z).
    { apply Qfloor_lt_inject. change (inject_Z 256) with 256. lra. }
    lia.
Qed.

Lemma double_0 : double 0.
Proof. left. reflexivity. Qed.

(** A payload within [0,1] scales to a brightness within 0..255. *)
Lemma int_times_255_unit (d : Q) :
  0 <= d -> d <= 1 ->
  exists b, int_times_255 d = Return b /\ (0 <= b <= 255)%Z.
Proof.
  intros H0 H1. unfold int_times_255. cbn [fmul].
  destruct (@round_between 0 (inject_Z 255) (d * 255) double_0
              (double_inject 255 ltac:(reflexivity)))
    as (v & Hr & Hlo & Hhi).
  - apply Qmult_le_0_compat; [exact H0 | lra].
  - change (inject_Z 255) with 255. lra.
  - rewrite Hr. cbn [int_float]. exists (int v). split; [reflexivity|].
    apply int_scale_bounds; [exact Hlo | exact Hhi].
Qed.

(** The brightness is not clamped. *)
Lemma int_times_255_above (d : Q) :
  256 # 255 <= d -> d <= pow2 1000 ->
  exists b, int_times_255 d = Return b /\ (256 <= b)%Z.
Proof.
  intros Hlo Hhi. unfold int_times_255. cbn [fmul].
  assert (Hdhi : double (inject_Z 255 * pow2 1000)).
  { apply double_scaled; [reflexivity | discriminate | reflexivity]. }
  destruct (@round_between (inject_Z 256) (inject_Z 255 * pow2 1000) (d * 255)
              (double_inject 256 ltac:(reflexivity)) Hdhi)
    as (v & Hr & Hvlo & Hvhi).
  - change (inject_Z 256) with 256.
    assert (E : 256 == (256 # 255) * 255) by reflexivity.
    rewrite E. apply Qmult_le_compat_r; [exact Hlo | discriminate].
  - rewrite (Qmult_comm (inject_Z 255)).
    apply Qmult_le_compat_r; [exact Hhi | discriminate].
  - rewrite Hr. cbn [int_float]. exists (int v). split; [reflexivity|].
    assert (Hv0 : 0 <= v).
    { apply Qle_trans with (inject_Z 256); [discriminate | exact Hvlo]. }
    rewrite (int_nonneg_floor Hv0). apply Qfloor_ge_inject. exact Hvlo.
Qed.

(** A payload whose product with 255 leaves the binary64 range. *)
Lemma int_times_255_overflow (d : Q) :
  pow2 1017 <= d -> int_times_255 d = Raise OverflowError.
Proof.
  intro H. unfold int_times_255. cbn [fmul].
  rewrite round_overflow; [reflexivity|].
  apply Qle_trans with (pow2 1017 * 255).
  - apply Qlt_le_weak. reflexivity.
  - apply Qmult_le_compat_r; [exact H | discriminate].
Qed.

(** The product never is a NaN: what [int] can raise on it is an
    [OverflowError]. *)
Lemma int_times_255_raises (d : Q) (e : PyExc) :
  int_times_255 d = Raise e -> e = OverflowError.
Proof.
  unfold int_times_255. cbn [fmul]. unfold round. cbv zeta.
  destruct (Qnum (Qred (d * 255))); cbn [int_float]; [discriminate | |];
    match goal with
    | |- context [Qle_bool ?a ?b] => destruct (Qle_bool a b)
    end; cbn [int_float]; congruence.
Qed.

Lemma process_LED_raises (LED : string) (d : Q) (rest : list Q) (e : PyExc)
    (self : OSC_Mode) :
  int_times_255 d = Raise e ->
  process_LED LED (d :: rest) self = (Raise e, self).
Proof.
  intro Hb. unfold process_LED. unfold index at 1. cbn [nth_error].
  run. rewrite Hb. reflexivity.
Qed.

Lemma process_LED_composite (peer : Endpoint) (LED p0 p1 : string)
    (board output b : Z) (d : Q) (rest : list Q) (self : OSC_Mode) :
  OSC_client self = Some peer ->
  int_times_255 d = Return b ->
  startswith "+" LED = true ->
  index (split "-" (strip "+" LED)) 0 = Return p0 ->
  int_of_string p0 = Return board ->
  index (split "-" (strip "+" LED)) 1 = Return p1 ->
  int_of_string p1 = Return output ->
  process_LED LED (d :: rest) self
  = (Return tt,
     after_send peer (led_label LED b)
       (driver_append (PRLED_color board output b) self)).
Proof.
  intros Hc Hd Hplus H0 Hb H1 Ho. unfold process_LED.
  rewrite Hplus. unfold index at 1 2. cbn [nth_error].
  run. rewrite Hd. rewrite H0, Hb, H1, Ho.
  rewrite client_send_OSC_message_bound with (peer := peer) by exact Hc.
  reflexivity.
Qed.

Lemma process_LED_named (peer : Endpoint) (LED : string) (b : Z) (d : Q)
    (rest : list Q) (self : OSC_Mode) :
  OSC_client self = Some peer ->
  int_times_255 d = Return b ->
  startswith "+" LED = false ->
  has_device LED (leds (game self)) = true ->
  process_LED LED (d :: rest) self
  = (Return tt,
     after_send peer (led_label LED b)
       (driver_append (led_color LED (PList [b])) self)).
Proof.
  intros Hc Hd Hplus Hin. unfold process_LED, get_device.
  rewrite Hplus. unfold index at 1. cbn [nth_error].
  run. rewrite Hd, Hin.
  rewrite client_send_OSC_message_bound with (peer := peer) by exact Hc.
  reflexivity.
Qed.

(** With a client connected, [process_LED] either makes its one driver call
    and sends its one reply, or raises with the instance as it was. *)
Lemma process_LED_cases (peer : Endpoint) (LED : string)
    (data : list Q) (self : OSC_Mode) :
  OSC_client self = Some peer ->
  (exists call b,
     process_LED LED data self
     = (Return tt,
        after_send peer (led_label LED b) (driver_append call self))) \/
  (exists e, process_LED LED data self = (Raise e, self)).
Proof.
  intro Hc. destruct data as [|d rest].
  { right. exists IndexError. reflexivity. }
  destruct (int_times_255 d) as [b|e] eqn:Hd;
    [|right; exists e; apply process_LED_raises; exact Hd].
  destruct (startswith "+" LED) eqn:Hplus.
  - destruct (index (split "-" (strip "+" LED)) 0) as [p0|e0] eqn:H0;
      [destruct (int_of_string p0) as [board|eb] eqn:Hb;
       [destruct (index (split "-" (strip "+" LED)) 1) as [p1|e1] eqn:H1;
        [destruct (int_of_string p1) as [output|eo] eqn:Ho|]|]|].
    + left. exists (PRLED_color board output b), b.
      apply process_LED_composite with (d := d) (p0 := p0) (p1 := p1);
        assumption.
    + right. exists eo. unfold process_LED. rewrite Hplus.
      unfold index at 1 2. cbn [nth_error]. run. rewrite Hd.
      rewrite H0, Hb, H1, Ho. reflexivity.
    + right. exists e1. unfold process_LED. rewrite Hplus.
      unfold index at 1 2. cbn [nth_error]. run. rewrite Hd.
      rewrite H0, Hb, H1. reflexivity.
    + right. exists eb. unfold process_LED. rewrite Hplus.
      unfold index at 1 2. cbn [nth_error]. run. rewrite Hd.
      rewrite H0, Hb. reflexivity.
    + right. exists e0. unfold process_LED. rewrite Hplus.
      unfold index at 1 2. cbn [nth_error]. run. rewrite Hd.
      rewrite H0. reflexivity.
  - destruct (has_device LED (leds (game self))) eqn:Hin.
    + left. exists (led_color LED (PList [b])), b.
      apply process_LED_named with (d := d); assumption.
    + right. exists KeyError. unfold process_LED, get_device. rewrite Hplus.
      unfold index at 1. cbn [nth_error]. run. rewrite Hd, Hin. reflexivity.
Qed.

(** C6 (amended). An LED message whose target resolves (a composite
    target naming a board and an output in decimal, or a plain name present
    in the LED registry) scales [payload[0]] by 255 to a brightness, within
    0..255 for a payload within [0,1], and sends exactly one ["led-label"]
    reply to the bound client in either addressing form: a composite target
    drives [PRLED_color] with the board and output it names (["+8-60"] with
    payload [1.0] gives board 8, output 60, brightness 255), a plain target
    is looked up by name in the LED registry.  A plain name that is not in
    the registry makes the handler raise, and whenever it raises nothing has
    been driven or sent. *)
Theorem process_LED_reply (peer : Endpoint) (LED : string) (d : Q)
    (rest : list Q) (self : OSC_Mode) :
  OSC_client self = Some peer ->
  (0 <= d -> d <= 1 ->
   exists b, int_times_255 d = Return b /\ (0 <= b <= 255)%Z) /\
  (forall b : Z,
     int_times_255 d = Return b ->
     (forall (p0 p1 : string) (board output : Z),
        startswith "+" LED = true ->
        index (split "-" (strip "+" LED)) 0 = Return p0 ->
        int_of_string p0 = Return board ->
        index (split "-" (strip "+" LED)) 1 = Return p1 ->
        int_of_string p1 = Return output ->
        let self' := exec (process_LED LED (d :: rest)) self in
        result (process_LED LED (d :: rest)) self = Return tt /\
        driver (game self')
        = (driver (game self) ++ [PRLED_color board output b])%list /\
        network self' = (network self ++ [(peer, led_label LED b)])%list) /\
     (startswith "+" LED = false ->
      has_device LED (leds (game self)) = true ->
      let self' := exec (process_LED LED (d :: rest)) self in
      result (process_LED LED (d :: rest)) self = Return tt /\
      driver (game self')
      = (driver (game self) ++ [led_color LED (PList [b])])%list /\
      network self' = (network self ++ [(peer, led_label LED b)])%list)) /\
  (let self' := exec (process_LED "+8-60" (1 :: rest)) self in
   result (process_LED "+8-60" (1 :: rest)) self = Return tt /\
   driver (game self') = (driver (game self) ++ [PRLED_color 8 60 255])%list /\
   network self' = (network self ++ [(peer, led_label "+8-60" 255)])%list) /\
  (startswith "+" LED = false ->
   has_device LED (leds (game self)) = false ->
   exists e, result (process_LED LED (d :: rest)) self = Raise e) /\
  (forall e : PyExc,
     result (process_LED LED (d :: rest)) self = Raise e ->
     exec (process_LED LED (d :: rest)) self = self).
Proof.
  intros Hc. split; [apply int_times_255_unit|].
  split; [|split; [|split]].
  3:{ intros Hplus Hin. unfold result, process_LED, get_device.
      rewrite Hplus. unfold index at 1. cbn [nth_error]. run.
      destruct (int_times_255 d) as [b|e]; [|exists e; reflexivity].
      rewrite Hin. exists KeyError. reflexivity. }
  3:{ intros e. unfold result, exec.
      destruct (@process_LED_cases peer LED (d :: rest) self Hc)
        as [(call & b & Hrun) | (e' & Hrun)]; rewrite Hrun; cbn [fst snd];
        [discriminate | reflexivity]. }
  - intros b Hd. split.
    + intros p0 p1 board output Hplus H0 Hb H1 Ho self'.
      unfold self', exec, result.
      rewrite (@process_LED_composite peer LED p0 p1 board output b d rest
                 self Hc Hd Hplus H0 Hb H1 Ho).
      repeat split.
    + intros Hplus Hin self'. unfold self', exec, result.
      rewrite (@process_LED_named peer LED b d rest self Hc Hd Hplus Hin).
      repeat split.
  - intro self'. unfold self', exec, result.
    rewrite (@process_LED_composite peer "+8-60" "8" "60" 8 60 255 1 rest self
               Hc eq_refl eq_refl eq_refl eq_refl eq_refl eq_refl).
    repeat split.
Qed.



Lemma self_convertToMask_TypeError (x : Q) :
  self_convertToMask x = Raise TypeError.
Proof. reflexivity. Qed.

(** C10. For a lamp message whose target is a known lamp and whose
    [payload[0]] lies strictly between 0 and 1, [process_lamp] raises
    [TypeError]: [convertToMask] is declared with the single parameter
    [number], and the call [self.convertToMask(data[0])] supplies two
    arguments; nothing is scheduled. *)
Theorem process_lamp_fractional_TypeError (lampname : string) (d : Q)
    (rest : list Q) (self : OSC_Mode) :
  has_device lampname (lamps (game self)) = true ->
  0 < d -> d < 1 ->
  process_lamp lampname (d :: rest) self = (Raise TypeError, self) /\
  convertToMask_params = 1%nat /\
  (forall x, self_convertToMask x = Raise TypeError).
Proof.
  intros Hin H0 H1. split; [|split; [reflexivity | exact self_convertToMask_TypeError]].
  unfold process_lamp, get_device. run. rewrite Hin.
  unfold index. cbn [nth_error].
  assert (Hge : ge d 1 = false).
  { unfold ge. destruct (Qle_bool 1 d) eqn:E; [|reflexivity].
    apply Qle_bool_iff in E. lra. }
  assert (Hz : Qeq_bool d 0 = false).
  { destruct (Qeq_bool d 0) eqn:E; [|reflexivity].
    apply Qeq_bool_iff in E. lra. }
  rewrite Hge, Hz. reflexivity.
Qed.

(** *** Reachable instances *)

Lemma init_consistent (hostname_ip : string) (g : Game)
    (serverIP_arg : option string) (serverPort_arg : Z)
    (clientIP_arg : option string) (clientPort_arg : Z)
    (closed_switches_arg : list string) :
  consistent (init hostname_ip g serverIP_arg serverPort_arg clientIP_arg
                clientPort_arg closed_switches_arg).
Proof. unfold consistent, init. cbn [do_we_have_a_client]. discriminate. Qed.

Lemma process_message_consistent (addr tags : string) (data : list Q)
    (client_address : Endpoint) (self : OSC_Mode) :
  consistent self ->
  consistent
    (exec (process_message pinproc_decode addr tags data client_address) self).
Proof.
  intro Hcons. destruct (do_we_have_a_client self) eqn:Hb.
  - destruct (Hcons Hb) as [peer Hc].
    pose proof (@process_message_bound_binding addr tags data client_address
                  self Hb) as H.
    unfold binding in H. injection H as _ _ H3 _.
    intros _. exists peer. congruence.
  - destruct (index (split "/" addr) 1) as [cat|e] eqn:Hcat.
    + destruct (String.eqb cat "refresh") eqn:Hnr.
      * apply String.eqb_eq in Hnr. subst cat.
        unfold exec. rewrite process_message_refresh by exact Hcat.
        unfold consistent. cbn [snd do_we_have_a_client set_client_needs_sync].
        rewrite Hb. discriminate.
      * destruct (index (split "/" addr) 2) as [name_|e] eqn:Hname.
        -- destruct (@process_message_first_contact addr tags data
                       client_address cat name_ self Hb Hcat Hnr Hname)
             as (_ & Hc & _).
           intros _. eexists. exact Hc.
        -- unfold exec, process_message.
           unfold bind at 1, lift at 1. rewrite Hcat, Hnr.
           unfold bind at 1, lift at 1. rewrite Hname.
           exact Hcons.
    + unfold exec, process_message.
      unfold bind at 1, lift at 1. rewrite Hcat. exact Hcons.
Qed.

Lemma mode_tick_consistent (time_now : Q) (self : OSC_Mode) :
  consistent self -> consistent (exec (mode_tick time_now) self).
Proof.
  intro Hcons. destruct (do_we_have_a_client self) eqn:Hb.
  - destruct (Hcons Hb) as [peer Hc].
    unfold exec. rewrite mode_tick_bound with (peer := peer) by assumption.
    intros _. exists peer. cbn [snd OSC_client set_last_loop_time].
    rewrite after_sends_OSC_client.
    destruct (after_resync_frame peer self) as (Hc' & _). congruence.
  - unfold exec. rewrite mode_tick_unbound by exact Hb. exact Hcons.
Qed.

(** The sync flag is raised at start-up only when the simulated P-ROC is in
    use; with any other driver class the instance is left as it was. *)
Lemma set_initial_closed_switches_real
    (config_values : list (string * string)) (pinproc_class : string)
    (self : OSC_Mode) :
  getitem config_values "pinproc_class" = Return pinproc_class ->
  String.eqb pinproc_class "procgame.fakepinproc.FakePinPROC" = false ->
  set_initial_closed_switches pinproc_decode config_values self
  = (Return tt, self).
Proof.
  intros Hg H. unfold set_initial_closed_switches. run.
  rewrite Hg, H. reflexivity.
Qed.

(** Without a ['pinproc_class'] entry in the configuration the subscript
    raises before anything else happens. *)
Lemma set_initial_closed_switches_KeyError
    (config_values : list (string * string)) (e : PyExc) (self : OSC_Mode) :
  getitem config_values "pinproc_class" = Raise e ->
  set_initial_closed_switches pinproc_decode config_values self
  = (Raise e, self).
Proof.
  intros Hg. unfold set_initial_closed_switches. run.
  rewrite Hg. reflexivity.
Qed.

End Properties.

(** ** The methods on concrete input *)

(** C2. Code defect: first contact binds the session but does not mark it
    for resync.  The unbound instance of [__init__] receives ["/sw/flipperL"]
    with payload [1.0] from 10.0.0.7; afterwards it is bound to
    (10.0.0.7, 8000) with [client_needs_sync] still false, and the next tick
    sends the one changed switch only, not the full set. *)
Theorem first_contact_no_resync :
  let self' :=
    exec (process_message demo_decode "/sw/flipperL" ",f" [1]
            ("10.0.0.7", 54321%Z)) demo_unbound in
  do_we_have_a_client demo_unbound = false /\
  do_we_have_a_client self' = true /\
  clientTuple self' = Some ("10.0.0.7", 8000%Z) /\
  client_needs_sync self' = false /\
  network (exec (mode_tick 100) self')
  = [(("10.0.0.7", 8000%Z), sw_message trough1)].
Proof. vm_compute. repeat split. Qed.

(** C3 as stated fails: with a resync pending and a switch changed since
    the previous tick, one run of [mode_tick] sends that switch twice. *)
Lemma mode_tick_resync_sends_changed_twice :
  network (exec (mode_tick 100) demo_bound_pending)
  = [(first_client, sw_message flipperL);
     (first_client, sw_message trough1);
     (first_client, sw_message trough1)] /\
  network (exec (mode_tick 100) demo_bound_pending)
  <> map (pair first_client) (map sw_message (switches (game demo_bound_pending))).
Proof. split; [reflexivity | vm_compute; discriminate]. Qed.

Lemma mode_tick_resync_witness :
  do_we_have_a_client demo_bound_pending = true /\
  OSC_client demo_bound_pending = Some first_client /\
  client_needs_sync demo_bound_pending = true /\
  network (exec client_update_all demo_bound_pending)
  = [(first_client, sw_message flipperL); (first_client, sw_message trough1)] /\
  client_needs_sync (exec (mode_tick 100) demo_bound_pending) = false.
Proof.
  destruct (@mode_tick_resync first_client 100 demo_bound_pending
              eq_refl eq_refl eq_refl) as ((_ & Hn & _) & (_ & _ & Hs)).
  repeat split; assumption.
Defined.

(** C4 as stated fails: a tick on an unbound session leaves
    [last_loop_time] at its old value. *)
Lemma mode_tick_unbound_keeps_time :
  do_we_have_a_client demo_unbound = false /\
  last_loop_time (exec (mode_tick 100) demo_unbound) = 1 /\
  ~ last_loop_time (exec (mode_tick 100) demo_unbound) == 100.
Proof. repeat split. vm_compute. discriminate. Qed.

Lemma mode_tick_last_loop_time_witness :
  last_loop_time (exec (mode_tick 100) demo_bound) = 100 /\
  mode_tick 100 demo_unbound = (Return tt, demo_unbound).
Proof.
  destruct (@mode_tick_last_loop_time first_client 100 demo_bound) as (Hb & _).
  destruct (@mode_tick_last_loop_time first_client 100 demo_unbound) as (_ & Hu).
  split; [exact (proj2 (Hb eq_refl eq_refl)) | exact (Hu eq_refl)].
Defined.

Lemma process_switch_events_witness :
  key_events (game (exec (process_switch demo_decode "flipperL" [1]) demo_bound))
  = [mkEvent EventTypeSwitchClosedDebounced 1] /\
  key_events (game (exec (process_switch demo_decode "flipperL" [0]) demo_bound))
  = [mkEvent EventTypeSwitchOpenDebounced 1] /\
  process_switch demo_decode "flipperL" [1 # 2] demo_bound
  = (Return tt, demo_bound).
Proof.
  destruct (@process_switch_events demo_decode demo_bound "flipperL" 1 [])
    as (H1 & _ & _).
  destruct (@process_switch_events demo_decode demo_bound "flipperL" 0 [])
    as (_ & H0 & _).
  destruct (@process_switch_events demo_decode demo_bound "flipperL" (1 # 2) [])
    as (_ & _ & Hh).
  split; [exact (proj2 (H1 (Qeq_refl 1)))|].
  split; [exact (proj2 (H0 (Qeq_refl 0)))|].
  apply Hh; unfold Qeq; simpl; lia.
Defined.

Lemma process_LED_reply_witness :
  OSC_client demo_bound = Some first_client /\
  network (exec (process_LED "topLeftInsert" [0]) demo_bound)
  = [(first_client, led_label "topLeftInsert" 0)] /\
  driver (game (exec (process_LED "+8-60" [1]) demo_bound))
  = [PRLED_color 8 60 255] /\
  network (exec (process_LED "+8-60" [1]) demo_bound)
  = [(first_client, led_label "+8-60" 255)].
Proof.
  destruct (@process_LED_reply first_client "topLeftInsert" 0 [] demo_bound
              eq_refl) as (_ & Hres & _).
  destruct (Hres 0%Z eq_refl) as (_ & Hnamed).
  destruct (@process_LED_reply first_client "+8-60" 1 [] demo_bound eq_refl)
    as (_ & _ & (_ & Hd & Hn) & _).
  split; [reflexivity|].
  split; [exact (proj2 (proj2 (Hnamed eq_refl eq_refl)))|].
  split; [exact Hd | exact Hn].
Defined.

(** The scaling is a binary64 product: at the binary64 value nearest to
    [1/255] it rounds up to one, where the exact product stays below. *)
Lemma int_times_255_rounds_up :
  int_times_255 one_255th = Return 1%Z /\
  one_255th * 255 < 1 /\
  int (one_255th * 255) = 0%Z.
Proof. vm_compute. repeat split. Qed.

(** C6 as stated fails: an LED message whose target does not resolve gets
    no reply.  A plain name missing from the registry, a composite target
    without an output part and a message without payload each raise, and
    nothing is sent to the bound client. *)
Lemma process_LED_no_reply :
  OSC_client demo_bound = Some first_client /\
  process_message demo_decode "/led/nope" ",f" [1] first_client demo_bound
  = (Raise KeyError, demo_bound) /\
  process_message demo_decode "/led/+8" ",f" [1] first_client demo_bound
  = (Raise IndexError, demo_bound) /\
  process_message demo_decode "/led/topLeftInsert" "," [] first_client
    demo_bound
  = (Raise IndexError, demo_bound) /\
  network demo_bound = [].
Proof. vm_compute. repeat split. Qed.

(** C7 as stated fails: a bound session that hears from another address
    stays bound to the first one. *)
Lemma bound_session_ignores_new_sender :
  let self' :=
    exec (process_message demo_decode "/sw/flipperL" ",f" [1]
            ("10.0.0.99", 40000%Z)) demo_bound in
  do_we_have_a_client demo_bound = true /\
  clientTuple demo_bound = Some first_client /\
  clientTuple self' = Some first_client /\
  clientTuple self' <> Some ("10.0.0.99", 8000%Z) /\
  OSC_client self' <> Some ("10.0.0.99", 8000%Z).
Proof. vm_compute. repeat split; discriminate. Qed.

Lemma process_message_keeps_binding_witness :
  do_we_have_a_client demo_bound = true /\
  clientTuple
    (exec (process_message demo_decode "/coil/flipperLMain" ",f" [1]
             ("10.0.0.99", 40000%Z)) demo_bound)
  = Some first_client.
Proof.
  split; [reflexivity|].
  exact (proj1 (proj2
    (@process_message_keeps_binding demo_decode "/coil/flipperLMain" ",f" [1]
       ("10.0.0.99", 40000%Z) demo_bound eq_refl))).
Defined.

(** C8 as stated fails: two refresh messages reach the instance that
    [__init__] left, which has no client bound; the tick that follows sends
    nothing, although the game has switches, and the flag stays raised. *)
Lemma refresh_unbound_no_sync :
  let twice :=
    exec (process_message demo_decode "/refresh" "" [] first_client)
      (exec (process_message demo_decode "/refresh" "" [] first_client)
         demo_unbound) in
  do_we_have_a_client twice = false /\
  client_needs_sync twice = true /\
  switches (game twice) = [flipperL; trough1] /\
  network (exec (mode_tick 100) twice) = [] /\
  client_needs_sync (exec (mode_tick 100) twice) = true.
Proof. vm_compute. repeat split. Qed.

Lemma refresh_idempotent_witness :
  category_is "/refresh" "refresh" /\
  exec (process_message demo_decode "/refresh" "" [] first_client)
    (exec (process_message demo_decode "/refresh" "" [] first_client) demo_bound)
  = exec (process_message demo_decode "/refresh" "" [] first_client) demo_bound /\
  client_needs_sync
    (exec (mode_tick 100)
       (exec (process_message demo_decode "/refresh" "" [] first_client)
          (exec (process_message demo_decode "/refresh" "" [] first_client)
             demo_bound))) = false.
Proof.
  destruct (@refresh_idempotent demo_decode first_client "/refresh" "" []
              first_client 100 200 demo_bound eq_refl) as (Hi & _ & Ht & _).
  split; [reflexivity|]. split; [exact Hi|].
  exact (proj1 (proj2 (Ht eq_refl eq_refl))).
Defined.



Lemma process_lamp_fractional_TypeError_witness :
  has_device "startButton" (lamps (game demo_bound)) = true /\
  0 < 1 # 2 /\ 1 # 2 < 1 /\
  process_lamp "startButton" [1 # 2] demo_bound = (Raise TypeError, demo_bound).
Proof.
  assert (H0 : 0 < 1 # 2) by reflexivity.
  assert (H1 : 1 # 2 < 1) by reflexivity.
  split; [reflexivity|]. split; [exact H0|]. split; [exact H1|].
  exact (proj1 (@process_lamp_fractional_TypeError "startButton" (1 # 2) []
                  demo_bound eq_refl H0 H1)).
Defined.

(** ** The brightness encoder: the bit pattern *)

(** Whatever the number, the schedule of the exact loop stays even and
    below the next power of two. *)
Lemma schedule_for_range_bound (d : Q) (n : nat) (st : ExactLoop) :
  (exists p, (0 <= p)%Z /\ exact_schedule st = (2 * p)%Z) ->
  (exists p, (0 <= p)%Z
             /\ exact_schedule (for_range n (exact_body d) st) = (2 * p)%Z) /\
  (exact_schedule (for_range n (exact_body d) st)
   <= 2 ^ Z.of_nat n * (exact_schedule st + 2) - 2)%Z.
Proof.
  revert st. induction n as [|n IH]; intros st [p [Hp Hs]].
  - cbn [for_range]. split; [exists p; auto|].
    change (Z.of_nat 0) with 0%Z. lia.
  - cbn [for_range].
    assert (Hnext : exists q, (0 <= q)%Z
                    /\ exact_schedule (exact_body d st) = (2 * q)%Z
                    /\ (q <= 2 * p + 1)%Z).
    { unfold exact_body.
      destruct (Z.gtb (int (exact_count st + d)) (exact_whole_num st)); cbn [exact_schedule].
      - exists (2 * p + 1)%Z. rewrite Hs, lor_double_one by lia.
        rewrite Z.shiftl_mul_pow2 by lia. lia.
      - exists (2 * p)%Z. rewrite Hs, Z.shiftl_mul_pow2 by lia. lia. }
    destruct Hnext as (q & Hq & Hsq & Hqp).
    destruct (IH (exact_body d st)) as [He Hb].
    { exists q. auto. }
    split; [exact He|].
    rewrite Nat2Z.inj_succ, Z.pow_succ_r by lia.
    rewrite Hsq in Hb. rewrite Hs.
    assert (Hpow : (0 < 2 ^ Z.of_nat n)%Z) by (apply Z.pow_pos_nonneg; lia).
    nia.
Qed.

Lemma slot_exact_mask (d : Q) (k : nat) :
  (k < 32)%nat ->
  slot (Datatypes.S k) (exact_mask d)
  = Z.gtb (int (exact_count (exact_loop d k) + d))
          (exact_whole_num (exact_loop d k)).
Proof.
  intro Hk. unfold slot.
  assert (Hev : exists p, (0 <= p)%Z
                /\ exact_schedule (exact_loop d k) = (2 * p)%Z).
  { unfold exact_loop.
    apply (schedule_for_range_bound d k). exists 0%Z. split; [lia|reflexivity]. }
  destruct Hev as (p & Hp & Hs).
  rewrite <- (Z.add_0_l (33 - Z.of_nat (Datatypes.S k))).
  rewrite <- Z.shiftr_spec by lia.
  change (Z.shiftr (exact_mask d) (33 - Z.of_nat (Datatypes.S k)))
    with (prefix (Datatypes.S k) (exact_mask d)).
  rewrite prefix_exact_mask by lia.
  unfold exact_loop at 1. rewrite for_range_succ_r.
  fold (exact_loop d k).
  unfold exact_body.
  destruct (Z.gtb (int (exact_count (exact_loop d k) + d))
                  (exact_whole_num (exact_loop d k))); cbn [exact_schedule].
  - rewrite Hs, lor_double_one by lia.
    rewrite Z.shiftr_shiftl_l by lia. change (1 - 1)%Z with 0%Z.
    rewrite Z.shiftl_0_r. apply Z.testbit_odd_0.
  - rewrite Hs, Z.shiftr_shiftl_l by lia. change (1 - 1)%Z with 0%Z.
    rewrite Z.shiftl_0_r. apply Z.testbit_even_0.
Qed.

Lemma slot_crossing (d : Q) (k : nat) :
  0 <= d -> d <= 1 -> (k < 32)%nat ->
  slot (Datatypes.S k) (exact_mask d)
  = Z.gtb (Qfloor (inject_Z (Z.of_nat (Datatypes.S k)) * d))
          (Qfloor (inject_Z (Z.of_nat k) * d)).
Proof.
  intros H0 H1 Hk. rewrite slot_exact_mask by exact Hk.
  destruct (@mask_inv_loop d k H0 H1) as [Hc Hw _ _].
  assert (Hcnt : exact_count (exact_loop d k) + d
                 == inject_Z (Z.of_nat (Datatypes.S k)) * d).
  { rewrite Hc, Nat2Z.inj_succ. unfold Z.succ. rewrite inject_Z_plus. ring. }
  assert (Hnn : 0 <= exact_count (exact_loop d k) + d).
  { rewrite Hcnt. apply Qmult_le_0_compat; [|exact H0].
    change 0 with (inject_Z 0). rewrite <- Zle_Qle. lia. }
  rewrite (@int_nonneg_floor _ Hnn), Hw, Hcnt, Hc. reflexivity.
Qed.

(** X1. For a duty cycle in [0,1] with a significand of at most 48 bits,
    slot [k+1] of the mask is set exactly when [floor((k+1)*d)] exceeds
    [floor(k*d)]: the mask is the sequence of integer crossings of the
    running sum. *)
Theorem convertToMask_slot_crossing (d : Q) (k : nat) :
  significand_within 48 d -> 0 <= d -> d <= 1 -> (k < 32)%nat ->
  exists mask,
    convertToMask (Finite d) = Return mask /\
    slot (Datatypes.S k) mask
    = Z.gtb (Qfloor (inject_Z (Z.of_nat (Datatypes.S k)) * d))
            (Qfloor (inject_Z (Z.of_nat k) * d)).
Proof.
  intros Hs H0 H1 Hk. exists (exact_mask d).
  split; [apply convertToMask_exact; assumption|].
  apply slot_crossing; assumption.
Qed.

Lemma convertToMask_slot_crossing_witness :
  exists mask,
    convertToMask (Finite (1 # 2)) = Return mask /\
    slot 2 mask = true /\ slot 3 mask = false.
Proof.
  assert (H0 : 0 <= 1 # 2) by (unfold Qle; simpl; lia).
  assert (H1 : 1 # 2 <= 1) by (unfold Qle; simpl; lia).
  destruct (@convertToMask_slot_crossing (1 # 2) 1 significand_within_half
              H0 H1 ltac:(lia)) as (mask & Hm & H2).
  destruct (@convertToMask_slot_crossing (1 # 2) 2 significand_within_half
              H0 H1 ltac:(lia)) as (mask' & Hm' & H3).
  exists mask. split; [exact Hm|]. split; [exact H2|].
  assert (E : mask' = mask) by congruence.
  rewrite <- E. exact H3.
Defined.

(** *** The range of the returned value *)

(** One round keeps the schedule even and at most doubles it, plus two;
    what it can raise comes from [int]. *)
Lemma convertToMask_body_schedule (number : float) (st : MaskLoop) (p : Z) :
  (0 <= p)%Z -> schedule st = (2 * p)%Z ->
  match convertToMask_body number st with
  | Return st' =>
      exists q, (0 <= q <= 2 * p + 1)%Z /\ schedule st' = (2 * q)%Z
  | Raise e => e = OverflowError \/ e = ValueError
  end.
Proof.
  intros Hp Hs. unfold convertToMask_body. cbv zeta.
  destruct (fadd (count st) number) as [c|s|]; cbn [int_float];
    [|left; reflexivity | right; reflexivity].
  destruct (Z.gtb (int c) (whole_num st)); cbn [schedule].
  - exists (2 * p + 1)%Z. rewrite Hs, lor_double_one by lia.
    rewrite Z.shiftl_mul_pow2 by lia. lia.
  - exists (2 * p)%Z. rewrite Hs, Z.shiftl_mul_pow2 by lia. lia.
Qed.

Lemma for_range_try_schedule (number : float) (n : nat) (st : MaskLoop)
    (p : Z) :
  (0 <= p)%Z -> schedule st = (2 * p)%Z ->
  match for_range_try n (convertToMask_body number) st with
  | Return st' =>
      (exists q, (0 <= q)%Z /\ schedule st' = (2 * q)%Z) /\
      (schedule st' <= 2 ^ Z.of_nat n * (schedule st + 2) - 2)%Z
  | Raise e => e = OverflowError \/ e = ValueError
  end.
Proof.
  revert st p. induction n as [|n IH]; intros st p Hp Hs.
  - cbn [for_range_try]. split; [exists p; auto|].
    change (Z.of_nat 0) with 0%Z. lia.
  - cbn [for_range_try].
    pose proof (@convertToMask_body_schedule number st p Hp Hs) as Hb.
    destruct (convertToMask_body number st) as [st1|e]; [|exact Hb].
    destruct Hb as (q & Hq & Hsq).
    specialize (IH st1 q ltac:(lia) Hsq).
    destruct (for_range_try n (convertToMask_body number) st1) as [st'|e];
      [|exact IH].
    destruct IH as [He Hle]. split; [exact He|].
    rewrite Nat2Z.inj_succ, Z.pow_succ_r by lia.
    rewrite Hsq in Hle. rewrite Hs.
    assert (Hpow : (0 < 2 ^ Z.of_nat n)%Z) by (apply Z.pow_pos_nonneg; lia).
    nia.
Qed.

(** While the running sum stays below [2^53] the loop on a number in
    [0,1] does not raise. *)
Lemma for_range_try_returns (d : Q) (n : nat) (st : MaskLoop) (c : Q)
    (K : Z) :
  0 <= d -> d <= 1 ->
  count st = Finite c -> 0 <= c -> c <= inject_Z K ->
  (0 <= K)%Z -> (K + Z.of_nat n < 2 ^ 53)%Z ->
  exists st', for_range_try n (convertToMask_body (Finite d)) st = Return st'.
Proof.
  intros H0 H1. revert st c K.
  induction n as [|n IH]; intros st c K Hc Hc0 HcK HK Hn.
  - exists st. reflexivity.
  - destruct (@round_between 0 (inject_Z (K + 1)) (c + d) double_0
                (double_inject (K + 1) ltac:(lia)))
      as (v & Hr & Hlo & Hhi).
    + lra.
    + rewrite inject_Z_plus. change (inject_Z 1) with 1. lra.
    + rewrite (@for_range_try_step _ _ n _ _
                 (@convertToMask_body_finite d c v st Hc Hr)).
      apply IH with (c := v) (K := (K + 1)%Z);
        [destruct (Z.gtb (int v) (whole_num st)); reflexivity
        | exact Hlo | exact Hhi | lia | lia].
Qed.

(** A first round on a binary64 number below one sets nothing, so the
    value stays below [2^n] for the [n] rounds that follow. *)
Lemma convertToMask_loop_dim (d : Q) (n : nat) :
  double d -> 0 <= d -> d < 1 -> (Z.of_nat n < 2 ^ 52)%Z ->
  exists st,
    convertToMask_loop (Finite d) (Datatypes.S n) = Return st /\
    (schedule st <= 2 ^ (Z.of_nat n + 1) - 2)%Z.
Proof.
  intros Hd H0 H1 Hn.
  assert (Hd' : double (0 + d)).
  { apply double_comp with d; [ring | exact Hd]. }
  destruct (round_double Hd') as (v & Hr & Hv).
  assert (Hv0 : 0 <= v) by (rewrite Hv; lra).
  assert (Hv1 : v < 1) by (rewrite Hv; lra).
  assert (Hint : Z.gtb (int v) 0 = false).
  { rewrite (int_nonneg_floor Hv0).
    assert (Hz : (Qfloor v < 1)%Z)
      by (apply Qfloor_lt_inject; change (inject_Z 1) with 1; exact Hv1).
    destruct (Z.gtb_spec (Qfloor v) 0); [lia | reflexivity]. }
  set (st0 := {| whole_num := 0; schedule := 0; count := Finite 0 |}).
  set (st1 := {| whole_num := 0; schedule := 0; count := Finite v |}).
  assert (Hfirst : convertToMask_body (Finite d) st0 = Return st1).
  { rewrite (@convertToMask_body_finite d 0 v st0 eq_refl Hr).
    unfold st0. cbn [whole_num schedule]. rewrite Hint. reflexivity. }
  unfold convertToMask_loop. fold st0.
  rewrite (@for_range_try_step _ _ n _ _ Hfirst).
  destruct (@for_range_try_returns d n st1 v 1 H0 (Qlt_le_weak _ _ H1)
              eq_refl Hv0) as (st' & Hst').
  { change (inject_Z 1) with 1. lra. }
  { lia. }
  { assert (P53 : (2 ^ 53 = 2 * 2 ^ 52)%Z) by reflexivity. lia. }
  exists st'. split; [exact Hst'|].
  pose proof (@for_range_try_schedule (Finite d) n st1 0 ltac:(lia) eq_refl)
    as Hb.
  rewrite Hst' in Hb. destruct Hb as [_ Hle].
  eapply Z.le_trans; [exact Hle|]. unfold st1. cbn [schedule].
  rewrite Z.pow_add_r by lia. lia.
Qed.

Lemma double_three_quarters : double (3 # 4).
Proof.
  apply double_comp with (inject_Z 3 * pow2 (-2)); [reflexivity|].
  apply double_scaled; [reflexivity | discriminate | reflexivity].
Qed.

(** X2. Whatever float it is given, [convertToMask] either raises from
    [int] (an [OverflowError] when the running sum has become infinite, a
    [ValueError] when it is a NaN) or returns an even value between 0 and
    [2^33 - 2]: bit 0 is never set and nothing is set above bit 32.  For a
    binary64 number in [0,1) it returns a value below [2^32]. *)
Theorem convertToMask_range (number : float) (d : Q) :
  match convertToMask number with
  | Return mask => (0 <= mask <= 2 ^ 33 - 2)%Z /\ Z.testbit mask 0 = false
  | Raise e => e = OverflowError \/ e = ValueError
  end /\
  (double d -> 0 <= d -> d < 1 ->
   exists mask, convertToMask (Finite d) = Return mask /\ (mask < 2 ^ 32)%Z).
Proof.
  assert (E33 : (2 ^ Z.of_nat 32 * (0 + 2) - 2 = 2 ^ 33 - 2)%Z) by reflexivity.
  assert (E32 : (2 ^ (Z.of_nat 31 + 1) - 2 < 2 ^ 32)%Z) by reflexivity.
  split.
  - unfold convertToMask, convertToMask_loop.
    pose proof (@for_range_try_schedule number 32
                  {| whole_num := 0; schedule := 0; count := Finite 0 |}
                  0 ltac:(lia) eq_refl) as Hb.
    cbn [schedule] in Hb. rewrite E33 in Hb.
    destruct (for_range_try 32 (convertToMask_body number)
                {| whole_num := 0; schedule := 0; count := Finite 0 |})
      as [st|e]; [|exact Hb].
    revert Hb. generalize (schedule st). generalize (2 ^ 33)%Z. clear.
    intros a m [(q & Hq & Hs) Hle]. split; [lia|].
    rewrite Hs. apply Z.testbit_even_0.
  - intros Hd H0 H1.
    destruct (@convertToMask_loop_dim d 31 Hd H0 H1 ltac:(reflexivity))
      as (st & Hst & Hle).
    exists (schedule st). unfold convertToMask. rewrite Hst.
    split; [reflexivity|].
    revert Hle E32. generalize (schedule st).
    generalize (2 ^ (Z.of_nat 31 + 1))%Z (2 ^ 32)%Z. clear.
    intros a b m Hle E32. lia.
Qed.

Lemma convertToMask_range_witness :
  exists mask, convertToMask (Finite (3 # 4)) = Return mask /\ (mask < 2 ^ 32)%Z.
Proof.
  apply (proj2 (convertToMask_range NaN (3 # 4)) double_three_quarters).
  - unfold Qle; simpl; lia.
  - reflexivity.
Defined.

(** *** Outside the unit interval *)

Lemma int_nonpos (q : Q) : q <= 0 -> (int q <= 0)%Z.
Proof.
  destruct q as [n m]. unfold Qle, int. cbn [Qnum Qden]. intro H.
  assert (Hn : (n <= 0)%Z) by lia.
  pose proof (Z.quot_le_mono n 0 (Z.pos m) ltac:(lia) Hn) as Hq.
  rewrite Z.quot_0_l in Hq by lia. exact Hq.
Qed.

Lemma saturated_step (k : Z) :
  (0 <= k)%Z ->
  Z.shiftl (Z.lor (2 ^ (k + 1) - 2) 1) 1 = (2 ^ (k + 1 + 1) - 2)%Z.
Proof.
  intro Hk.
  assert (Hpow : (2 ^ (k + 1) = 2 * 2 ^ k)%Z).
  { rewrite Z.pow_add_r, Z.pow_1_r by lia. lia. }
  assert (Hpow' : (2 ^ (k + 1 + 1) = 2 * (2 * 2 ^ k))%Z).
  { rewrite (Z.pow_add_r 2 (k + 1) 1), Z.pow_1_r, Hpow by lia. lia. }
  assert (Hpos : (0 < 2 ^ k)%Z) by (apply Z.pow_pos_nonneg; lia).
  rewrite Hpow, Hpow'.
  replace (2 * 2 ^ k - 2)%Z with (2 * (2 ^ k - 1))%Z by lia.
  rewrite lor_double_one by lia.
  rewrite Z.shiftl_mul_pow2 by lia. rewrite Z.pow_1_r. lia.
Qed.

Lemma scaled_bound (k : Z) :
  (0 <= k <= 32)%Z -> inject_Z k * pow2 1018 < pow2 1024.
Proof.
  intro Hk. apply Qle_lt_trans with (inject_Z 32 * pow2 1018).
  - apply Qmult_le_compat_r; [|apply Qlt_le_weak, pow2_pos].
    rewrite <- Zle_Qle. lia.
  - reflexivity.
Qed.

(** The loop on a number of at least one: every round sets its slot. *)
Lemma convertToMask_loop_saturated (d : Q) (k : nat) :
  1 <= d -> d <= pow2 1018 -> (k <= 32)%nat ->
  exists c,
    convertToMask_loop (Finite d) k
    = Return {| whole_num := Z.of_nat k;
                schedule := 2 ^ (Z.of_nat k + 1) - 2;
                count := Finite c |} /\
    inject_Z (Z.of_nat k) <= c /\ c <= inject_Z (Z.of_nat k) * pow2 1018.
Proof.
  intros H1 Hbig. induction k as [|k IH]; intro Hk.
  - exists 0. split; [reflexivity|]. split; [apply Qle_refl|].
    rewrite Qmult_0_l. apply Qle_refl.
  - destruct (IH ltac:(lia)) as (c & Hl & Hlo & Hhi).
    assert (Hk1 : (0 <= Z.of_nat k + 1 <= 32)%Z) by lia.
    assert (Hn : (Z.of_nat (Datatypes.S k) = Z.of_nat k + 1)%Z) by lia.
    assert (Hdhi : double (inject_Z (Z.of_nat k + 1) * pow2 1018)).
    { apply double_scaled; [lia | discriminate |].
      rewrite Qabs_pos.
      - apply scaled_bound. exact Hk1.
      - apply Qmult_le_0_compat;
          [apply inject_Z_nonneg; lia | apply Qlt_le_weak, pow2_pos]. }
    destruct (@round_between (inject_Z (Z.of_nat k + 1))
                (inject_Z (Z.of_nat k + 1) * pow2 1018) (c + d)
                (double_inject (Z.of_nat k + 1) ltac:(lia)) Hdhi)
      as (v & Hr & Hvlo & Hvhi).
    + rewrite inject_Z_plus. change (inject_Z 1) with 1. lra.
    + rewrite inject_Z_plus. change (inject_Z 1) with 1.
      set (P := pow2 1018) in *. set (X := inject_Z (Z.of_nat k)) in *.
      assert (E : (X + 1) * P == X * P + P) by ring.
      rewrite E. lra.
    + exists v. unfold convertToMask_loop in *.
      rewrite for_range_try_succ_r, Hl.
      rewrite (@convertToMask_body_finite d c v
                 {| whole_num := Z.of_nat k;
                    schedule := 2 ^ (Z.of_nat k + 1) - 2;
                    count := Finite c |} eq_refl Hr).
      cbn [whole_num schedule].
      assert (Hv0 : 0 <= v).
      { apply Qle_trans with (inject_Z (Z.of_nat k + 1)); [|exact Hvlo].
        apply inject_Z_nonneg. lia. }
      pose proof (@Qfloor_ge_inject _ _ Hvlo) as Hfl.
      rewrite (int_nonneg_floor Hv0).
      destruct (Z.gtb_spec (Qfloor v) (Z.of_nat k)) as [_|Hle]; [|lia].
      rewrite saturated_step by lia. rewrite Hn.
      split; [reflexivity|]. split; assumption.
Qed.

(** The loop on a number of at most zero: no round sets its slot. *)
Lemma convertToMask_loop_dark (d : Q) (k : nat) :
  - pow2 1018 <= d -> d <= 0 -> (k <= 32)%nat ->
  exists c,
    convertToMask_loop (Finite d) k
    = Return {| whole_num := 0; schedule := 0; count := Finite c |} /\
    - (inject_Z (Z.of_nat k) * pow2 1018) <= c /\ c <= 0.
Proof.
  intros Hbig H0. induction k as [|k IH]; intro Hk.
  - exists 0. split; [reflexivity|]. split; [|apply Qle_refl].
    rewrite Qmult_0_l. apply Qle_refl.
  - destruct (IH ltac:(lia)) as (c & Hl & Hlo & Hhi).
    assert (Hk1 : (0 <= Z.of_nat k + 1 <= 32)%Z) by lia.
    assert (Hn : (Z.of_nat (Datatypes.S k) = Z.of_nat k + 1)%Z) by lia.
    assert (Hopp : inject_Z (- (Z.of_nat k + 1)) * pow2 1018
                   == - (inject_Z (Z.of_nat k + 1) * pow2 1018)).
    { rewrite inject_Z_opp. ring. }
    assert (Hdlo : double (inject_Z (- (Z.of_nat k + 1)) * pow2 1018)).
    { apply double_scaled; [lia | discriminate |].
      rewrite Hopp, Qabs_opp, Qabs_pos.
      - apply scaled_bound. exact Hk1.
      - apply Qmult_le_0_compat;
          [apply inject_Z_nonneg; lia | apply Qlt_le_weak, pow2_pos]. }
    destruct (@round_between (inject_Z (- (Z.of_nat k + 1)) * pow2 1018) 0
                (c + d) Hdlo double_0)
      as (v & Hr & Hvlo & Hvhi).
    + rewrite Hopp, inject_Z_plus. change (inject_Z 1) with 1.
      set (P := pow2 1018) in *. set (X := inject_Z (Z.of_nat k)) in *.
      assert (E : (X + 1) * P == X * P + P) by ring.
      rewrite E. lra.
    + lra.
    + exists v. unfold convertToMask_loop in *.
      rewrite for_range_try_succ_r, Hl.
      rewrite (@convertToMask_body_finite d c v
                 {| whole_num := 0; schedule := 0; count := Finite c |}
                 eq_refl Hr).
      cbn [whole_num schedule].
      pose proof (int_nonpos Hvhi) as Hint.
      destruct (Z.gtb_spec (int v) 0) as [Hgt|_]; [lia|].
      split; [reflexivity|]. rewrite Hn, <- Hopp. split; assumption.
Qed.

(** A number of [2^1023] or more: the sum is infinite after two rounds at
    the latest, and [int] raises. *)
Lemma convertToMask_loop_overflow (d : Q) (n : nat) :
  pow2 1023 <= d ->
  convertToMask_loop (Finite d) (Datatypes.S (Datatypes.S n))
  = Raise OverflowError.
Proof.
  intro Hd. unfold convertToMask_loop.
  set (st0 := {| whole_num := 0; schedule := 0; count := Finite 0 |}).
  assert (Hmag : magnitude (pow2 1023) 1 1023).
  { split; [split; [lia | reflexivity]|]. split; [discriminate | ring]. }
  assert (H01 : pow2 1023 <= 0 + d) by lra.
  destruct (round_lower Hmag H01) as [Hinf | (v & Hr & Hv)].
  - apply for_range_try_raise.
    exact (@convertToMask_body_overflow d 0 false st0 eq_refl Hinf).
  - rewrite (@for_range_try_step _ _ (Datatypes.S n) _ _
               (@convertToMask_body_finite d 0 v st0 eq_refl Hr)).
    apply for_range_try_raise.
    assert (Hsum : pow2 1024 <= v + d).
    { assert (E : pow2 1024 == pow2 1023 + pow2 1023) by reflexivity.
      rewrite E. lra. }
    apply convertToMask_body_overflow with (c := v) (s := false);
      [|exact (round_overflow Hsum)].
    destruct (Z.gtb (int v) (whole_num st0)); reflexivity.
Qed.

(** X3. Outside [0,1] the encoder saturates: a number of at least one sets
    all 32 slots (the returned value is [2^33 - 2]) and a number of at most
    zero sets none, as long as the 32 additions stay finite, which they do
    up to a magnitude of [2^1018]; on a number of [2^1023] or more, and on
    an infinity, [int] raises [OverflowError], on a NaN [ValueError]. *)
Theorem convertToMask_saturates (d : Q) :
  (1 <= d -> d <= pow2 1018 ->
   convertToMask (Finite d) = Return (2 ^ 33 - 2)%Z) /\
  (- pow2 1018 <= d -> d <= 0 -> convertToMask (Finite d) = Return 0%Z) /\
  (pow2 1023 <= d -> convertToMask (Finite d) = Raise OverflowError) /\
  (forall s, convertToMask (Inf s) = Raise OverflowError) /\
  convertToMask NaN = Raise ValueError.
Proof.
  split; [|split; [|split; [|split]]].
  - intros H1 Hbig.
    destruct (@convertToMask_loop_saturated d 32 H1 Hbig (le_n 32))
      as (c & Hl & _).
    unfold convertToMask. rewrite Hl. reflexivity.
  - intros Hbig H0.
    destruct (@convertToMask_loop_dark d 32 Hbig H0 (le_n 32)) as (c & Hl & _).
    unfold convertToMask. rewrite Hl. reflexivity.
  - intro Hd. unfold convertToMask.
    rewrite (@convertToMask_loop_overflow d 30 Hd). reflexivity.
  - intro s. unfold convertToMask, convertToMask_loop.
    rewrite for_range_try_raise with (e := OverflowError); reflexivity.
  - unfold convertToMask, convertToMask_loop.
    rewrite for_range_try_raise with (e := ValueError); reflexivity.
Qed.

Lemma convertToMask_saturates_witness :
  convertToMask (Finite (5 # 2)) = Return (2 ^ 33 - 2)%Z /\
  convertToMask (Finite (-1 # 3)) = Return 0%Z /\
  convertToMask (Finite (pow2 1023)) = Raise OverflowError.
Proof.
  split; [|split].
  - apply (proj1 (convertToMask_saturates (5 # 2))).
    + unfold Qle; simpl; lia.
    + apply Qlt_le_weak. reflexivity.
  - apply (proj1 (proj2 (convertToMask_saturates (-1 # 3)))).
    + apply Qlt_le_weak. reflexivity.
    + unfold Qle; simpl; lia.
  - apply (proj1 (proj2 (proj2 (convertToMask_saturates (pow2 1023))))).
    apply Qle_refl.
Defined.

(** *** Neighbouring slots *)

Lemma floors_two_steps (d : Q) (k : nat) :
  inject_Z (Z.of_nat (Datatypes.S (Datatypes.S k))) * d
  == inject_Z (Z.of_nat k) * d + (d + d) /\
  inject_Z (Z.of_nat (Datatypes.S k)) * d == inject_Z (Z.of_nat k) * d + d.
Proof.
  rewrite !Nat2Z.inj_succ. unfold Z.succ. rewrite !inject_Z_plus.
  change (inject_Z 1) with 1. split; ring.
Qed.

(** In the exact loop the set slots are spread out. *)
Lemma exact_spread (d : Q) (k : nat) :
  0 <= d -> d <= 1 -> (k < 31)%nat ->
  (d <= 1 # 2 ->
   (slot (Datatypes.S k) (exact_mask d)
    && slot (Datatypes.S (Datatypes.S k)) (exact_mask d))%bool = false) /\
  (1 # 2 <= d ->
   (slot (Datatypes.S k) (exact_mask d)
    || slot (Datatypes.S (Datatypes.S k)) (exact_mask d))%bool = true).
Proof.
  intros H0 H1 Hk.
  rewrite (@slot_crossing d k H0 H1) by lia.
  rewrite (@slot_crossing d (Datatypes.S k) H0 H1) by lia.
  destruct (floors_two_steps d k) as [E2 E1].
  rewrite E2, E1.
  set (x := inject_Z (Z.of_nat k) * d).
  pose proof (@Qfloor_step x d H0 H1) as S1.
  pose proof (@Qfloor_step (x + d) d H0 H1) as S2.
  assert (E : x + d + d == x + (d + d)) by ring.
  rewrite E in S2. clear E.
  split; intro Hd.
  - assert (Hdd0 : 0 <= d + d) by lra.
    assert (Hdd1 : d + d <= 1) by lra.
    pose proof (@Qfloor_step x (d + d) Hdd0 Hdd1) as S3.
    destruct (Z.gtb_spec (Qfloor (x + d)) (Qfloor x));
      destruct (Z.gtb_spec (Qfloor (x + (d + d))) (Qfloor (x + d)));
      try reflexivity; lia.
  - assert (Hup : (Qfloor x + 1 <= Qfloor (x + (d + d)))%Z).
    { apply Qfloor_ge_inject. rewrite inject_Z_plus.
      change (inject_Z 1) with 1.
      pose proof (Qfloor_le x). lra. }
    destruct (Z.gtb_spec (Qfloor (x + d)) (Qfloor x));
      destruct (Z.gtb_spec (Qfloor (x + (d + d))) (Qfloor (x + d)));
      try reflexivity; lia.
Qed.

(** X4. The set slots are spread out: for a duty cycle with a significand
    of at most 48 bits, no two neighbouring slots are both set when it is
    at most one half, and no two neighbouring slots are both clear when it
    is at least one half. *)
Theorem convertToMask_spread (d : Q) (k : nat) :
  significand_within 48 d -> 0 <= d -> d <= 1 -> (k < 31)%nat ->
  exists mask,
    convertToMask (Finite d) = Return mask /\
    (d <= 1 # 2 ->
     (slot (Datatypes.S k) mask
      && slot (Datatypes.S (Datatypes.S k)) mask)%bool = false) /\
    (1 # 2 <= d ->
     (slot (Datatypes.S k) mask
      || slot (Datatypes.S (Datatypes.S k)) mask)%bool = true).
Proof.
  intros Hs H0 H1 Hk. exists (exact_mask d).
  split; [apply convertToMask_exact; assumption|].
  apply exact_spread; assumption.
Qed.

Lemma convertToMask_spread_witness :
  exists mask,
    convertToMask (Finite (1 # 4)) = Return mask /\
    (slot 4 mask && slot 5 mask)%bool = false.
Proof.
  assert (Hs : significand_within 48 (1 # 4)).
  { exists 1%Z, (-2)%Z. split; [split; [lia | reflexivity]|].
    split; [discriminate | reflexivity]. }
  assert (H0 : 0 <= 1 # 4) by (unfold Qle; simpl; lia).
  assert (H1 : 1 # 4 <= 1) by (unfold Qle; simpl; lia).
  assert (Hh : 1 # 4 <= 1 # 2) by (unfold Qle; simpl; lia).
  destruct (@convertToMask_spread (1 # 4) 3 Hs H0 H1 ltac:(lia))
    as (mask & Hm & Hlow & _).
  exists mask. split; [exact Hm | exact (Hlow Hh)].
Defined.

(** ** The handlers: edge behaviour *)

Ltac crush_cases :=
  repeat (match goal with
          | |- context [match ?x with _ => _ end] =>
              lazymatch x with
              | context [match _ with _ => _ end] => fail
              | _ => destruct x eqn:?
              end
          end; cbn beta iota).

Lemma split_nonempty (sep : ascii) (s : string) : split sep s <> [].
Proof.
  destruct s as [|c rest]; cbn [split]; [discriminate|].
  destruct (Ascii.eqb c sep); [discriminate|].
  destruct (split sep rest); discriminate.
Qed.

Lemma split_no_sep (sep : ascii) (s : string) :
  has_char sep s = false -> split sep s = [s].
Proof.
  induction s as [|c rest IH]; cbn [has_char split]; intro H.
  - reflexivity.
  - apply Bool.orb_false_iff in H. destruct H as [Hc Hr].
    rewrite Hc, (IH Hr). reflexivity.
Qed.

Lemma int_of_string_raises (s : string) (e : PyExc) :
  int_of_string s = Raise e -> e = ValueError.
Proof.
  unfold int_of_string.
  destruct (match rstrip_space (lstrip_space s) with
            | String "+"%char rest => unsigned_literal rest
            | String "-"%char rest => option_map Z.opp (unsigned_literal rest)
            | _ => unsigned_literal (rstrip_space (lstrip_space s))
            end); [discriminate|].
  intro H. injection H as H. symmetry. exact H.
Qed.

Section Further.

Variable pinproc_decode : Z -> string -> Z.




(** X8. A composite LED target without a dash never drives an LED: after
    the leading marker is stripped, [int] of the whole remainder is tried
    first, so the handler raises [ValueError] when that is not a number and
    [IndexError] (no output part) when it is; the instance is untouched.
    (The scaling of the payload comes before both, and raises
    [OverflowError] when the product is beyond the binary64 range, which no
    payload within [0,1] is.) *)
Theorem process_LED_no_dash (LED : string) (d : Q) (rest : list Q)
    (self : OSC_Mode) :
  startswith "+" LED = true ->
  has_char "-" (strip "+" LED) = false ->
  process_LED LED (d :: rest) self
  = (Raise (match int_times_255 d with
            | Raise e => e
            | Return _ =>
                match int_of_string (strip "+" LED) with
                | Return _ => IndexError
                | Raise _ => ValueError
                end
            end), self) /\
  (0 <= d -> d <= 1 -> exists b, int_times_255 d = Return b).
Proof.
  intros Hplus Hdash. split.
  - unfold process_LED. rewrite Hplus.
    rewrite (split_no_sep _ _ Hdash).
    unfold index. cbn [nth_error]. run.
    destruct (int_times_255 d) as [b|e]; [|reflexivity].
    destruct (int_of_string (strip "+" LED)) as [board|e] eqn:Hb.
    + reflexivity.
    + rewrite (int_of_string_raises _ Hb). reflexivity.
  - intros H0 H1. destruct (int_times_255_unit H0 H1) as (b & Hb & _).
    exists b. exact Hb.
Qed.

(** X9. An address with no ["/"] raises [IndexError], and so does a
    non-refresh address that stops after its category: in both cases the
    exception comes before the binding step and the instance is untouched,
    so such a message does not bind an unbound session. *)
Theorem process_message_malformed_address (addr tags : string)
    (data : list Q) (client_address : Endpoint) (self : OSC_Mode) :
  has_char "/" addr = false ->
  process_message pinproc_decode addr tags data client_address self
  = (Raise IndexError, self) /\
  (addr <> "refresh" ->
   process_message pinproc_decode (String "/" addr) tags data client_address
     self
   = (Raise IndexError, self)).
Proof.
  intro Hno. split.
  - unfold process_message. rewrite (split_no_sep _ _ Hno). reflexivity.
  - intro Hnr. apply String.eqb_neq in Hnr.
    unfold process_message. cbn [split Ascii.eqb Bool.eqb].
    rewrite (split_no_sep _ _ Hno).
    unfold index. cbn [nth_error]. run. rewrite Hnr. reflexivity.
Qed.

Lemma bind_client_returns (client_address : Endpoint) (self : OSC_Mode) :
  result (bind_client client_address) self = Return tt /\
  game (exec (bind_client client_address) self) = game self /\
  network (exec (bind_client client_address) self) = network self /\
  client_needs_sync (exec (bind_client client_address) self)
  = client_needs_sync self.
Proof.
  unfold result, exec, bind_client, setup_OSC_client. run.
  destruct (do_we_have_a_client self); cbn [negb]; [repeat split|].
  destruct (clientIP_set (clientIP self)); cbn [negb]; repeat split.
Qed.

(** X10. A message whose category is none of [refresh], [sw], [lamp],
    [led], [LED], [coil] is accepted silently: it raises nothing, touches
    no device, queue or log and sends nothing; all it can do is bind an
    unbound session, and a bound session is left exactly as it was. *)
Theorem process_message_unknown_category (addr tags : string)
    (data : list Q) (client_address : Endpoint) (cat name_ : string)
    (self : OSC_Mode) :
  index (split "/" addr) 1 = Return cat ->
  index (split "/" addr) 2 = Return name_ ->
  ~ In cat ["refresh"; "sw"; "lamp"; "led"; "LED"; "coil"] ->
  let self' :=
    exec (process_message pinproc_decode addr tags data client_address) self in
  result (process_message pinproc_decode addr tags data client_address) self
  = Return tt /\
  game self' = game self /\
  network self' = network self /\
  (do_we_have_a_client self = true -> self' = self) /\
  (do_we_have_a_client self = false -> do_we_have_a_client self' = true).
Proof.
  intros Hcat Hname Hnot self'.
  assert (Hneq : forall c, In c ["refresh"; "sw"; "lamp"; "led"; "LED"; "coil"]
                           -> String.eqb cat c = false).
  { intros c Hc. apply String.eqb_neq. intro E. subst c. contradiction. }
  assert (Hrun : process_message pinproc_decode addr tags data client_address
                   self
                 = (bind_client client_address ;; ret tt) self).
  { rewrite process_message_unfold with (cat := cat) (name_ := name_);
      [ | exact Hcat | apply Hneq; cbn; tauto | exact Hname].
    unfold handler.
    rewrite (Hneq "sw"), (Hneq "lamp"), (Hneq "led"), (Hneq "LED"),
      (Hneq "coil") by (cbn; tauto).
    reflexivity. }
  unfold self', exec, result. rewrite Hrun. clear Hrun.
  destruct (bind_client_returns client_address self) as (Hr & Hg & Hn & _).
  unfold result, exec in Hr, Hg, Hn. unfold bind, ret.
  destruct (bind_client client_address self) as [o s1] eqn:Hbc.
  cbn [fst snd] in *. subst o.
  split; [reflexivity|]. split; [exact Hg|]. split; [exact Hn|]. split.
  - intro Hb. rewrite (@bind_client_bound client_address self Hb) in Hbc.
    injection Hbc as <-. reflexivity.
  - intro Hb.
    destruct (@bind_client_unbound client_address self Hb)
      as (s2 & Hrun2 & _ & _ & _ & Hd & _).
    rewrite Hrun2 in Hbc. injection Hbc as <-. exact Hd.
Qed.

(** *** What a message or a tick leaves alone *)

Ltac footprint :=
  unfold exec; run; crush_cases; reflexivity.

Lemma process_switch_footprint (switchname : string) (data : list Q)
    (self : OSC_Mode) :
  let self' := exec (process_switch pinproc_decode switchname data) self in
  network self' = network self /\
  driver (game self') = driver (game self) /\
  configuration self' = configuration self.
Proof.
  cbv zeta. unfold configuration, process_switch, switch_number_of.
  repeat split; footprint.
Qed.

Lemma process_lamp_footprint (lampname : string) (data : list Q)
    (self : OSC_Mode) :
  let self' := exec (process_lamp lampname data) self in
  network self' = network self /\
  key_events (game self') = key_events (game self) /\
  configuration self' = configuration self.
Proof.
  cbv zeta. unfold configuration, process_lamp. repeat split; footprint.
Qed.

Lemma process_coil_footprint (coilname : string) (data : list Q)
    (self : OSC_Mode) :
  let self' := exec (process_coil coilname data) self in
  network self' = network self /\
  key_events (game self') = key_events (game self) /\
  configuration self' = configuration self.
Proof.
  cbv zeta. unfold configuration, process_coil. repeat split; footprint.
Qed.

Lemma process_LED_footprint (LED : string) (data : list Q) (self : OSC_Mode) :
  let self' := exec (process_LED LED data) self in
  key_events (game self') = key_events (game self) /\
  configuration self' = configuration self.
Proof.
  cbv zeta. unfold configuration, process_LED, client_send_OSC_message.
  repeat split; footprint.
Qed.

Lemma bind_client_configuration (client_address : Endpoint) (self : OSC_Mode) :
  configuration (exec (bind_client client_address) self) = configuration self.
Proof.
  unfold configuration, bind_client, setup_OSC_client. footprint.
Qed.

Lemma handler_configuration (cat name_ : string) (data : list Q)
    (self : OSC_Mode) :
  configuration (exec (handler pinproc_decode cat name_ data) self)
  = configuration self.
Proof.
  unfold handler.
  destruct (String.eqb cat "sw"); [apply process_switch_footprint|].
  destruct (String.eqb cat "lamp"); [apply process_lamp_footprint|].
  destruct (String.eqb cat "led" || String.eqb cat "LED")%bool;
    [apply process_LED_footprint|].
  destruct (String.eqb cat "coil"); [apply process_coil_footprint|].
  reflexivity.
Qed.

(** How [process_message] runs, by the shape of its address. *)
Lemma process_message_cases (addr tags : string) (data : list Q)
    (client_address : Endpoint) (self : OSC_Mode) :
  (exists e,
     process_message pinproc_decode addr tags data client_address self
     = (Raise e, self)) \/
  (category_is addr "refresh" /\
   process_message pinproc_decode addr tags data client_address self
   = (Return tt, set_client_needs_sync true self)) \/
  (exists cat name_,
     category_is addr cat /\ String.eqb cat "refresh" = false /\
     process_message pinproc_decode addr tags data client_address self
     = (bind_client client_address ;; handler pinproc_decode cat name_ data)
         self).
Proof.
  destruct (index (split "/" addr) 1) as [cat|e] eqn:Hcat.
  - destruct (String.eqb cat "refresh") eqn:Hnr.
    + apply String.eqb_eq in Hnr. subst cat. right. left.
      split; [exact Hcat|]. apply process_message_refresh. exact Hcat.
    + destruct (index (split "/" addr) 2) as [name_|e] eqn:Hname.
      * right. right. exists cat, name_. split; [exact Hcat|].
        split; [exact Hnr|].
        apply process_message_unfold; assumption.
      * left. exists e. unfold process_message.
        unfold bind at 1, lift at 1. rewrite Hcat, Hnr.
        unfold bind at 1, lift at 1. rewrite Hname. reflexivity.
  - left. exists e. unfold process_message.
    unfold bind at 1, lift at 1. rewrite Hcat. reflexivity.
Qed.

Lemma bind_then_handler (client_address : Endpoint) (cat name_ : string)
    (data : list Q) (self : OSC_Mode) :
  exec (bind_client client_address ;; handler pinproc_decode cat name_ data)
    self
  = exec (handler pinproc_decode cat name_ data)
      (exec (bind_client client_address) self).
Proof.
  pose proof (proj1 (bind_client_returns client_address self)) as Hr.
  unfold exec, result, bind in *.
  destruct (bind_client client_address self) as [o s1].
  cbn [fst snd] in *. subst o. reflexivity.
Qed.

(** X11. What an inbound message can touch depends on its category alone:
    only an [led]/[LED] message sends anything, only an [sw] message queues
    a switch event, and neither an [sw] nor a [refresh] message makes a
    driver call. *)
Theorem process_message_footprint (addr tags : string) (data : list Q)
    (client_address : Endpoint) (self : OSC_Mode) :
  let self' :=
    exec (process_message pinproc_decode addr tags data client_address) self in
  (~ category_is addr "led" -> ~ category_is addr "LED" ->
   network self' = network self) /\
  (~ category_is addr "sw" ->
   key_events (game self') = key_events (game self)) /\
  (category_is addr "sw" \/ category_is addr "refresh" ->
   driver (game self') = driver (game self)).
Proof.
  intro self'. unfold self'. clear self'.
  destruct (process_message_cases addr tags data client_address self)
    as [(e & Hrun) | [(Hcat & Hrun) | (cat & name_ & Hcat & Hnr & Hrun)]].
  - unfold exec. rewrite Hrun. repeat split.
  - unfold exec. rewrite Hrun. repeat split.
  - unfold exec at 1 2 3. rewrite Hrun.
    fold (exec (bind_client client_address ;;
                handler pinproc_decode cat name_ data) self).
    rewrite bind_then_handler.
    destruct (bind_client_returns client_address self) as (_ & Hg & Hn & _).
    set (s1 := exec (bind_client client_address) self) in *. clearbody s1.
    rewrite <- Hn, <- Hg. unfold category_is in *.
    unfold handler.
    destruct (String.eqb cat "sw") eqn:Esw.
    { apply String.eqb_eq in Esw. subst cat.
      destruct (process_switch_footprint name_ data s1) as (Hn1 & Hd1 & _).
      split; [intros; exact Hn1|]. split; [intro H; contradiction|].
      intros _. exact Hd1. }
    assert (Hnsw : index (split "/" addr) 1 <> Return "sw").
    { intro H. rewrite Hcat in H. injection H as H. subst cat.
      discriminate Esw. }
    assert (Hnrf : index (split "/" addr) 1 <> Return "refresh").
    { intro H. rewrite Hcat in H. injection H as H. subst cat.
      discriminate Hnr. }
    assert (Hdrv : index (split "/" addr) 1 = Return "sw" \/
                   index (split "/" addr) 1 = Return "refresh" ->
                   forall x y : list DriverCall, x = y) by tauto.
    destruct (String.eqb cat "lamp").
    { destruct (process_lamp_footprint name_ data s1) as (Hn1 & Hk1 & _).
      split; [intros; exact Hn1|]. split; [intros; exact Hk1|].
      intro H. apply (Hdrv H). }
    destruct (String.eqb cat "led" || String.eqb cat "LED")%bool eqn:Eled.
    { destruct (process_LED_footprint name_ data s1) as (Hk1 & _).
      split.
      - intros Hl HL. exfalso.
        apply Bool.orb_true_iff in Eled.
        destruct Eled as [E|E]; apply String.eqb_eq in E; subst cat; auto.
      - split; [intros; exact Hk1|]. intro H. apply (Hdrv H). }
    destruct (String.eqb cat "coil").
    { destruct (process_coil_footprint name_ data s1) as (Hn1 & Hk1 & _).
      split; [intros; exact Hn1|]. split; [intros; exact Hk1|].
      intro H. apply (Hdrv H). }
    split; [reflexivity|]. split; [reflexivity|]. intro H. apply (Hdrv H).
Qed.

(** *** Observations kept by a method *)

Section Keeps.

Variable B : Type.
Variable f : OSC_Mode -> B.

Lemma keeps_ret (A : Type) (a : A) : keeps f (ret a).
Proof. intro self. reflexivity. Qed.

Lemma keeps_lift (A : Type) (o : outcome A) : keeps f (lift o).
Proof. intro self. reflexivity. Qed.

Lemma keeps_modify (g : OSC_Mode -> OSC_Mode) :
  (forall self, f (g self) = f self) -> keeps f (modify g).
Proof. intros H self. apply H. Qed.

Lemma keeps_bind (A C : Type) (m : M A) (k : A -> M C) :
  keeps f m -> (forall a, keeps f (k a)) -> keeps f (bind m k).
Proof.
  intros Hm Hk self. specialize (Hm self). unfold exec, bind in *.
  destruct (m self) as [[a|e] s1]; cbn [snd] in *.
  - rewrite <- Hm. apply (Hk a s1).
  - exact Hm.
Qed.

Lemma keeps_get (C : Type) (k : OSC_Mode -> M C) :
  (forall s, keeps f (k s)) -> keeps f (bind get k).
Proof. intros Hk self. apply (Hk self self). Qed.

Lemma keeps_for_each (A : Type) (l : list A) (body : A -> M unit) :
  (forall x, keeps f (body x)) -> keeps f (for_each l body).
Proof.
  intro Hbody. induction l as [|x l IH]; cbn [for_each].
  - apply keeps_ret.
  - apply keeps_bind; [apply Hbody | intros _; exact IH].
Qed.

End Keeps.

Lemma client_send_OSC_message_keeps (B : Type) (f : OSC_Mode -> B)
    (category name_ : string) (data : Payload) :
  (forall v s, f (set_OSC_message v s) = f s) ->
  (forall r s, f (logger_append r s) = f s) ->
  (forall v s, f (set_network v s) = f s) ->
  keeps f (client_send_OSC_message category name_ data).
Proof.
  intros Hm Hl Hn. unfold client_send_OSC_message.
  apply keeps_bind; [apply keeps_modify; apply Hm|]. intros _.
  apply keeps_bind; [apply keeps_modify; apply Hl|]. intros _.
  apply keeps_get. intro s. destruct (OSC_client s).
  - apply keeps_modify. apply Hn.
  - apply keeps_lift.
Qed.

Lemma mode_tick_keeps (B : Type) (f : OSC_Mode -> B) (time_now : Q) :
  (forall v s, f (set_OSC_message v s) = f s) ->
  (forall r s, f (logger_append r s) = f s) ->
  (forall v s, f (set_network v s) = f s) ->
  (forall v s, f (set_client_needs_sync v s) = f s) ->
  (forall v s, f (set_last_loop_time v s) = f s) ->
  keeps f (mode_tick time_now).
Proof.
  intros Hm Hl Hn Hs Ht. unfold mode_tick.
  apply keeps_get. intro s. destruct (do_we_have_a_client s);
    [|apply keeps_ret].
  apply keeps_bind.
  - destruct (client_needs_sync s); [|apply keeps_ret].
    unfold client_update_all, client_update_all_switches.
    apply keeps_bind; [|intros _; apply keeps_modify; apply Hs].
    apply keeps_get. intro s1. apply keeps_for_each. intro sw.
    apply client_send_OSC_message_keeps; assumption.
  - intros _. apply keeps_get. intro s1.
    apply keeps_bind; [|intros _; apply keeps_modify; apply Ht].
    apply keeps_for_each. intro sw. unfold tick_switch.
    destruct (last_changed_set (last_changed sw)); [|apply keeps_ret].
    apply keeps_get. intro s2.
    destruct (last_changed sw) as [c|]; [|apply keeps_ret].
    destruct (gt c (last_loop_time s2)); [|apply keeps_ret].
    apply client_send_OSC_message_keeps; assumption.
Qed.

Lemma process_message_configuration (addr tags : string) (data : list Q)
    (client_address : Endpoint) :
  keeps configuration
    (process_message pinproc_decode addr tags data client_address).
Proof.
  intro self.
  destruct (process_message_cases addr tags data client_address self)
    as [(e & Hrun) | [(Hcat & Hrun) | (cat & name_ & Hcat & Hnr & Hrun)]].
  - unfold exec. rewrite Hrun. reflexivity.
  - unfold exec. rewrite Hrun. reflexivity.
  - unfold exec. rewrite Hrun.
    fold (exec (bind_client client_address ;;
                handler pinproc_decode cat name_ data) self).
    rewrite bind_then_handler, handler_configuration.
    apply bind_client_configuration.
Qed.

Lemma run_configuration (es : list Stimulus) (self : OSC_Mode) :
  configuration (run pinproc_decode es self) = configuration self.
Proof.
  revert self. induction es as [|e es IH]; intro self; cbn [run].
  - reflexivity.
  - rewrite IH. destruct e as [addr tags data client_address | time_now];
      cbn [deliver].
    + apply process_message_configuration.
    + apply mode_tick_keeps; intros; reflexivity.
Qed.

(** X12. Neither a message nor a tick ever changes what was fixed when the
    mode was created: the server address and port, the client port, the
    list of initially closed switches and the game's device registries stay
    as they were along any sequence of messages and ticks, whether the
    calls return or raise. *)
Theorem run_keeps_configuration (es : list Stimulus) (self : OSC_Mode) :
  configuration (run pinproc_decode es self) = configuration self.
Proof. apply run_configuration. Qed.

(** *** The synchroniser between resyncs *)

Lemma filter_settled (t : Q) (l : list Switch) :
  Forall (settled_by t) l -> filter (changed_since t) l = [].
Proof.
  induction 1 as [|sw l Hsw _ IH]; cbn [filter]; [reflexivity|].
  rewrite IH. unfold changed_since, settled_by in *.
  destruct (last_changed sw) as [c|]; [|reflexivity].
  specialize (Hsw c eq_refl). apply Qle_bool_iff in Hsw.
  unfold gt. rewrite Hsw. cbn [negb].
  rewrite Bool.andb_false_r. reflexivity.
Qed.

(** X13. With no resync pending, a tick of a bound session sends exactly
    one ["sw"] update, to the bound client, for each switch whose last
    change is set and later than the previous tick, in registry order, and
    nothing else; it records the clock reading, leaves the sync flag clear
    and touches neither the event queue nor any device. *)
Theorem mode_tick_change_detection (peer : Endpoint) (time_now : Q)
    (self : OSC_Mode) :
  do_we_have_a_client self = true ->
  OSC_client self = Some peer ->
  client_needs_sync self = false ->
  let self' := exec (mode_tick time_now) self in
  result (mode_tick time_now) self = Return tt /\
  network self'
  = (network self
     ++ map (pair peer)
          (map sw_message
             (filter (changed_since (last_loop_time self))
                (switches (game self)))))%list /\
  last_loop_time self' = time_now /\
  client_needs_sync self' = false /\
  key_events (game self') = key_events (game self) /\
  driver (game self') = driver (game self).
Proof.
  intros Hb Hc Hs self'. unfold self', exec, result.
  rewrite mode_tick_bound with (peer := peer) by assumption.
  unfold after_resync. rewrite Hs. cbn [fst snd].
  destruct (after_sends_frame peer
              (map sw_message
                 (filter (changed_since (last_loop_time self))
                    (switches (game self)))) self)
    as (_ & Hs' & _ & _ & Hk & Hd & Hn).
  cbn [network last_loop_time client_needs_sync game set_last_loop_time].
  rewrite Hn, Hs', Hk, Hd, Hs. repeat split.
Qed.

(** X14. Right after a tick of a bound session that recorded time [t], if
    no switch has a last change later than [t], the next tick sends
    nothing: all it does is record its own clock reading. *)
Theorem mode_tick_quiescent (peer : Endpoint) (t t' : Q) (self : OSC_Mode) :
  do_we_have_a_client self = true ->
  OSC_client self = Some peer ->
  Forall (settled_by t) (switches (game self)) ->
  mode_tick t' (exec (mode_tick t) self)
  = (Return tt, set_last_loop_time t' (exec (mode_tick t) self)).
Proof.
  intros Hb Hc Hset.
  assert (Hkb : do_we_have_a_client (exec (mode_tick t) self) = true).
  { rewrite (@mode_tick_keeps _ do_we_have_a_client t) by (intros; reflexivity).
    exact Hb. }
  assert (Hkc : OSC_client (exec (mode_tick t) self) = Some peer).
  { rewrite (@mode_tick_keeps _ OSC_client t) by (intros; reflexivity).
    exact Hc. }
  assert (Hkw : switches (game (exec (mode_tick t) self))
                = switches (game self)).
  { apply (@mode_tick_keeps _ (fun s => switches (game s)) t);
      intros; reflexivity. }
  assert (Hflag : client_needs_sync (exec (mode_tick t) self) = false).
  { unfold exec. rewrite mode_tick_bound with (peer := peer) by assumption.
    cbn [snd client_needs_sync set_last_loop_time].
    destruct (after_sends_frame peer
                (map sw_message
                   (filter (changed_since (last_loop_time self))
                      (switches (game self)))) (after_resync peer self))
      as (_ & Hs' & _).
    rewrite Hs'. unfold after_resync.
    destruct (client_needs_sync self) eqn:E; [reflexivity | exact E]. }
  assert (Htime : last_loop_time (exec (mode_tick t) self) = t).
  { unfold exec. rewrite mode_tick_bound with (peer := peer) by assumption.
    reflexivity. }
  set (s1 := exec (mode_tick t) self) in *. clearbody s1.
  rewrite mode_tick_bound with (peer := peer) by assumption.
  unfold after_resync. rewrite Hflag, Htime, Hkw.
  rewrite (filter_settled Hset). reflexivity.
Qed.

(** *** Start-up *)

Lemma resolved_number_same (s1 s2 : OSC_Mode) (switchname : string) :
  switches (game s1) = switches (game s2) ->
  machine_type (game s1) = machine_type (game s2) ->
  resolved_number pinproc_decode s1 switchname
  = resolved_number pinproc_decode s2 switchname.
Proof. intros Hw Hm. unfold resolved_number. rewrite Hw, Hm. reflexivity. Qed.

Lemma for_each_closed_switches (self0 : OSC_Mode) (l : list string)
    (self : OSC_Mode) :
  switches (game self) = switches (game self0) ->
  machine_type (game self) = machine_type (game self0) ->
  exists self',
    for_each l
      (fun switchname =>
         switch_number <- switch_number_of pinproc_decode switchname ;;
         modify (key_events_append
                   (mkEvent EventTypeSwitchClosedDebounced switch_number)))
      self
    = (Return tt, self') /\
    key_events (game self')
    = (key_events (game self)
       ++ map (closed_event pinproc_decode self0) l)%list /\
    session self' = session self /\
    driver (game self') = driver (game self) /\
    network self' = network self.
Proof.
  revert self. induction l as [|n l IH]; intros self Hw Hm.
  - exists self. cbn [for_each map]. rewrite app_nil_r. repeat split.
  - cbn [for_each map]. unfold bind at 1 2.
    rewrite switch_number_of_resolved. unfold modify at 1.
    rewrite (resolved_number_same self self0 n Hw Hm).
    destruct (IH (key_events_append (closed_event pinproc_decode self0 n) self))
      as (s' & Hrun & Hk & Hsess & Hd & Hn); [exact Hw | exact Hm |].
    exists s'. unfold closed_event in *. rewrite Hrun.
    split; [reflexivity|]. rewrite Hk, Hsess, Hd, Hn.
    cbn [key_events game key_events_append set_game].
    rewrite <- app_assoc. repeat split.
Qed.

Lemma getitem_raises (A : Type) (d : list (string * A)) (key : string)
    (e : PyExc) :
  getitem d key = Raise e -> e = KeyError.
Proof.
  induction d as [|[k v] d IH]; cbn [getitem].
  - congruence.
  - destruct (String.eqb k key); [discriminate | exact IH].
Qed.

(** X15. Start-up subscripts the configuration for ['pinproc_class']
    without a guard: when the entry is missing it raises [KeyError] and
    nothing else happens.  When the entry names the simulated P-ROC,
    start-up queues exactly one closed event per name in [closed_switches],
    in order, each with the number the name resolves to (registry first,
    [pinproc.decode] otherwise), raises nothing, sends nothing and marks
    the client for resync; with any other driver class it does nothing at
    all. *)
Theorem set_initial_closed_switches_queue
    (config_values : list (string * string)) (self : OSC_Mode) :
  let self' :=
    exec (set_initial_closed_switches pinproc_decode config_values) self in
  match getitem config_values "pinproc_class" with
  | Raise e =>
      e = KeyError /\
      set_initial_closed_switches pinproc_decode config_values self
      = (Raise KeyError, self)
  | Return pinproc_class =>
      result (set_initial_closed_switches pinproc_decode config_values) self
      = Return tt /\
      (pinproc_class = "procgame.fakepinproc.FakePinPROC" ->
       key_events (game self')
       = (key_events (game self)
          ++ map (closed_event pinproc_decode self)
               (closed_switches self))%list /\
       client_needs_sync self' = true /\
       binding self' = binding self /\
       network self' = network self) /\
      (pinproc_class <> "procgame.fakepinproc.FakePinPROC" -> self' = self)
  end.
Proof.
  intro self'. unfold self', exec, result. clear self'.
  destruct (getitem config_values "pinproc_class") as [pinproc_class|e] eqn:Hg.
  2:{ pose proof (getitem_raises _ _ Hg) as He. subst e.
      split; [reflexivity|].
      apply set_initial_closed_switches_KeyError. exact Hg. }
  destruct (String.eqb_spec pinproc_class "procgame.fakepinproc.FakePinPROC")
    as [E|E].
  - destruct (@for_each_closed_switches self (closed_switches self) self
                eq_refl eq_refl) as (s' & Hrun & Hk & Hsess & _ & Hn).
    assert (Hall : set_initial_closed_switches pinproc_decode config_values
                     self
                   = (Return tt, set_client_needs_sync true s')).
    { unfold set_initial_closed_switches.
      unfold bind at 1, lift at 1. rewrite Hg. cbn beta iota.
      rewrite (proj2 (String.eqb_eq _ _) E).
      unfold bind at 1, get at 1. cbn beta iota.
      unfold bind at 1. rewrite Hrun. reflexivity. }
    rewrite Hall. cbn [fst snd].
    assert (Hbind : binding s' = binding self)
      by (unfold session in Hsess; congruence).
    split; [reflexivity|]. split; [|intro Hne; contradiction].
    intros _. split; [exact Hk|]. split; [reflexivity|].
    split; [exact Hbind | exact Hn].
  - rewrite set_initial_closed_switches_real with (pinproc_class := pinproc_class)
      by (try exact Hg; apply String.eqb_neq; exact E).
    split; [reflexivity|]. split; [intro He; contradiction | reflexivity].
Qed.

(** *** Sequences of messages and ticks *)

Lemma process_message_split (addr tags : string) (data : list Q)
    (client_address : Endpoint) (cat name_ : string) (self : OSC_Mode) :
  index (split "/" addr) 1 = Return cat ->
  String.eqb cat "refresh" = false ->
  index (split "/" addr) 2 = Return name_ ->
  process_message pinproc_decode addr tags data client_address self
  = handler pinproc_decode cat name_ data
      (exec (bind_client client_address) self).
Proof.
  intros Hcat Hnr Hname.
  rewrite process_message_unfold with (cat := cat) (name_ := name_)
    by assumption.
  pose proof (proj1 (bind_client_returns client_address self)) as Hr.
  unfold exec, result, bind in *.
  destruct (bind_client client_address self) as [o s1].
  cbn [fst snd] in *. subst o. reflexivity.
Qed.

Lemma bind_client_last_loop_time (client_address : Endpoint)
    (self : OSC_Mode) :
  last_loop_time (exec (bind_client client_address) self)
  = last_loop_time self.
Proof. unfold bind_client, setup_OSC_client. footprint. Qed.

Lemma process_message_last_loop_time (addr tags : string) (data : list Q)
    (client_address : Endpoint) :
  keeps last_loop_time
    (process_message pinproc_decode addr tags data client_address).
Proof.
  intro self.
  destruct (process_message_cases addr tags data client_address self)
    as [(e & Hrun) | [(Hcat & Hrun) | (cat & name_ & Hcat & Hnr & Hrun)]].
  - unfold exec. rewrite Hrun. reflexivity.
  - unfold exec. rewrite Hrun. reflexivity.
  - unfold exec. rewrite Hrun.
    fold (exec (bind_client client_address ;;
                handler pinproc_decode cat name_ data) self).
    rewrite bind_then_handler.
    pose proof (handler_frame pinproc_decode cat name_ data
                  (exec (bind_client client_address) self)) as Hf.
    unfold session in Hf.
    assert (Ht : last_loop_time
                   (exec (handler pinproc_decode cat name_ data)
                      (exec (bind_client client_address) self))
                 = last_loop_time (exec (bind_client client_address) self))
      by congruence.
    rewrite Ht. apply bind_client_last_loop_time.
Qed.

Lemma clientPort_configuration (s1 s2 : OSC_Mode) :
  configuration s1 = configuration s2 ->
  clientPort s1 = clientPort s2 /\ switches (game s1) = switches (game s2).
Proof. unfold configuration. intro H. split; congruence. Qed.

Lemma process_message_well_bound (addr tags : string) (data : list Q)
    (client_address : Endpoint) (self : OSC_Mode) :
  well_bound self ->
  well_bound
    (exec (process_message pinproc_decode addr tags data client_address) self).
Proof.
  intro Hwb.
  destruct (clientPort_configuration
              (process_message_configuration addr tags data client_address
                 self)) as [Hport _].
  destruct (do_we_have_a_client self) eqn:Hb.
  - destruct (Hwb Hb) as (ip & Hip & Ht & Hc).
    pose proof (@process_message_bound_binding pinproc_decode addr tags data
                  client_address self Hb) as H.
    unfold binding in H. intros _. exists ip. rewrite Hport.
    repeat split; congruence.
  - destruct (process_message_cases addr tags data client_address self)
      as [(e & Hrun) | [(Hcat & Hrun) | (cat & name_ & Hcat & Hnr & Hrun)]].
    + unfold exec. rewrite Hrun. exact Hwb.
    + unfold exec. rewrite Hrun. intro H. cbn in H. congruence.
    + assert (Hex : exec (process_message pinproc_decode addr tags data
                            client_address) self
                    = exec (handler pinproc_decode cat name_ data)
                        (exec (bind_client client_address) self)).
      { unfold exec at 1. rewrite Hrun. apply bind_then_handler. }
      rewrite Hex in *. clear Hex Hrun.
      destruct (@bind_client_unbound client_address self Hb)
        as (s1 & Hrun1 & Ht & Hc & Hip & Hd & _).
      assert (Hs1 : exec (bind_client client_address) self = s1)
        by (unfold exec; rewrite Hrun1; reflexivity).
      rewrite Hs1 in *.
      pose proof (handler_frame pinproc_decode cat name_ data s1) as Hf.
      unfold session, binding in Hf.
      intros _. exists (bound_host self client_address). rewrite Hport.
      repeat split; congruence.
Qed.

Lemma mode_tick_well_bound (time_now : Q) (self : OSC_Mode) :
  well_bound self -> well_bound (exec (mode_tick time_now) self).
Proof.
  intro Hwb.
  pose proof (@mode_tick_keeps _ binding time_now
                ltac:(intros; reflexivity) ltac:(intros; reflexivity)
                ltac:(intros; reflexivity) ltac:(intros; reflexivity)
                ltac:(intros; reflexivity) self) as Hbind.
  pose proof (@mode_tick_keeps _ clientPort time_now
                ltac:(intros; reflexivity) ltac:(intros; reflexivity)
                ltac:(intros; reflexivity) ltac:(intros; reflexivity)
                ltac:(intros; reflexivity) self) as Hport.
  unfold binding in Hbind. intro Hb.
  assert (Hb0 : do_we_have_a_client self = true) by congruence.
  destruct (Hwb Hb0) as (ip & Hip & Ht & Hc).
  exists ip. rewrite Hport. repeat split; congruence.
Qed.

Lemma run_well_bound (es : list Stimulus) (self : OSC_Mode) :
  well_bound self -> well_bound (run pinproc_decode es self).
Proof.
  revert self. induction es as [|e es IH]; intros self Hwb; cbn [run].
  - exact Hwb.
  - apply IH. destruct e; cbn [deliver].
    + apply process_message_well_bound. exact Hwb.
    + apply mode_tick_well_bound. exact Hwb.
Qed.

(** X16. From a freshly created mode, after any sequence of messages and
    ticks (each call running to its end before the next), a session that
    counts as bound has [clientIP], [clientTuple] and the connected client
    in agreement on one address with the configured client port, and a tick
    never raises. *)
Theorem run_from_init (es : list Stimulus) (hostname_ip : string) (g : Game)
    (serverIP_arg : option string) (serverPort_arg : Z)
    (clientIP_arg : option string) (clientPort_arg : Z)
    (closed_switches_arg : list string) (time_now : Q) :
  let self :=
    run pinproc_decode es
      (init hostname_ip g serverIP_arg serverPort_arg clientIP_arg
         clientPort_arg closed_switches_arg) in
  (do_we_have_a_client self = true ->
   exists ip,
     clientIP self = Some ip /\
     clientTuple self = Some (ip, clientPort_arg) /\
     OSC_client self = Some (ip, clientPort_arg)) /\
  result (mode_tick time_now) self = Return tt.
Proof.
  intro self.
  assert (Hwb : well_bound self).
  { apply run_well_bound. intro H. discriminate H. }
  assert (Hport : clientPort self = clientPort_arg).
  { unfold self.
    destruct (clientPort_configuration
                (run_configuration es
                   (init hostname_ip g serverIP_arg serverPort_arg
                      clientIP_arg clientPort_arg closed_switches_arg)))
      as [Hp _].
    exact Hp. }
  clearbody self. split.
  - intro Hb. destruct (Hwb Hb) as (ip & Hip & Ht & Hc).
    exists ip. rewrite <- Hport. repeat split; assumption.
  - unfold result. destruct (do_we_have_a_client self) eqn:Hb.
    + destruct (Hwb Hb) as (ip & _ & _ & Hc).
      rewrite mode_tick_bound with (peer := (ip, clientPort self))
        by assumption.
      reflexivity.
    + rewrite mode_tick_unbound by exact Hb. reflexivity.
Qed.

(** X17. The first client wins for good: once a session is bound, no
    sequence of messages and ticks, from whatever senders, changes
    [clientIP], [clientTuple], the connected client or the bound flag. *)
Theorem run_keeps_binding (es : list Stimulus) (self : OSC_Mode) :
  do_we_have_a_client self = true ->
  binding (run pinproc_decode es self) = binding self.
Proof.
  revert self. induction es as [|e es IH]; intros self Hb; cbn [run].
  - reflexivity.
  - assert (Hstep : binding (exec (deliver pinproc_decode e) self)
                    = binding self).
    { destruct e as [addr tags data client_address | time_now];
        cbn [deliver].
      - apply process_message_bound_binding. exact Hb.
      - apply mode_tick_keeps; intros; reflexivity. }
    rewrite IH; [exact Hstep|].
    unfold binding in Hstep. congruence.
Qed.

(** *** Outbound and inbound addresses *)

Lemma split_sw_address (switchname : string) :
  has_char "/" switchname = false ->
  split "/" ("/sw/" ++ switchname) = [""; "sw"; switchname].
Proof.
  intro Hno. cbn [append split Ascii.eqb Bool.eqb].
  rewrite (split_no_sep _ _ Hno). reflexivity.
Qed.

(** X18. The synchroniser's switch message reads back as the same switch
    event: for a switch whose name has no ["/"], feeding the address and
    argument of its outbound ["sw"] message to [process_message] queues
    exactly one event for that name, closed when the state sent was 1 and
    open when it was 0, and raises nothing. *)
Theorem sw_message_echo (sw : Switch) (tags : string)
    (client_address : Endpoint) (self : OSC_Mode) :
  has_char "/" (name sw) = false ->
  let m := sw_message sw in
  let self' :=
    exec (process_message pinproc_decode (address m) tags
            (map inject_Z (arguments m)) client_address) self in
  result (process_message pinproc_decode (address m) tags
            (map inject_Z (arguments m)) client_address) self
  = Return tt /\
  key_events (game self')
  = (key_events (game self)
     ++ [mkEvent (if state sw then EventTypeSwitchClosedDebounced
                  else EventTypeSwitchOpenDebounced)
           (resolved_number pinproc_decode self (name sw))])%list.
Proof.
  intros Hno m self'. unfold self', m, exec, result. clear self' m.
  pose proof (@split_sw_address (name sw) Hno) as Hsplit.
  rewrite process_message_split with (cat := "sw") (name_ := name sw);
    [ | unfold sw_message; cbn [address]; rewrite Hsplit; reflexivity
      | reflexivity
      | unfold sw_message; cbn [address]; rewrite Hsplit; reflexivity ].
  destruct (bind_client_returns client_address self) as (_ & Hg & _).
  set (s1 := exec (bind_client client_address) self) in *. clearbody s1.
  unfold handler. cbn [String.eqb Ascii.eqb Bool.eqb].
  unfold sw_message. cbn [arguments map].
  rewrite process_switch_cons. cbv zeta.
  assert (Hres : resolved_number pinproc_decode s1 (name sw)
                 = resolved_number pinproc_decode self (name sw)).
  { unfold resolved_number. rewrite Hg. reflexivity. }
  rewrite Hres.
  destruct (state sw); cbn -[resolved_number]; rewrite Hg; split; reflexivity.
Qed.

(** *** First contact *)

(** X19. The reply to a first LED message goes to the address the session
    binds to, on the configured client port: the configured client address
    when there is one, else the sender's host, and never the sender's
    source port.  The named LED is driven once and exactly one
    ["led-label"] datagram leaves.  (When the payload times 255 is beyond
    the binary64 range, which no payload within [0,1] is, the session is
    bound all the same, the scaling raises, and nothing is driven or
    sent.) *)
Theorem first_contact_LED_reply (addr tags : string) (d : Q) (rest : list Q)
    (client_address : Endpoint) (cat LED : string) (self : OSC_Mode) :
  do_we_have_a_client self = false ->
  index (split "/" addr) 1 = Return cat ->
  cat = "led" \/ cat = "LED" ->
  index (split "/" addr) 2 = Return LED ->
  startswith "+" LED = false ->
  has_device LED (leds (game self)) = true ->
  let self' :=
    exec (process_message pinproc_decode addr tags (d :: rest) client_address)
      self in
  match int_times_255 d with
  | Return b =>
      result (process_message pinproc_decode addr tags (d :: rest)
                client_address) self = Return tt /\
      network self'
      = (network self
         ++ [((bound_host self client_address, clientPort self),
              led_label LED b)])%list /\
      driver (game self')
      = (driver (game self) ++ [led_color LED (PList [b])])%list
  | Raise e =>
      result (process_message pinproc_decode addr tags (d :: rest)
                client_address) self = Raise e /\
      network self' = network self /\
      driver (game self') = driver (game self) /\
      OSC_client self'
      = Some (bound_host self client_address, clientPort self)
  end /\
  (0 <= d -> d <= 1 ->
   exists b, int_times_255 d = Return b /\ (0 <= b <= 255)%Z).
Proof.
  intros Hb Hcat Hled Hname Hplus Hin self'.
  split; [|apply int_times_255_unit].
  unfold self', exec, result. clear self'.
  assert (Hnr : String.eqb cat "refresh" = false)
    by (destruct Hled; subst cat; reflexivity).
  assert (Hh : handler pinproc_decode cat LED (d :: rest)
               = process_LED LED (d :: rest))
    by (destruct Hled; subst cat; reflexivity).
  rewrite process_message_split with (cat := cat) (name_ := LED)
    by assumption.
  rewrite Hh.
  destruct (bind_client_returns client_address self) as (_ & Hg & Hn & _).
  destruct (@bind_client_unbound client_address self Hb)
    as (s1 & Hrun1 & _ & Hc & _).
  assert (Hs1 : exec (bind_client client_address) self = s1)
    by (unfold exec; rewrite Hrun1; reflexivity).
  rewrite Hs1 in *. clear Hs1 Hrun1.
  destruct (int_times_255 d) as [b|e] eqn:Hscale.
  2:{ rewrite (@process_LED_raises LED d rest e s1 Hscale). cbn [fst snd].
      rewrite Hn, Hg. repeat split. exact Hc. }
  rewrite process_LED_named
    with (peer := (bound_host self client_address, clientPort self))
         (b := b);
    [ | exact Hc | exact Hscale | exact Hplus | rewrite Hg; exact Hin ].
  cbn [fst snd]. split; [reflexivity|].
  destruct (after_send_frame
              (bound_host self client_address, clientPort self)
              (led_label LED b)
              (driver_append (led_color LED (PList [b])) s1))
    as (_ & _ & _ & _ & _ & Hd & Hnet).
  rewrite Hnet, Hd.
  cbn [network driver game driver_append set_game].
  rewrite Hn, Hg. split; reflexivity.
Qed.

(** X20. A refresh that arrives before any client is bound is not lost and
    does not bind: a tick in between changes nothing, and once a first
    non-refresh message has bound the session, the next tick sends the full
    switch state (one message per switch, then the change updates) to the
    new client and clears the flag. *)
Theorem refresh_before_first_contact (addr0 tags0 : string) (data0 : list Q)
    (sender0 : Endpoint) (addr tags : string) (data : list Q)
    (client_address : Endpoint) (cat name_ : string) (t0 t : Q)
    (self : OSC_Mode) :
  do_we_have_a_client self = false ->
  category_is addr0 "refresh" ->
  index (split "/" addr) 1 = Return cat ->
  String.eqb cat "refresh" = false ->
  index (split "/" addr) 2 = Return name_ ->
  let s1 := exec (process_message pinproc_decode addr0 tags0 data0 sender0)
              self in
  let s2 := exec (process_message pinproc_decode addr tags data client_address)
              s1 in
  let peer := (bound_host self client_address, clientPort self) in
  do_we_have_a_client s1 = false /\
  mode_tick t0 s1 = (Return tt, s1) /\
  result (mode_tick t) s2 = Return tt /\
  network (exec (mode_tick t) s2)
  = (network s2
     ++ map (pair peer)
          (map sw_message (switches (game self))
           ++ map sw_message
                (filter (changed_since (last_loop_time self))
                   (switches (game self)))))%list /\
  client_needs_sync (exec (mode_tick t) s2) = false.
Proof.
  intros Hb Hrf Hcat Hnr Hname s1 s2 peer.
  assert (Hs1 : s1 = set_client_needs_sync true self).
  { unfold s1, exec. rewrite process_message_refresh by exact Hrf.
    reflexivity. }
  assert (Hb1 : do_we_have_a_client s1 = false) by (rewrite Hs1; exact Hb).
  split; [exact Hb1|]. split; [apply mode_tick_unbound; exact Hb1|].
  destruct (@process_message_first_contact pinproc_decode addr tags data
              client_address cat name_ s1 Hb1 Hcat Hnr Hname)
    as (_ & Hc & Hd & Hs).
  fold s2 in Hc, Hd, Hs.
  assert (Hpeer : OSC_client s2 = Some peer).
  { rewrite Hc, Hs1. reflexivity. }
  assert (Hflag : client_needs_sync s2 = true).
  { rewrite Hs, Hs1. reflexivity. }
  destruct (clientPort_configuration
              (process_message_configuration addr tags data client_address
                 s1)) as [_ Hw].
  fold s2 in Hw.
  assert (Hw' : switches (game s2) = switches (game self))
    by (rewrite Hw, Hs1; reflexivity).
  assert (Ht : last_loop_time s2 = last_loop_time self).
  { unfold s2. rewrite process_message_last_loop_time. rewrite Hs1.
    reflexivity. }
  clearbody s2. clear Hc Hs Hw.
  unfold result, exec.
  rewrite mode_tick_bound with (peer := peer) by assumption.
  unfold after_resync. rewrite Hflag, Hw', Ht. cbn [fst snd].
  split; [reflexivity|].
  set (full := map sw_message (switches (game self))).
  set (changed := map sw_message
                    (filter (changed_since (last_loop_time self))
                       (switches (game self)))).
  destruct (after_sends_frame peer full s2) as (_ & _ & _ & _ & _ & _ & Hn1).
  destruct (after_sends_frame peer changed
              (set_client_needs_sync false (after_sends peer full s2)))
    as (_ & Hs2 & _ & _ & _ & _ & Hn2).
  cbn [network client_needs_sync set_last_loop_time].
  rewrite Hn2, Hs2. cbn [network client_needs_sync set_client_needs_sync].
  rewrite Hn1, map_app, app_assoc. split; reflexivity.
Qed.

(** *** Out-of-range brightness, missing client *)

(** X21. The LED brightness is not clamped: a first payload value of at
    least 256/255 (and at most [2^1000]) reaches the named LED, and the
    reply, as a brightness of 256 or more; from [2^1017] on the product
    with 255 is an infinity, and the handler raises [OverflowError] with
    nothing driven or sent. *)
Theorem process_LED_unclamped (peer : Endpoint) (LED : string) (d : Q)
    (rest : list Q) (self : OSC_Mode) :
  OSC_client self = Some peer ->
  startswith "+" LED = false ->
  has_device LED (leds (game self)) = true ->
  256 # 255 <= d ->
  (d <= pow2 1000 ->
   exists b,
     (256 <= b)%Z /\
     process_LED LED (d :: rest) self
     = (Return tt,
        after_send peer (led_label LED b)
          (driver_append (led_color LED (PList [b])) self)) /\
     driver (game (exec (process_LED LED (d :: rest)) self))
     = (driver (game self) ++ [led_color LED (PList [b])])%list /\
     network (exec (process_LED LED (d :: rest)) self)
     = (network self ++ [(peer, led_label LED b)])%list) /\
  (pow2 1017 <= d ->
   process_LED LED (d :: rest) self = (Raise OverflowError, self)).
Proof.
  intros Hc Hplus Hin Hd. split.
  - intro Hhi. destruct (int_times_255_above Hd Hhi) as (b & Hb & Hbig).
    exists b. split; [exact Hbig|].
    unfold exec.
    rewrite (@process_LED_named peer LED b d rest self Hc Hb Hplus Hin).
    repeat split.
  - intro Hbig. apply process_LED_raises.
    apply int_times_255_overflow. exact Hbig.
Qed.

(** X22. Called on an instance that has no client yet, [client_update_all]
    raises [AttributeError] at the first switch, sends nothing and leaves
    [client_needs_sync] as it was, so a pending resync is not lost; with an
    empty switch registry it returns and clears the flag. *)
Theorem client_update_all_no_client (self : OSC_Mode) :
  OSC_client self = None ->
  (switches (game self) <> [] ->
   result client_update_all self = Raise AttributeError /\
   network (exec client_update_all self) = network self /\
   client_needs_sync (exec client_update_all self) = client_needs_sync self) /\
  (switches (game self) = [] ->
   client_update_all self = (Return tt, set_client_needs_sync false self)).
Proof.
  intro Hc. split.
  - intro Hne. destruct (switches (game self)) as [|sw l] eqn:Hsw;
      [contradiction|].
    assert (Hrun : client_update_all self
                   = (Raise AttributeError,
                      logger_append
                        (log_debug "OSC Message: %s" (sw_message sw))
                        (set_OSC_message (Some (sw_message sw)) self))).
    { unfold client_update_all, client_update_all_switches.
      unfold bind at 1. unfold bind at 1, get at 1. cbn beta iota.
      rewrite Hsw. cbn [for_each]. unfold bind at 1.
      unfold client_send_OSC_message. run.
      cbn [OSC_client logger_append set_game set_OSC_message]. rewrite Hc.
      reflexivity. }
    unfold result, exec. rewrite Hrun. repeat split.
  - intro Hnil. unfold client_update_all, client_update_all_switches. run.
    rewrite Hnil. reflexivity.
Qed.

End Further.

(** ** Further properties on concrete input *)




Lemma process_LED_no_dash_witness :
  process_LED "+8" [1] demo_bound = (Raise IndexError, demo_bound) /\
  process_LED "+top" [1] demo_bound = (Raise ValueError, demo_bound).
Proof.
  split.
  - exact (proj1 (@process_LED_no_dash "+8" 1 [] demo_bound eq_refl eq_refl)).
  - exact (proj1
             (@process_LED_no_dash "+top" 1 [] demo_bound eq_refl eq_refl)).
Defined.

Lemma process_message_malformed_address_witness :
  process_message demo_decode "sw" ",f" [1] first_client demo_unbound
  = (Raise IndexError, demo_unbound) /\
  process_message demo_decode "/sw" ",f" [1] first_client demo_unbound
  = (Raise IndexError, demo_unbound).
Proof.
  destruct (@process_message_malformed_address demo_decode "sw" ",f" [1]
              first_client demo_unbound eq_refl) as [H1 H2].
  split; [exact H1 | apply H2; discriminate].
Defined.

Lemma process_message_unknown_category_witness :
  exec (process_message demo_decode "/ping/x" "" [] ("10.0.0.99", 1%Z))
    demo_bound
  = demo_bound.
Proof.
  refine (proj1 (proj2 (proj2 (proj2
    (@process_message_unknown_category demo_decode "/ping/x" "" []
       ("10.0.0.99", 1%Z) "ping" "x" demo_bound eq_refl eq_refl _)))) eq_refl).
  cbn. intros [H|[H|[H|[H|[H|[H|[]]]]]]]; discriminate H.
Defined.

Lemma process_message_footprint_witness :
  network
    (exec (process_message demo_decode "/coil/flipperLMain" "" [1]
             first_client) demo_bound)
  = network demo_bound.
Proof.
  refine (proj1 (@process_message_footprint demo_decode "/coil/flipperLMain"
                   "" [1] first_client demo_bound) _ _);
    unfold category_is; discriminate.
Defined.

Lemma mode_tick_change_detection_witness :
  network (exec (mode_tick 100) demo_bound)
  = [(first_client, sw_message trough1)].
Proof.
  exact (proj1 (proj2 (@mode_tick_change_detection first_client 100 demo_bound
                         eq_refl eq_refl eq_refl))).
Defined.

Lemma mode_tick_quiescent_witness :
  mode_tick 200 (exec (mode_tick 100) demo_bound)
  = (Return tt, set_last_loop_time 200 (exec (mode_tick 100) demo_bound)).
Proof.
  apply (@mode_tick_quiescent first_client 100 200 demo_bound eq_refl eq_refl).
  apply Forall_cons; [|apply Forall_cons; [|apply Forall_nil]];
    intros c Hlast; cbn in Hlast; [discriminate Hlast|].
  injection Hlast as <-. unfold Qle; simpl; lia.
Defined.

Lemma set_initial_closed_switches_queue_witness :
  key_events
    (game (exec (set_initial_closed_switches demo_decode
                   [("pinproc_class", "procgame.fakepinproc.FakePinPROC")])
             (init "192.168.1.2" demo_game None 9000 None 8000
                ["trough1"; "40"])))
  = [mkEvent EventTypeSwitchClosedDebounced 2;
     mkEvent EventTypeSwitchClosedDebounced 40] /\
  set_initial_closed_switches demo_decode [("machine_type", "wpc")]
    demo_unbound
  = (Raise KeyError, demo_unbound).
Proof.
  split.
  - exact (proj1 (proj1 (proj2
      (@set_initial_closed_switches_queue demo_decode
         [("pinproc_class", "procgame.fakepinproc.FakePinPROC")]
         (init "192.168.1.2" demo_game None 9000 None 8000
            ["trough1"; "40"])))
      eq_refl)).
  - exact (proj2
      (@set_initial_closed_switches_queue demo_decode
         [("machine_type", "wpc")] demo_unbound)).
Defined.

Lemma run_keeps_binding_witness :
  binding
    (run demo_decode
       [Message "/sw/flipperL" ",f" [1] ("10.0.0.99", 40000%Z);
        Tick 100;
        Message "/refresh" "" [] ("10.0.0.77", 40001%Z);
        Message "/led/topLeftInsert" ",f" [1 # 2] ("10.0.0.77", 40001%Z)]
       demo_bound)
  = binding demo_bound.
Proof.
  exact (@run_keeps_binding demo_decode
           [Message "/sw/flipperL" ",f" [1] ("10.0.0.99", 40000%Z);
            Tick 100;
            Message "/refresh" "" [] ("10.0.0.77", 40001%Z);
            Message "/led/topLeftInsert" ",f" [1 # 2] ("10.0.0.77", 40001%Z)]
           demo_bound eq_refl).
Defined.

Lemma sw_message_echo_witness :
  key_events
    (game (exec (process_message demo_decode "/sw/trough1" ""
                   [inject_Z 1] first_client) demo_bound))
  = [mkEvent EventTypeSwitchClosedDebounced 2].
Proof.
  exact (proj2 (@sw_message_echo demo_decode trough1 "" first_client
                  demo_bound eq_refl)).
Defined.

Lemma first_contact_LED_reply_witness :
  network
    (exec (process_message demo_decode "/led/topLeftInsert" ",f" [1]
             ("10.0.0.7", 54321%Z)) demo_unbound)
  = [(("10.0.0.7", 8000%Z), led_label "topLeftInsert" 255)].
Proof.
  exact (proj1 (proj2 (proj1
    (@first_contact_LED_reply demo_decode "/led/topLeftInsert" ",f" 1 []
       ("10.0.0.7", 54321%Z) "led" "topLeftInsert" demo_unbound
       eq_refl eq_refl (or_introl eq_refl) eq_refl eq_refl eq_refl)))).
Defined.

Lemma refresh_before_first_contact_witness :
  network
    (exec (mode_tick 100)
       (exec (process_message demo_decode "/coil/flipperLMain" ",f" [1]
                ("10.0.0.7", 54321%Z))
          (exec (process_message demo_decode "/refresh" "" []
                   ("10.0.0.7", 54321%Z)) demo_unbound)))
  = [(("10.0.0.7", 8000%Z), sw_message flipperL);
     (("10.0.0.7", 8000%Z), sw_message trough1);
     (("10.0.0.7", 8000%Z), sw_message trough1)].
Proof.
  exact (proj1 (proj2 (proj2 (proj2
    (@refresh_before_first_contact demo_decode "/refresh" "" []
       ("10.0.0.7", 54321%Z) "/coil/flipperLMain" ",f" [1]
       ("10.0.0.7", 54321%Z) "coil" "flipperLMain" 50 100 demo_unbound
       eq_refl eq_refl eq_refl eq_refl eq_refl))))).
Defined.

Lemma run_from_init_witness :
  exists ip,
    clientTuple
      (run demo_decode
         [Message "/sw/flipperL" ",f" [1] ("10.0.0.7", 54321%Z); Tick 100]
         demo_unbound)
    = Some (ip, 8000%Z).
Proof.
  destruct (@run_from_init demo_decode
              [Message "/sw/flipperL" ",f" [1] ("10.0.0.7", 54321%Z); Tick 100]
              "192.168.1.2" demo_game None 9000%Z None 8000%Z [] 100)
    as [H _].
  destruct (H eq_refl) as (ip & _ & Ht & _).
  exists ip. exact Ht.
Defined.

Lemma process_LED_unclamped_witness :
  exists b,
    (256 <= b)%Z /\
    network (exec (process_LED "topLeftInsert" [2]) demo_bound)
    = [(first_client, led_label "topLeftInsert" b)].
Proof.
  destruct (proj1 (@process_LED_unclamped first_client "topLeftInsert" 2 []
                     demo_bound eq_refl eq_refl eq_refl
                     ltac:(unfold Qle; simpl; lia)))
    as (b & Hbig & _ & _ & Hn).
  - apply Qlt_le_weak. reflexivity.
  - exists b. split; [exact Hbig | exact Hn].
Defined.

Lemma client_update_all_no_client_witness :
  result client_update_all (set_client_needs_sync true demo_unbound)
  = Raise AttributeError /\
  client_needs_sync
    (exec client_update_all (set_client_needs_sync true demo_unbound))
  = true.
Proof.
  destruct (@client_update_all_no_client
              (set_client_needs_sync true demo_unbound) eq_refl) as [H _].
  destruct (H ltac:(discriminate)) as (Hr & _ & Hs).
  split; [exact Hr | exact Hs].
Defined.
